(** * pytransit HMM analysis ([src/pytransit/analysis/hmm.py]): embedding and properties

    The file has two parts.  Part I translates the functions of [hmm.py]
    that the properties are about into Rocq definitions, one module per
    component.  Part II states and proves the properties.

    Number representations.  Python integers are [Z]; lengths are [nat].
    A Python [float] is an IEEE-754 binary64 value and is embedded as Rocq's
    primitive [float] wherever its rounding or its special values (NaN, the
    infinities, signed zeros) decide the behaviour: the forward and backward
    pass, the gene-level threshold, the run-length loop.  The quotient
    returned by [calculate_pins] is kept as the exact rational it rounds.
    Functions of the C library ([log], [pow]) are parameters. *)

From Stdlib Require Import ZArith QArith Qpower Qabs Lia Lqa Floats.
From stdpp Require Import base list gmap strings.

(* ===================================================================== *)
(** * Part I: the embedding *)
(* ===================================================================== *)

(** ** Python exceptions and fallible results *)
Module Py.

Inductive exn : Set :=
| ZeroDivisionError
| IndexError
| KeyError
| ValueError
| OverflowError
| AttributeError
| IOError.

Inductive result (A : Type) : Type :=
| Ok (a : A)
| Raise (e : exn).
Arguments Ok {A} a.
Arguments Raise {A} e.

#[global] Instance result_ret : MRet result := fun A a => Ok a.
#[global] Instance result_bind : MBind result := fun A B k c =>
  match c with
  | Ok a => k a
  | Raise e => Raise e
  end.

Definition is_ok {A : Type} (c : result A) : bool :=
  match c with Ok _ => true | Raise _ => false end.

(** [try: c except: h] with a bare [except], which catches everything. *)
Definition try_except {A : Type} (c : result A) (h : result A) : result A :=
  match c with
  | Ok a => Ok a
  | Raise _ => h
  end.

End Py.

(** ** [HMMMethod.calculate_pins] (hmm.py, lines 514-526) *)
Module Pins.

(** The two lists the loop mutates. *)
Record loop_state : Type := LoopState {
  non_ess_reads : list Z;
  temp : list Z
}.

Definition init : loop_state := LoopState [] [].

(** One iteration of [for rd in reads]. *)
Definition body (st : loop_state) (rd : Z) : loop_state :=
  if (1 <=? rd)%Z then
    let pooled :=
      if (length (temp st) <? 10)%nat
      then non_ess_reads st ++ temp st      (* non_ess_reads.extend(temp) *)
      else non_ess_reads st in
    LoopState (pooled ++ [rd]) []           (* append(rd); temp = [] *)
  else
    LoopState (non_ess_reads st) (temp st ++ [rd]).

Definition loop (reads : list Z) (st : loop_state) : loop_state :=
  fold_left body reads st.

(** The list [non_ess_reads] when the loop ends. *)
Definition pooled (reads : list Z) : list Z :=
  non_ess_reads (loop reads init).

(** [sum([1 for rd in l if rd >= 1])]. *)
Definition count_hits (l : list Z) : Z :=
  fold_left Z.add (map (fun _ => 1%Z) (filter (fun rd => (1 <= rd)%Z) l)) 0%Z.

(** [num / float(den)]: Python raises [ZeroDivisionError] on a zero divisor.
    The quotient is kept exact, as a rational; the binary64 the code returns
    is its rounding. *)
Definition truediv (num den : Z) : Py.result Q :=
  if (den =? 0)%Z then Py.Raise Py.ZeroDivisionError
  else Py.Ok (inject_Z num / inject_Z den)%Q.

Definition calculate_pins (reads : list Z) : Py.result Q :=
  let l := pooled reads in
  truediv (count_hits l) (Z.of_nat (length l)).

(** The read sequence of the spec's scenario. *)
Definition scenario : list Z :=
  [0; 0; 1; 0; 0; 0; 0; 0; 0; 0; 0; 1]%Z.

End Pins.

(** ** Binary64 values

    Every finite binary64 number is a whole number of units of [2^-1074],
    the smallest subnormal. *)
Module Binary64.

(** The exact value of a finite float, in units of [2^-1074]; [None] for an
    infinity or a NaN. *)
Definition sf_units (x : spec_float) : option Z :=
  match x with
  | S754_zero _ => Some 0%Z
  | S754_finite s m e => Some (cond_Zopp s (Z.pos m * 2 ^ (e + 1074)))
  | S754_infinity _ | S754_nan => None
  end.

Definition units (x : float) : option Z := sf_units (Prim2SF x).

Definition unit_den : positive := (2 ^ 1074)%positive.

(** The exact value as a rational number. *)
Definition value (x : float) : option Q :=
  match units x with
  | Some u => Some (u # unit_den)
  | None => None
  end.

End Binary64.

(** ** The run length [r] of [HMMMethod.Run] (hmm.py, lines 301-305) *)
Module RunLength.
#[local] Set Warnings "-inexact-float".

(** [for r in rs: if test r: break], as the value [r] is bound to once the
    loop is left; the test may raise.  [r0] is the binding before the loop
    ([None]: unbound). *)
Fixpoint for_break (test : nat -> Py.result bool) (rs : list nat)
    (r0 : option nat) : Py.result (option nat) :=
  match rs with
  | [] => Py.Ok r0
  | r :: rs' =>
      b ← test r;
      if b : bool then Py.Ok (Some r) else for_break test rs' (Some r)
  end.

Section WithPow.
(** [x ** r] for a float [x] and an int [r]: Python hands it to the C
    library's [pow] and raises where that reports an error.  Neither is
    part of the repository. *)
Variable pow : float -> Z -> Py.result float.

(** [pnon ** r < 0.01] *)
Definition below_threshold (pnon : float) (r : nat) : Py.result bool :=
  y ← pow pnon (Z.of_nat r); Py.Ok (y <? 0.01)%float.

(** [pnon = 1.0 - pins; for r in range(100): if pnon ** r < 0.01: break] *)
Definition run_length (pins : float) : Py.result (option nat) :=
  let pnon := (1 - pins)%float in
  for_break (below_threshold pnon) (seq 0 100) None.

(** What the properties ask of [pow] at a base [x] and an exponent [r]: it
    returns, and its result is the power to within one part in [2^52] and
    one unit of [2^-1074]. *)
Definition accurate (x : float) (r : nat) : Prop :=
  exists (y : float) (X Y : Q),
    pow x (Z.of_nat r) = Py.Ok y /\
    Binary64.value x = Some X /\ Binary64.value y = Some Y /\
    (Qabs (Y - X ^ Z.of_nat r)
     <= X ^ Z.of_nat r * (1 # 2 ^ 52) + (1 # Binary64.unit_den))%Q.

End WithPow.

(** A sample power function: repeated multiplication. *)
Fixpoint repeated_product (x : float) (n : nat) : float :=
  match n with
  | O => 1%float
  | S n' => (x * repeated_product x n')%float
  end.

Definition sample_pow (x : float) (r : Z) : Py.result float :=
  Py.Ok (repeated_product x (Z.to_nat r)).

End RunLength.

(** ** The numpy operations the inference passes use, on binary64 floats

    A vector is a list; a matrix is the list of its rows.  Operands whose
    shapes differ raise [ValueError]; numpy's broadcasting of a length-1
    operand is left out (the passes are called with [PI] of shape (N,) and
    [A] of shape (N,N)).  Sums accumulate from left to right. *)
Module Np.
#[local] Set Warnings "-inexact-float".

(** The largest finite binary64, what [nan_to_num] puts for an infinity. *)
Definition float_max : float := 0x1.fffffffffffffp+1023%float.

(** The floor both passes substitute: [0.0000000000001]. *)
Definition floor : float := 0.0000000000001%float.

Definition nan_to_num (x : float) : float :=
  if PrimFloat.is_nan x then 0%float
  else if PrimFloat.is_infinity x
       then (if (x <? 0)%float then (- float_max)%float else float_max)
       else x.

(** [numpy.sum(v)], and the builtin [sum(v)], which starts from 0. *)
Definition sum (v : list float) : float := fold_left PrimFloat.add v 0%float.

(** Elementwise [x * y] and [x + y]. *)
Definition ew (op : float -> float -> float) (x y : list float)
  : Py.result (list float) :=
  if (length x =? length y)%nat then Py.Ok (zip_with op x y)
  else Py.Raise Py.ValueError.

(** [arr[:,t] = v] for an array with [N] rows. *)
Definition assign {X : Type} (N : nat) (v : list X) : Py.result (list X) :=
  if (length v =? N)%nat then Py.Ok v else Py.Raise Py.ValueError.

Definition column (j : nat) (A : list (list float)) : list float :=
  map (fun row => default 0%float (row !! j)) A.

(** Number of columns of a matrix given by its rows; [None] when ragged. *)
Definition ncols (A : list (list float)) : option nat :=
  match A with
  | [] => Some 0%nat
  | row :: rows =>
      if forallb (fun r => (length r =? length row)%nat) rows
      then Some (length row) else None
  end.

(** [numpy.dot(v, A)]: entry [j] is the sum over [i] of [v[i] * A[i][j]]. *)
Definition dot_vm (v : list float) (A : list (list float))
  : Py.result (list float) :=
  match ncols A with
  | Some m =>
      if (length v =? length A)%nat
      then Py.Ok (map (fun j => sum (zip_with PrimFloat.mul v (column j A)))
                      (seq 0 m))
      else Py.Raise Py.ValueError
  | None => Py.Raise Py.ValueError
  end.

(** [numpy.dot(A, v)]: entry [i] is the sum over [j] of [A[i][j] * v[j]]. *)
Definition dot_mv (A : list (list float)) (v : list float)
  : Py.result (list float) :=
  if forallb (fun row => (length row =? length v)%nat) A
  then Py.Ok (map (fun row => sum (zip_with PrimFloat.mul row v)) A)
  else Py.Raise Py.ValueError.

(** The scan behind [argmax]: a later entry replaces the running maximum
    unless it is [<=] it, so the first of several equal maxima is kept and a
    NaN, once met, stays. *)
Fixpoint argmax_scan (v : list float) (i : nat) (mp : float) (ind : nat)
  : float * nat :=
  match v with
  | [] => (mp, ind)
  | x :: v' =>
      if PrimFloat.is_nan mp then (mp, ind)
      else if (x <=? mp)%float then argmax_scan v' (S i) mp ind
      else argmax_scan v' (S i) x i
  end.

(** [numpy.argmax(v)] and [v.max()]; both raise on an empty vector. *)
Definition argmax (v : list float) : Py.result nat :=
  match v with
  | [] => Py.Raise Py.ValueError
  | x :: v' => Py.Ok (snd (argmax_scan v' 1 x 0))
  end.

Definition max (v : list float) : Py.result float :=
  match v with
  | [] => Py.Raise Py.ValueError
  | x :: v' => Py.Ok (fst (argmax_scan v' 1 x 0))
  end.

(** [C.any()]: some entry is not equal to zero (a NaN counts). *)
Definition any (C : list float) : bool :=
  existsb (fun c => negb (c =? 0)%float) C.

(** Values a product with a zero emission probability can take, and the
    finite floats. *)
Definition zero_or_nan (x : float) : Prop :=
  x = 0%float \/ x = (-0)%float \/ x = nan.

Definition signed_zero (x : float) : Prop :=
  x = 0%float \/ x = (-0)%float.

Definition finite (x : float) : Prop := PrimFloat.is_finite x = true.

(** Run a fallible function over a list, left to right. *)
Fixpoint mapM {X Y : Type} (f : X -> Py.result Y) (l : list X)
  : Py.result (list Y) :=
  match l with
  | [] => Py.Ok []
  | x :: l' => y ← f x; ys ← mapM f l'; Py.Ok (y :: ys)
  end.

End Np.

(** ** The inference passes (hmm.py, lines 419-511)

    [alpha], [beta], [delta] and [Q] are kept as the list of their columns:
    entry [t] of the list is the state vector [arr[:,t]], of length [N].
    The observations are the shifted counts; the emission model [B] is the
    list of the [N] probability mass functions.  The calls that report
    progress, and the counter [self.count] they advance, are left out. *)
Module Hmm.
#[local] Set Warnings "-inexact-float".

Definition emission := Z -> float.

(** An array of shape (N,T), as its [T] columns. *)
Definition has_shape {X : Type} (N T : nat) (arr : list (list X)) : Prop :=
  length arr = T /\ Forall (fun col => length col = N) arr.

(** [[B[i](o) for i in range(N)]] *)
Definition b_at (B : list emission) (o : Z) : list float :=
  map (fun Bi => Bi o) B.

(** Every state's emission probability of the observation [o] is zero. *)
Definition silent (B : list emission) (o : Z) : Prop :=
  Forall (fun Bi : emission => Bi o = 0%float) B.

(** The initial distribution [HMMMethod.Run] builds (lines 314-315):
    [PI[0] = 0.7; PI[1:] = 0.3/(Nstates-1)] with [Nstates = 4]. *)
Definition PI_run : list float :=
  0.7%float :: replicate 3 (0.3 / 3)%float.

(** Sample operands: four states that never emit anything, four states
    whose emission probabilities vanish at the observation 2 only, and two
    row-stochastic transition matrices. *)
Definition silent_model : list emission :=
  replicate 4 (fun _ : Z => 0%float).

Definition fading_model : list emission :=
  map (fun p : float => fun o : Z => if (o =? 2)%Z then 0%float else p)
      [0.1; 0.9; 0.9; 0.9]%float.

Definition A_uniform : list (list float) :=
  replicate 4 (replicate 4 0.25%float).

Definition A_sticky : list (list float) :=
  map (fun i : nat => <[i := 0.97%float]> (replicate 4 0.01%float)) (seq 0 4).

(** Four states whose emission probability is the smallest positive float,
    whatever the observation. *)
Definition faint_model : list emission :=
  replicate 4 (fun _ : Z => 0x1p-1074%float).

(** *** [forward_procedure] *)

(** The body of [for t in xrange(1, T)]: from [alpha[:,t-1]] and [O[t]] to
    [alpha[:,t]] and [C[t]]. *)
Definition forward_step (A : list (list float)) (B : list emission)
    (prev : list float) (o : Z) : Py.result (list float * float) :=
  let N := length B in
  let b_o := b_at B o in
  d ← Np.dot_vm prev A;
  raw ← Np.ew PrimFloat.mul d b_o;
  raw ← Np.assign N raw;
  let c := Np.nan_to_num (1 / Np.sum raw)%float in
  let scaled := map (fun x => Np.nan_to_num (x * c)%float) raw in
  if (Np.sum scaled =? 0)%float
  then Py.Ok (replicate N Np.floor, c)
  else Py.Ok (scaled, c).

(** The loop over [O[1:]]: the columns [alpha[:,1..]] and the entries
    [C[1..]]. *)
Fixpoint forward_loop (A : list (list float)) (B : list emission)
    (prev : list float) (Os : list Z)
  : Py.result (list (list float) * list float) :=
  match Os with
  | [] => Py.Ok ([], [])
  | o :: Os' =>
      '(col, c) ← forward_step A B prev o;
      '(cols, cs) ← forward_loop A B col Os';
      Py.Ok (col :: cols, c :: cs)
  end.

Section WithLog.
(** [numpy.log], elementwise on floats. *)
Variable log : float -> float.

Definition forward_procedure (A : list (list float)) (B : list emission)
    (PI : list float) (O : list Z)
  : Py.result (float * list (list float) * list float) :=
  let N := length B in
  match O, B with
  | [], _ :: _ => Py.Raise Py.IndexError                (* O[0] *)
  | [], [] => _ ← Np.ew PrimFloat.mul PI []; Py.Raise Py.IndexError
  | o0 :: Os, _ =>
      v ← Np.ew PrimFloat.mul PI (b_at B o0);
      v ← Np.assign N v;
      let c0 := (1 / Np.sum v)%float in
      let a0 := map (fun x => (c0 * x)%float) v in
      '(cols, cs) ← forward_loop A B a0 Os;
      let C := c0 :: cs in
      Py.Ok ((- Np.sum (map log C))%float, a0 :: cols, C)
  end.

(** *** [backward_procedure] *)

(** [if C.any(): col = col * C[t]] *)
Definition scale_by (C : list float) (t : nat) (col : list float)
  : Py.result (list float) :=
  if Np.any C then
    match C !! t with
    | Some c => Py.Ok (map (fun x => (x * c)%float) col)
    | None => Py.Raise Py.IndexError
    end
  else Py.Ok col.

(** The body of [for t in xrange(T-2, -1, -1)]: from [beta[:,t+1]], [O[t]]
    and [C[t]] to [beta[:,t]]. *)
Definition backward_step (A : list (list float)) (B : list emission)
    (C : list float) (t : nat) (o : Z) (next : list float)
  : Py.result (list float) :=
  let N := length B in
  let b_o := b_at B o in
  w ← Np.ew PrimFloat.mul b_o next;
  d ← Np.dot_mv A w;
  col ← Np.assign N (map Np.nan_to_num d);
  let col := if (Np.sum col =? 0)%float then replicate N Np.floor else col in
  scale_by C t col.

(** The columns [beta[:,t..T-1]] for the observations [O[t:]]. *)
Fixpoint backward_from (A : list (list float)) (B : list emission)
    (C : list float) (t : nat) (Os : list Z) : Py.result (list (list float)) :=
  match Os with
  | [] => Py.Raise Py.IndexError                        (* beta[:,T-1] *)
  | o :: Os' =>
      match Os' with
      | [] =>
          col ← scale_by C t (replicate (length B) 1%float);
          Py.Ok [col]
      | _ :: _ =>
          cols ← backward_from A B C (S t) Os';
          col ← backward_step A B C t o (default [] (head cols));
          Py.Ok (col :: cols)
      end
  end.

Definition backward_procedure (A : list (list float)) (B : list emission)
    (PI : list float) (O : list Z) (C : list float)
  : Py.result (list (list float)) :=
  backward_from A B C 0 O.

(** *** [viterbi] *)

(** The body of [for t in xrange(1, T)]: [nus[i][j] = delta[j,t-1] + A[i][j]],
    then the maximum and its first index along each row [i]. *)
Definition viterbi_step (A : list (list float)) (B : list emission)
    (prev : list float) (o : Z) : Py.result (list float * list nat) :=
  let N := length B in
  let b_o := b_at B o in
  nus ← Np.mapM (fun row => Np.ew PrimFloat.add prev row) A;
  mx ← Np.mapM Np.max nus;
  d ← Np.ew PrimFloat.add mx (map log b_o);
  d ← Np.assign N d;
  q ← Np.mapM Np.argmax nus;
  q ← Np.assign N q;
  Py.Ok (d, q).

Fixpoint viterbi_loop (A : list (list float)) (B : list emission)
    (prev : list float) (Os : list Z)
  : Py.result (list (list float) * list (list nat)) :=
  match Os with
  | [] => Py.Ok ([], [])
  | o :: Os' =>
      '(d, q) ← viterbi_step A B prev o;
      '(ds, qs) ← viterbi_loop A B d Os';
      Py.Ok (d :: ds, q :: qs)
  end.

(** [Q_opt] from the backpointer columns [Q[:,1..T-1]] and the final state:
    [Q_opt.insert(0, Q[Q_opt[0], t+1])] for [t] from [T-2] down to 0. *)
Fixpoint backtrack (Qtail : list (list nat)) (final : nat)
  : Py.result (list nat) :=
  match Qtail with
  | [] => Py.Ok [final]
  | col :: rest =>
      path ← backtrack rest final;
      match head path ≫= (col !!.) with
      | Some s => Py.Ok (s :: path)
      | None => Py.Raise Py.IndexError
      end
  end.

Definition viterbi (A : list (list float)) (B : list emission)
    (PI : list float) (O : list Z)
  : Py.result (list nat * list (list float) * list (list nat)) :=
  let N := length B in
  match O, B with
  | [], _ :: _ => Py.Raise Py.IndexError                (* O[0] *)
  | [], [] => _ ← Np.ew PrimFloat.add (map log PI) []; Py.Raise Py.IndexError
  | o0 :: Os, _ =>
      d0 ← Np.ew PrimFloat.add (map log PI) (map log (b_at B o0));
      d0 ← Np.assign N d0;
      '(ds, qs) ← viterbi_loop A B d0 Os;
      final ← Np.argmax (List.last ds d0);
      Q_opt ← backtrack qs final;
      Py.Ok (Q_opt, d0 :: ds, replicate N 0%nat :: qs)
  end.

End WithLog.

End Hmm.

(** ** [HMMMethod.post_process_genes] (hmm.py, lines 530-572): the call
    of one gene

    [theta] is [numpy.mean(data > 0)], computed once before the loop over
    the genes.  The writes to the output file are left out; what is kept of
    an iteration is the call [S]. *)
Module Genes.

(** Modelled from the spec: the gene records of [tnseq_tools.Genes], which
    is not among the sources.  A gene has an identifier, its number of sites
    [n] and the positions of its sites. *)
Record gene : Type := Gene {
  orf : string;
  n : Z;
  position : list Z
}.

(** [dict([(position[t], states[t]) for t in range(len(states))])]: a later
    pair replaces an earlier one with the same position. *)
Definition pos2state_of (position states : list Z) : Py.result (gmap Z Z) :=
  if (length states <=? length position)%nat
  then Py.Ok (fold_left (fun (m : gmap Z Z) (ps : Z * Z) => <[ps.1 := ps.2]> m)
                        (zip position states) ∅)
  else Py.Raise Py.IndexError.

(** [[pos2state[p] for p in gene.position]] *)
Definition genestates (pos2state : gmap Z Z) (g : gene) : Py.result (list Z) :=
  Np.mapM (fun p => match pos2state !! p with
                    | Some st => Py.Ok st
                    | None => Py.Raise Py.KeyError
                    end) (position g).

(** [if st not in statedist: statedist[st] = 0] then [statedist[st] += 1] *)
Definition tally_step (statedist : gmap Z Z) (st : Z) : gmap Z Z :=
  let d := match statedist !! st with
           | None => <[st := 0%Z]> statedist
           | Some _ => statedist
           end in
  <[st := (default 0 (d !! st) + 1)%Z]> d.

Definition tally (sts : list Z) : gmap Z Z := fold_left tally_step sts ∅.

(** [statedist.get(s, 0)] *)
Definition get (statedist : gmap Z Z) (s : Z) : Z :=
  default 0%Z (statedist !! s).

(** [x > y] on pairs of integers, as Python orders tuples. *)
Definition tuple_gt (x y : Z * Z) : bool :=
  (y.1 <? x.1)%Z || ((x.1 =? y.1)%Z && (y.2 <? x.2)%Z).

(** The builtin [max] of a list: a later item replaces the running maximum
    when it is greater. *)
Fixpoint max_scan (l : list (Z * Z)) (best : Z * Z) : Z * Z :=
  match l with
  | [] => best
  | x :: l' => max_scan l' (if tuple_gt x best then x else best)
  end.

Definition max_tuple (l : list (Z * Z)) : Py.result (Z * Z) :=
  match l with
  | [] => Py.Raise Py.ValueError
  | x :: l' => Py.Ok (max_scan l' x)
  end.

Definition num2label : gmap Z string :=
  list_to_map [(0%Z, "ES"); (1%Z, "GD"); (2%Z, "NE"); (3%Z, "GA")].

(** [num2label[max([(statedist.get(s, 0), s) for s in [0, 1, 2, 3]])[1]]] *)
Definition majority (statedist : gmap Z Z) : Py.result string :=
  t ← max_tuple (map (fun s => (get statedist s, s)) [0; 1; 2; 3]%Z);
  match num2label !! t.2 with
  | Some l => Py.Ok l
  | None => Py.Raise Py.KeyError
  end.

(** [math.sqrt]: a negative argument is a [ValueError]. *)
Definition math_sqrt (x : float) : Py.result float :=
  if (x <? 0)%float then Py.Raise Py.ValueError
  else Py.Ok (PrimFloat.sqrt x).

(** [int(x)] on a float: truncation toward zero; a NaN is a [ValueError],
    an infinity an [OverflowError]. *)
Definition int_of_float (x : float) : Py.result Z :=
  match Prim2SF x with
  | S754_nan => Py.Raise Py.ValueError
  | S754_infinity _ => Py.Raise Py.OverflowError
  | S754_zero _ => Py.Ok 0%Z
  | S754_finite s m e =>
      let a := if (0 <=? e)%Z then (Z.pos m * 2 ^ e)%Z
               else (Z.pos m / 2 ^ (- e))%Z in
      Py.Ok (if s then (- a)%Z else a)
  end.

(** [int(E+(3*math.sqrt(V)))] *)
Definition threshold (E V : float) : Py.result Z :=
  r ← math_sqrt V;
  int_of_float (E + 3 * r)%float.

Section WithRuns.
(** [tnseq_tools.ExpectedRuns] and [tnseq_tools.VarR] are not among the
    sources; the call depends on them only through the two floats they
    return. *)
Variables ExpectedRuns VarR : Z -> float -> float.

(** The branch [if gene.n > 0: ... else: ...] that sets [S]. *)
Definition call (theta : float) (g : gene) (statedist : gmap Z Z)
  : Py.result string :=
  let n0 := get statedist 0 in
  if (0 <? n g)%Z then
    let E := ExpectedRuns (n g) (1 - theta)%float in
    let V := VarR (n g) (1 - theta)%float in
    if (n0 =? n g)%Z then Py.Ok "ES"
    else
      k ← threshold E V;
      if (k <=? n0)%Z then Py.Ok "ES" else majority statedist
  else Py.Ok "N/A".

(** One iteration of [for gene in G], up to the call. *)
Definition gene_call (theta : float) (pos2state : gmap Z Z) (g : gene)
  : Py.result string :=
  sts ← genestates pos2state g;
  call theta g (tally sts).

(** The calls of all genes, in the order of [G]. *)
Definition post_process_genes (theta : float) (position states : list Z)
    (G : list gene) : Py.result (list string) :=
  pos2state ← pos2state_of position states;
  Np.mapM (gene_call theta pos2state) G.

End WithRuns.

(** The number of sites of a gene that are in state [s]. *)
Definition sites_in (sts : list Z) (s : Z) : Z :=
  Z.of_nat (length (filter (fun st => st = s) sts)).

(** [x <= n] between a float and an integer, compared exactly: what the
    spec's [n0 >= E + 3*sqrt(V)] says of the float [x]. *)
Definition float_le_Z (x : float) (k : Z) : Prop :=
  match Prim2SF x with
  | S754_nan => False
  | S754_infinity s => s = true
  | S754_zero _ => (0 <= k)%Z
  | S754_finite s m e =>
      let v := if s then Z.neg m else Z.pos m in
      if (0 <=? e)%Z then (v * 2 ^ e <= k)%Z
      else (v <= k * 2 ^ (- e))%Z
  end.

(** Sample genes: a tie between GD and NE, and 4 sites in ES among 10. *)
Definition tie_gene : gene := Gene "g1" 2 [10; 20]%Z.
Definition tie_states : gmap Z Z := list_to_map [(10, 1); (20, 2)]%Z.

Definition mixed_gene : gene := Gene "g2" 10 (map Z.of_nat (seq 1 10)).
Definition mixed_states : gmap Z Z :=
  list_to_map (map (fun i => (Z.of_nat i, if (i <=? 4)%nat then 0%Z else 2%Z))
                   (seq 1 10)).

End Genes.

(** ** [HMMMethod.__init__] (hmm.py, lines 176-194) *)
Module Method.

(** What an attribute holds: an integer, or some other Python object. *)
Inductive value : Set :=
| Int (z : Z)
| Other.

(** Modelled from the spec: an instance as the call of
    [base.SingleConditionMethod.__init__] leaves it ([base] is not among
    the sources), given by the attributes it has. *)
Definition obj : Type := gmap string value.

(** Evaluating [o.name]. *)
Definition getattr (o : obj) (name : string) : Py.result value :=
  match o !! name with
  | Some v => Py.Ok v
  | None => Py.Raise Py.AttributeError
  end.

(** [target.name = v] for a [target] that is not the instance itself: an
    integer has no attribute to set; for another object the assignment lands
    in that object and the instance is as before. *)
Definition setattr_other (target : value) (name : string) (v : value)
  : Py.result unit :=
  match target with
  | Int _ => Py.Raise Py.AttributeError
  | Other => Py.Ok tt
  end.

(** [open(path).readlines()] on a file system that maps the readable paths
    to their lines. *)
Definition readlines (fs : gmap string (list string)) (path : string)
  : Py.result (list string) :=
  match fs !! path with
  | Some lines => Py.Ok lines
  | None => Py.Raise Py.IOError
  end.

(** [ctrldata[0]] *)
Definition first_path (ctrldata : list string) : Py.result string :=
  match ctrldata !! 0%nat with
  | Some path => Py.Ok path
  | None => Py.Raise Py.IndexError
  end.

(** [len([1 for line in lines if not line.startswith("#")])] *)
Definition count_data_lines (lines : list string) : Z :=
  Z.of_nat (length (filter (fun line => String.prefix "#" line = false) lines)).

(** The [try] block, the [except] block and the assignment after them. *)
Definition init_try (self : obj) (fs : gmap string (list string))
    (ctrldata : list string) : Py.result obj :=
  path ← first_path ctrldata;
  lines ← readlines fs path;
  let T := count_data_lines lines in
  Py.Ok (<["maxiterations" := Int (T * 4 + 1)]> self).

Definition init_except (self : obj) : Py.result obj :=
  target ← getattr self "self";                  (* self.self *)
  _ ← setattr_other target "maxiterations" (Int 100);
  Py.Ok self.

Definition init (self : obj) (fs : gmap string (list string))
    (ctrldata : list string) : Py.result obj :=
  self' ← Py.try_except (init_try self fs ctrldata) (init_except self);
  Py.Ok (<["count" := Int 1]> self').

End Method.

(** ** The parameters [HMMMethod.Run] derives from the observations
    (hmm.py, lines 282-305, 336-340) *)
Module RunParams.

(** [reads = O-1], the counts behind the shifted observations. *)
Definition reads_of (O : list Z) : list Z := map (fun o => (o - 1)%Z) O.

(** [pins = self.calculate_pins(O-1)] *)
Definition pins (O : list Z) : Py.result Q := Pins.calculate_pins (reads_of O).

(** [pins_obs = sum([1 for rd in O if rd >=2])/float(len(O))] *)
Definition pins_obs (O : list Z) : Py.result Q :=
  Pins.truediv
    (fold_left Z.add (map (fun _ => 1%Z) (filter (fun rd => (2 <= rd)%Z) O)) 0%Z)
    (Z.of_nat (length O)).

(** [state2count = dict.fromkeys(range(Nstates),0)] with [Nstates = 4]. *)
Definition state2count_init : gmap Z Z :=
  list_to_map (map (fun i => (i, 0%Z)) [0; 1; 2; 3]%Z).

(** One iteration of [for t in xrange(T)]: [state = Q_opt[t]], then
    [state2count[state] +=1] and [total+=1]. *)
Definition count_step (Q_opt : list nat) (acc : gmap Z Z * Z) (t : nat)
  : Py.result (gmap Z Z * Z) :=
  match Q_opt !! t with
  | None => Py.Raise Py.IndexError
  | Some state =>
      match acc.1 !! Z.of_nat state with
      | None => Py.Raise Py.KeyError
      | Some c => Py.Ok (<[Z.of_nat state := (c + 1)%Z]> acc.1, (acc.2 + 1)%Z)
      end
  end.

Fixpoint count_loop (Q_opt : list nat) (ts : list nat) (acc : gmap Z Z * Z)
  : Py.result (gmap Z Z * Z) :=
  match ts with
  | [] => Py.Ok acc
  | t :: ts' => acc' ← count_step Q_opt acc t; count_loop Q_opt ts' acc'
  end.

(** [state2count] and [total] after the loop, for [T = len(O)]. *)
Definition state_counts (T : nat) (Q_opt : list nat)
  : Py.result (gmap Z Z * Z) :=
  count_loop Q_opt (seq 0 T) (state2count_init, 0%Z).

End RunParams.

(** ** Samples and conditions ([src/pytransit/analysis/zinb.py], lines
    56-63 and 91-102; the same two functions are in [anova.py]) *)
Module Conditions.


Section Filter.
(** [W] is what one entry of [data] is: the counts of one sample. *)
Context {W : Type}.

(** One iteration of [for i, c in enumerate(conditions)]. *)
Definition filter_step (data : list W) (ignored_conditions : gset string)
    (acc : list W * list string) (ic : nat * string)
  : Py.result (list W * list string) :=
  if decide (ic.2 ∈ ignored_conditions) then Py.Ok acc
  else
    match data !! ic.1 with
    | Some d => Py.Ok (acc.1 ++ [d], acc.2 ++ [ic.2])
    | None => Py.Raise Py.IndexError                    (* data[i] *)
    end.

Fixpoint filter_loop (data : list W) (ignored_conditions : gset string)
    (ics : list (nat * string)) (acc : list W * list string)
  : Py.result (list W * list string) :=
  match ics with
  | [] => Py.Ok acc
  | ic :: ics' =>
      acc' ← filter_step data ignored_conditions acc ic;
      filter_loop data ignored_conditions ics' acc'
  end.

Definition filter_by_conditions_blacklist (data : list W)
    (conditions : list string) (ignored_conditions : gset string)
  : Py.result (list W * list string) :=
  filter_loop data ignored_conditions
    (zip (seq 0 (length conditions)) conditions) ([], []).

End Filter.

(** What [ZinbMethod.fromargs] ignores when no option is given:
    [set("Unknown".split(","))]. *)
Definition zinb_default_ignored : gset string := {["Unknown"]}.

End Conditions.

(** ** The result files: the lines written and the headers read back
    (hmm.py, lines 62-110, 372-382 and 570)

    A Python string is the list of its characters.  The headers are kept as
    the numbers they are made of; laying them out as text (the [%1.1f] and
    [%s] of the template) is left out. *)
Module Files.

Definition text : Type := list Ascii.ascii.

(** A string literal. *)
Definition lit (s : string) : text := String.list_ascii_of_string s.

Definition tab : Ascii.ascii := Ascii.ascii_of_nat 9.
Definition newline : Ascii.ascii := Ascii.ascii_of_nat 10.
Definition hash : Ascii.ascii := Ascii.ascii_of_nat 35.

(** The characters [str.strip()] removes: space, tab, newline, vertical
    tab, form feed and carriage return. *)
Definition is_space (c : Ascii.ascii) : bool :=
  existsb (Ascii.eqb c) (map Ascii.ascii_of_nat [32; 9; 10; 11; 12; 13]%nat).

Fixpoint lstrip (l : text) : text :=
  match l with
  | [] => []
  | c :: l' => if is_space c then lstrip l' else l
  end.

(** [l.strip()] *)
Definition strip (l : text) : text := rev (lstrip (rev (lstrip l))).

(** [l.split(sep)] for a separator of one character. *)
Fixpoint split (sep : Ascii.ascii) (l : text) : list text :=
  match l with
  | [] => [[]]
  | c :: l' =>
      if Ascii.eqb c sep then [] :: split sep l'
      else match split sep l' with
           | h :: t => (c :: h) :: t
           | [] => [[c]]
           end
  end.

(** [sep.join(fields)] *)
Fixpoint join (sep : text) (fields : list text) : text :=
  match fields with
  | [] => []
  | f :: fs =>
      match fs with
      | [] => f
      | _ :: _ => f ++ sep ++ join sep fs
      end
  end.

(** [line.startswith("#")] *)
Definition is_comment (line : text) : bool :=
  match line with
  | c :: _ => Ascii.eqb c hash
  | [] => false
  end.

(** [tmp[-k]] for [k >= 1]. *)
Definition from_end (k : nat) (tmp : list text) : Py.result text :=
  if (k <=? length tmp)%nat
  then match tmp !! (length tmp - k)%nat with
       | Some x => Py.Ok x
       | None => Py.Raise Py.IndexError
       end
  else Py.Raise Py.IndexError.

(** The counters [es], [gd], [ne], [ga] and [T]. *)
Record counters : Type := Counters {
  es : Z; gd : Z; ne : Z; ga : Z; T : Z
}.

(** *** [HMMSitesFile.getHeader] *)

(** One iteration of [for line in open(path)]. *)
Definition sites_step (acc : counters) (line : text) : Py.result counters :=
  if is_comment line then Py.Ok acc
  else
    let tmp := split tab (strip line) in
    let col := if (length tmp =? 7)%nat then 1%nat else 2%nat in
    x ← from_end col tmp;
    let acc' :=
      if decide (x = lit "ES") then Counters (es acc + 1) (gd acc) (ne acc) (ga acc) (T acc)
      else if decide (x = lit "GD") then Counters (es acc) (gd acc + 1) (ne acc) (ga acc) (T acc)
      else if decide (x = lit "NE") then Counters (es acc) (gd acc) (ne acc + 1) (ga acc) (T acc)
      else if decide (x = lit "GA") then Counters (es acc) (gd acc) (ne acc) (ga acc + 1) (T acc)
      else acc in                                        (* print tmp *)
    Py.Ok (Counters (es acc') (gd acc') (ne acc') (ga acc') (T acc' + 1)).

Fixpoint sites_loop (lines : list text) (acc : counters) : Py.result counters :=
  match lines with
  | [] => Py.Ok acc
  | line :: lines' => acc' ← sites_step acc line; sites_loop lines' acc'
  end.

(** The four percentages the text is made of: [100.0*es/T] and so on, as
    exact quotients. *)
Definition sites_getHeader (lines : list text) : Py.result (Q * Q * Q * Q) :=
  acc ← sites_loop lines (Counters 0 0 0 0 0);
  p_es ← Pins.truediv (100 * es acc) (T acc);
  p_gd ← Pins.truediv (100 * gd acc) (T acc);
  p_ne ← Pins.truediv (100 * ne acc) (T acc);
  p_ga ← Pins.truediv (100 * ga acc) (T acc);
  Py.Ok (p_es, p_gd, p_ne, p_ga).

(** *** [HMMGenesFile.getHeader] *)

Definition genes_step (acc : counters) (line : text) : counters :=
  if is_comment line then acc
  else
    let tmp := split tab (strip line) in
    if (length tmp <? 5)%nat then acc
    else
      let x := default [] (last tmp) in                   (* tmp[-1] *)
      let a1 := if decide (x = lit "ES") then Counters (es acc + 1) (gd acc) (ne acc) (ga acc) (T acc) else acc in
      let a2 := if decide (x = lit "GD") then Counters (es a1) (gd a1 + 1) (ne a1) (ga a1) (T a1) else a1 in
      let a3 := if decide (x = lit "NE") then Counters (es a2) (gd a2) (ne a2 + 1) (ga a2) (T a2) else a2 in
      if decide (x = lit "GA") then Counters (es a3) (gd a3) (ne a3) (ga a3 + 1) (T a3) else a3.

(** The four counts the text is made of. *)
Definition genes_getHeader (lines : list text) : Z * Z * Z * Z :=
  let acc := fold_left genes_step lines (Counters 0 0 0 0 0) in
  (es acc, gd acc, ne acc, ga acc).

(** *** The lines [Run] and [post_process_genes] write *)

(** [label.get(states[t], "Unknown State")] *)
Definition s_lab (state : Z) : text :=
  lit (default "Unknown State" (Genes.num2label !! state)).

(** The genes of a site: empty when the site has the single gene [""],
    else the entries [g_(name)] joined by commas, [name_of g] standing for
    [rv2info.get(g, "-")[0]]. *)
Definition genestr (name_of : text -> text) (genes_at_site : list text) : text :=
  match genes_at_site with
  | [[]] => []
  | _ => join (lit ",")
           (map (fun g => g ++ lit "_(" ++ name_of g ++ lit ")") genes_at_site)
  end.

(** One site of the sites file: the texts of the position, of the count and
    of the posterior probabilities, the state and the genes. *)
Record site : Type := Site {
  site_position : text;
  site_count : text;
  site_gamma : list text;
  site_state : Z;
  site_genes : list text
}.

(** ["%s\t%s\t%s\t%s\t%s\n" % (position, count, "\t".join(gamma), s_lab,
    genestr)] *)
Definition site_line (name_of : text -> text) (r : site) : text :=
  join [tab]
    [site_position r; site_count r; join [tab] (site_gamma r);
     s_lab (site_state r); genestr name_of (site_genes r)]
  ++ [newline].

(** The eleven fields of a line of the genes file, the call last. *)
Definition gene_line (fields : list text) (call : text) : text :=
  join [tab] (fields ++ [call]) ++ [newline].

End Files.

(** ** Written result files: what a line the program wrote looks like *)
Module FilesWf.
Import Files.
(** A text without a tab, and one that starts with a character that is
    neither white space nor [#]. *)
Definition plain (f : text) : Prop := tab ∉ f.

Definition starts_plainly (f : text) : Prop :=
  exists c : Ascii.ascii, head f = Some c /\ is_space c = false /\ c <> hash.

(** The sites [Run] writes: four posterior probabilities, and no tab inside
    a text. *)
Definition wf_site (name_of : text -> text) (r : site) : Prop :=
  starts_plainly (site_position r) /\ plain (site_position r) /\
  plain (site_count r) /\
  length (site_gamma r) = 4%nat /\ Forall plain (site_gamma r) /\
  Forall (fun g => plain g /\ plain (name_of g)) (site_genes r).

(** The genes [post_process_genes] writes: ten texts before the call, no
    tab inside a text, the call one of the five it can be. *)
Definition wf_gene (fields : list text) (call : text) : Prop :=
  length fields = 10%nat /\ Forall plain fields /\
  (exists f : text, head fields = Some f /\ starts_plainly f) /\
  call ∈ map lit ["ES"; "GD"; "NE"; "GA"; "N/A"].

(** The number of sites written with state [s]. *)
Definition sites_with (rows : list site) (s : Z) : Z :=
  Z.of_nat (length (filter (fun r : site => site_state r = s) rows)).

(** The number of genes written with the call [l]. *)
Definition genes_with (rows : list (list text * text)) (l : string) : Z :=
  Z.of_nat (length (filter (fun fc : list text * text => fc.2 = lit l) rows)).

(** [100.0*k/T] *)
Definition percent (k T : Z) : Q := (inject_Z (100 * k) / inject_Z T)%Q.

(** Sample files: two sites, one without genes, and two genes. *)
Definition sample_name_of (g : text) : text := lit "dnaA".

Definition sample_sites : list site :=
  [Site (lit "60") (lit "0") (replicate 4 (lit "2.50e-01 ")) 0 [[]];
   Site (lit "72") (lit "13") (replicate 4 (lit "2.50e-01 ")) 2 [lit "Rv0001"]].

Definition sample_genes : list (list text * text) :=
  [(lit "Rv0001" :: replicate 9 (lit "-"), lit "NE");
   (lit "Rv0002" :: replicate 9 (lit "-"), lit "N/A")].

End FilesWf.

(* ===================================================================== *)
(** * Part II: properties *)
(* ===================================================================== *)

(** ** Results *)
Lemma bind_Ok {X Y : Type} (x : X) (k : X -> Py.result Y) :
  Py.Ok x ≫= k = k x.
Proof. reflexivity. Qed.

(** ** Binary64: comparisons read on the exact values *)
Section Binary64Facts.
Import Binary64.
#[local] Set Warnings "-inexact-float".

Lemma digits2_pos_bounds (m : positive) :
  (2 ^ (Z.pos (digits2_pos m) - 1) <= Z.pos m < 2 ^ Z.pos (digits2_pos m))%Z.
Proof.
  induction m as [m IH|m IH|]; cbn [digits2_pos]; [| |by vm_compute].
  all: rewrite Pos2Z.inj_succ.
  all: replace (Z.succ (Z.pos (digits2_pos m)) - 1)%Z
         with (Z.succ (Z.pos (digits2_pos m) - 1))%Z by lia.
  all: rewrite !Z.pow_succ_r by lia; lia.
Qed.

(** A valid mantissa and exponent: at most 53 digits, the exponent at least
    -1074, and 53 digits exactly unless the exponent is -1074. *)
Lemma bounded_inv (m : positive) (e : Z) :
  bounded prec emax m e = true ->
  (-1074 <= e)%Z /\ (Z.pos m < 2 ^ 53)%Z /\
  ((2 ^ 52 <= Z.pos m)%Z \/ e = (-1074)%Z).
Proof.
  unfold bounded, canonical_mantissa, fexp, emin, prec, emax.
  intros [Hc _]%andb_true_iff. apply Z.eqb_eq in Hc.
  pose proof (digits2_pos_bounds m) as [Hlo Hhi].
  set (d := Z.pos (digits2_pos m)) in *.
  assert (Hd : (d <= 53)%Z) by lia.
  split; [lia|]. split.
  - eapply Z.lt_le_trans; [exact Hhi|]. apply Z.pow_le_mono_r; lia.
  - destruct (decide (d = 53%Z)) as [E|E]; [left | right; lia].
    rewrite E in Hlo. exact Hlo.
Qed.

(** The order of two valid positive floats is the order of their values. *)
Lemma compare_finite (m1 m2 : positive) (e1 e2 : Z) :
  bounded prec emax m1 e1 = true -> bounded prec emax m2 e2 = true ->
  match (e1 ?= e2)%Z with
  | Lt => Lt
  | Gt => Gt
  | Eq => Pos.compare_cont Eq m1 m2
  end
  = (Z.pos m1 * 2 ^ (e1 + 1074) ?= Z.pos m2 * 2 ^ (e2 + 1074))%Z.
Proof.
  intros (He1 & Hm1 & Hn1)%bounded_inv (He2 & Hm2 & Hn2)%bounded_inv.
  symmetry. destruct (Z.compare_spec e1 e2) as [-> | Hlt | Hgt].
  - change (Pos.compare_cont Eq m1 m2) with (Z.pos m1 ?= Z.pos m2)%Z.
    pose proof (Z.pow_pos_nonneg 2 (e2 + 1074) ltac:(lia) ltac:(lia)).
    destruct (Z.compare_spec (Z.pos m1) (Z.pos m2)) as [E|E|E].
    + apply Z.compare_eq_iff. by rewrite E.
    + apply Z.compare_lt_iff. nia.
    + apply Z.compare_gt_iff. nia.
  - apply Z.compare_lt_iff.
    destruct Hn2 as [Hn2 | ->]; [|lia].
    replace (e2 + 1074)%Z with (Z.succ (e2 - e1 - 1) + (e1 + 1074))%Z by lia.
    rewrite (Z.pow_add_r 2 (Z.succ (e2 - e1 - 1)) (e1 + 1074)) by lia.
    rewrite (Z.pow_succ_r 2 (e2 - e1 - 1)) by lia.
    pose proof (Z.pow_pos_nonneg 2 (e1 + 1074) ltac:(lia) ltac:(lia)).
    pose proof (Z.pow_pos_nonneg 2 (e2 - e1 - 1) ltac:(lia) ltac:(lia)).
    change (2 ^ 53)%Z with 9007199254740992%Z in *.
    change (2 ^ 52)%Z with 4503599627370496%Z in *.
    set (P := (2 ^ (e1 + 1074))%Z) in *. set (P' := (2 ^ (e2 - e1 - 1))%Z) in *.
    apply Z.lt_le_trans with (9007199254740992 * P)%Z;
      [apply Z.mul_lt_mono_pos_r; lia|].
    replace (Z.pos m2 * (2 * P' * P))%Z with (Z.pos m2 * 2 * P' * P)%Z by ring.
    apply Z.mul_le_mono_nonneg_r; [lia | nia].
  - apply Z.compare_gt_iff.
    destruct Hn1 as [Hn1 | ->]; [|lia].
    replace (e1 + 1074)%Z with (Z.succ (e1 - e2 - 1) + (e2 + 1074))%Z by lia.
    rewrite (Z.pow_add_r 2 (Z.succ (e1 - e2 - 1)) (e2 + 1074)) by lia.
    rewrite (Z.pow_succ_r 2 (e1 - e2 - 1)) by lia.
    pose proof (Z.pow_pos_nonneg 2 (e2 + 1074) ltac:(lia) ltac:(lia)).
    pose proof (Z.pow_pos_nonneg 2 (e1 - e2 - 1) ltac:(lia) ltac:(lia)).
    change (2 ^ 53)%Z with 9007199254740992%Z in *.
    change (2 ^ 52)%Z with 4503599627370496%Z in *.
    set (P := (2 ^ (e2 + 1074))%Z) in *. set (P' := (2 ^ (e1 - e2 - 1))%Z) in *.
    apply Z.lt_le_trans with (9007199254740992 * P)%Z;
      [apply Z.mul_lt_mono_pos_r; lia|].
    replace (Z.pos m1 * (2 * P' * P))%Z with (Z.pos m1 * 2 * P' * P)%Z by ring.
    apply Z.mul_le_mono_nonneg_r; [lia | nia].
Qed.

Lemma compare_units (x y : float) (u v : Z) :
  units x = Some u -> units y = Some v ->
  SFcompare (Prim2SF x) (Prim2SF y) = Some (u ?= v)%Z.
Proof.
  unfold units, sf_units.
  pose proof (Prim2SF_valid x) as Hx. pose proof (Prim2SF_valid y) as Hy.
  destruct (Prim2SF x) as [sx|sx| |sx mx ex], (Prim2SF y) as [sy|sy| |sy my ey];
    try discriminate; intros [= <-] [= <-]; cbn [SFcompare valid_binary] in *.
  - done.
  - assert (0 < Z.pos my * 2 ^ (ey + 1074))%Z.
    { apply bounded_inv in Hy as (? & _). apply Z.mul_pos_pos; [lia|].
      apply Z.pow_pos_nonneg; lia. }
    f_equal. symmetry. destruct sy; cbn [cond_Zopp].
    + apply Z.compare_gt_iff. lia.
    + apply Z.compare_lt_iff. lia.
  - assert (0 < Z.pos mx * 2 ^ (ex + 1074))%Z.
    { apply bounded_inv in Hx as (? & _). apply Z.mul_pos_pos; [lia|].
      apply Z.pow_pos_nonneg; lia. }
    f_equal. symmetry. destruct sx; cbn [cond_Zopp].
    + apply Z.compare_lt_iff. lia.
    + apply Z.compare_gt_iff. lia.
  - assert (0 < Z.pos mx * 2 ^ (ex + 1074))%Z.
    { apply bounded_inv in Hx as (? & _). apply Z.mul_pos_pos; [lia|].
      apply Z.pow_pos_nonneg; lia. }
    assert (0 < Z.pos my * 2 ^ (ey + 1074))%Z.
    { apply bounded_inv in Hy as (? & _). apply Z.mul_pos_pos; [lia|].
      apply Z.pow_pos_nonneg; lia. }
    f_equal. destruct sx, sy; cbn [cond_Zopp].
    + rewrite Z.compare_opp, <- (compare_finite my mx ey ex) by done.
      rewrite (Z.compare_antisym ex ey), (Pos.compare_cont_antisym mx my Eq).
      by destruct (ex ?= ey)%Z.
    + symmetry. apply Z.compare_lt_iff. lia.
    + symmetry. apply Z.compare_gt_iff. lia.
    + by apply compare_finite.
Qed.

Lemma ltb_units (x y : float) (u v : Z) :
  units x = Some u -> units y = Some v -> (x <? y)%float = (u <? v)%Z.
Proof.
  intros Hx Hy. rewrite ltb_spec. unfold SFltb, Z.ltb.
  by rewrite (compare_units x y u v Hx Hy).
Qed.

Lemma leb_units (x y : float) (u v : Z) :
  units x = Some u -> units y = Some v -> (x <=? y)%float = (u <=? v)%Z.
Proof.
  intros Hx Hy. rewrite leb_spec. unfold SFleb, Z.leb.
  rewrite (compare_units x y u v Hx Hy). by destruct (u ?= v)%Z.
Qed.

Lemma shr_1_nonneg (mrs : shr_record) :
  (0 <= shr_m mrs)%Z -> (0 <= shr_m (shr_1 mrs))%Z.
Proof. destruct mrs as [[|[p|p|]|p] r s]; cbn; lia. Qed.

Lemma iter_shr_1_nonneg (p : positive) :
  forall mrs : shr_record,
    (0 <= shr_m mrs)%Z -> (0 <= shr_m (SpecFloat.iter_pos shr_1 p mrs))%Z.
Proof.
  induction p as [p IH|p IH|]; intros mrs H; cbn [SpecFloat.iter_pos].
  - by apply IH, IH, shr_1_nonneg.
  - by apply IH, IH.
  - by apply shr_1_nonneg.
Qed.

Lemma shr_fexp_nonneg (m e : Z) (l : location) :
  (0 <= m)%Z -> (0 <= shr_m (fst (shr_fexp prec emax m e l)))%Z.
Proof.
  intros H. unfold shr_fexp, shr.
  assert (H0 : (0 <= shr_m (shr_record_of_loc m l))%Z)
    by (by destruct l as [|[| |]]).
  destruct (_ - e)%Z; cbn [fst]; [done | by apply iter_shr_1_nonneg | done].
Qed.

Lemma round_nearest_even_nonneg (m : Z) (l : location) :
  (0 <= m)%Z -> (0 <= round_nearest_even m l)%Z.
Proof.
  intros H. destruct l as [|[| |]]; cbn; [done | | done | lia].
  destruct (Z.even m); lia.
Qed.

(** Rounding a non-negative mantissa never gives a NaN. *)
Lemma binary_round_aux_not_nan (s : bool) (m e : Z) (l : location) :
  (0 <= m)%Z -> binary_round_aux prec emax s m e l <> S754_nan.
Proof.
  intros H. unfold binary_round_aux.
  pose proof (shr_fexp_nonneg m e l H) as H1.
  destruct (shr_fexp prec emax m e l) as [mrs' e']. cbn [fst] in H1.
  pose proof (shr_fexp_nonneg _ e' loc_Exact
                (round_nearest_even_nonneg _ (loc_of_shr_record mrs') H1)) as H2.
  destruct (shr_fexp prec emax _ e' loc_Exact) as [mrs'' e'']. cbn [fst] in H2.
  destruct (shr_m mrs'') as [|p|p]; [done | by destruct (_ <=? _)%Z | lia].
Qed.

Lemma is_nan_spec (x : float) :
  PrimFloat.is_nan x = true <-> Prim2SF x = S754_nan.
Proof.
  unfold PrimFloat.is_nan. rewrite FloatAxioms.eqb_spec. unfold SFeqb.
  destruct (Prim2SF x) as [s|s| |s m e]; cbn [SFcompare]; try destruct s; cbn.
  all: rewrite ?Z.compare_refl, ?Pos.compare_cont_refl; cbn; split; done.
Qed.

Lemma is_finite_spec (x : float) :
  PrimFloat.is_finite x = true ->
  (exists s : bool, Prim2SF x = S754_zero s) \/
  (exists (s : bool) (m : positive) (e : Z), Prim2SF x = S754_finite s m e).
Proof.
  unfold PrimFloat.is_finite. rewrite negb_true_iff, orb_false_iff.
  intros [Hnan Hinf].
  destruct (Prim2SF x) as [s|s| |s m e] eqn:E; [left; by exists s | | | right; by eexists _, _, _].
  - unfold PrimFloat.is_infinity in Hinf.
    rewrite FloatAxioms.eqb_spec, abs_spec, E in Hinf. by destruct s.
  - apply is_nan_spec in E. congruence.
Qed.

(** The product of two finite floats may overflow, but is no NaN. *)
Lemma mul_finite_not_nan (x y : float) :
  PrimFloat.is_finite x = true -> PrimFloat.is_finite y = true ->
  PrimFloat.is_nan (x * y) = false.
Proof.
  intros Hx Hy. apply not_true_iff_false. rewrite is_nan_spec, mul_spec.
  destruct (is_finite_spec x Hx) as [[sx ->]|(sx & mx & ex & ->)],
           (is_finite_spec y Hy) as [[sy ->]|(sy & my & ey & ->)]; try done.
  by apply binary_round_aux_not_nan.
Qed.

(** *** Rounding: the difference [1.0 - x] *)

Lemma shr_1_half (mrs : shr_record) :
  (0 <= shr_m mrs)%Z -> shr_m (shr_1 mrs) = (shr_m mrs / 2)%Z.
Proof.
  destruct mrs as [[|[p|p|]|p] r s]; cbn [shr_m shr_1]; intros H; try done.
  - apply (Z.div_unique _ _ _ 1); lia.
  - apply (Z.div_unique _ _ _ 0); lia.
Qed.

Lemma iter_shr_1_div (p : positive) :
  forall mrs : shr_record,
    (0 <= shr_m mrs)%Z ->
    shr_m (SpecFloat.iter_pos shr_1 p mrs) = (shr_m mrs / 2 ^ Z.pos p)%Z.
Proof.
  induction p as [p IH|p IH|]; intros mrs H; cbn [SpecFloat.iter_pos].
  - pose proof (shr_1_nonneg mrs H) as H1.
    pose proof (iter_shr_1_nonneg p _ H1) as H2.
    rewrite (IH _ H2), (IH _ H1), (shr_1_half _ H).
    assert (0 < 2 ^ Z.pos p)%Z by (apply Z.pow_pos_nonneg; lia).
    assert (E : (2 ^ Z.pos p~1 = 2 * (2 ^ Z.pos p * 2 ^ Z.pos p))%Z).
    { rewrite (Pos2Z.inj_xI p).
      replace (2 * Z.pos p + 1)%Z with (1 + Z.pos p + Z.pos p)%Z by lia.
      rewrite !Z.pow_add_r by lia. lia. }
    rewrite E, !Z.div_div by lia. done.
  - pose proof (iter_shr_1_nonneg p _ H) as H2.
    rewrite (IH _ H2), (IH _ H).
    assert (0 < 2 ^ Z.pos p)%Z by (apply Z.pow_pos_nonneg; lia).
    assert (E : (2 ^ Z.pos p~0 = 2 ^ Z.pos p * 2 ^ Z.pos p)%Z).
    { rewrite (Pos2Z.inj_xO p).
      replace (2 * Z.pos p)%Z with (Z.pos p + Z.pos p)%Z by lia.
      by rewrite !Z.pow_add_r by lia. }
    rewrite E, !Z.div_div by lia. done.
  - by rewrite shr_1_half.
Qed.

Lemma round_nearest_even_bounds (m : Z) (l : location) :
  (m <= round_nearest_even m l <= m + 1)%Z.
Proof.
  destruct l as [|[| |]]; cbn; [lia | | lia | lia].
  destruct (Z.even m); lia.
Qed.


Lemma Zdigits2_le (M K : Z) :
  (0 <= M < 2 ^ K)%Z -> (0 <= K)%Z -> (Zdigits2 M <= K)%Z.
Proof.
  intros [H0 HK] HK0. destruct M as [|p|p]; cbn [Zdigits2]; [done | | lia].
  pose proof (digits2_pos_bounds p) as [Hlo _].
  assert (Hlt : (2 ^ (Z.pos (digits2_pos p) - 1) < 2 ^ K)%Z) by lia.
  apply Z.pow_lt_mono_r_iff in Hlt; lia.
Qed.

Lemma shr_spec (mrs : shr_record) (e n : Z) :
  (0 <= shr_m mrs)%Z ->
  shr_m (fst (shr mrs e n)) = (shr_m mrs / 2 ^ Z.max 0 n)%Z /\
  snd (shr mrs e n) = (e + Z.max 0 n)%Z.
Proof.
  intros H. destruct n as [|p|p]; cbn [shr fst snd].
  - cbn. rewrite Z.div_1_r. lia.
  - rewrite iter_shr_1_div by done. replace (Z.max 0 (Z.pos p)) with (Z.pos p) by lia.
    done.
  - cbn. rewrite Z.div_1_r. lia.
Qed.

(** Rounding a mantissa below [2^100] at an exponent between -1074 and 0
    gives a finite float, no larger than the mantissa when no digit is
    dropped, and no larger than the truncated mantissa plus one when [n]
    digits are. *)
Lemma binary_round_aux_upper (mz : positive) (ez K : Z) :
  (Z.pos mz + 1 < 2 ^ K)%Z -> (K <= 100)%Z -> (-1074 <= ez <= 0)%Z ->
  let n := Z.max 0 (fexp prec emax (Z.pos (digits2_pos mz) + ez) - ez) in
  exists v : Z,
    sf_units (binary_round_aux prec emax false (Z.pos mz) ez loc_Exact) = Some v /\
    (0 <= v)%Z /\
    (v <= (if decide (n = 0%Z) then Z.pos mz else Z.pos mz / 2 ^ n + 1)
          * 2 ^ (ez + n + 1074))%Z.
Proof.
  intros HK HK100 Hez n.
  assert (HK0 : (0 <= K)%Z).
  { destruct (decide (0 <= K)%Z); [done|]. rewrite Z.pow_neg_r in HK by lia. lia. }
  assert (Hd : (Z.pos (digits2_pos mz) <= K)%Z).
  { apply (Zdigits2_le (Z.pos mz) K); lia. }
  assert (Hn : (0 <= n <= 47)%Z).
  { unfold n, fexp, emin, prec, emax. lia. }
  unfold binary_round_aux, shr_fexp. cbn [Zdigits2].
  set (rec0 := shr_record_of_loc (Z.pos mz) loc_Exact).
  destruct (shr_spec rec0 ez (fexp prec emax (Z.pos (digits2_pos mz) + ez) - ez))
    as [Hm1 He1]; [done|]. fold n in Hm1, He1.
  destruct (shr rec0 ez _) as [mrs' e'] eqn:Hshr. cbn [fst snd] in Hm1, He1.
  set (M1 := round_nearest_even (shr_m mrs') (loc_of_shr_record mrs')).
  set (B := if decide (n = 0%Z) then Z.pos mz else (Z.pos mz / 2 ^ n + 1)%Z).
  assert (Hq : (0 <= Z.pos mz / 2 ^ n <= Z.pos mz)%Z).
  { split; [apply Z.div_pos; [lia | apply Z.pow_pos_nonneg; lia]|].
    apply Z.div_le_upper_bound; [apply Z.pow_pos_nonneg; lia|].
    pose proof (Z.pow_pos_nonneg 2 n ltac:(lia) ltac:(lia)). nia. }
  assert (HM1 : (0 <= M1 <= B)%Z /\ (M1 <= Z.pos mz + 1)%Z).
  { unfold M1, B. destruct (decide (n = 0%Z)) as [En|En].
    - assert (mrs' = rec0) as ->.
      { unfold shr in Hshr. unfold n in En.
        destruct (fexp prec emax (Z.pos (digits2_pos mz) + ez) - ez)%Z;
          [by injection Hshr | lia | by injection Hshr]. }
      cbn. lia.
    - pose proof (round_nearest_even_bounds (shr_m mrs') (loc_of_shr_record mrs')).
      cbn [shr_m rec0 shr_record_of_loc] in Hm1. lia. }
  destruct HM1 as [[HM0 HMB] HMK].
  assert (Hd1 : (Zdigits2 M1 <= K)%Z) by (apply Zdigits2_le; lia).
  set (rec1 := shr_record_of_loc M1 loc_Exact).
  destruct (shr_spec rec1 e' (fexp prec emax (Zdigits2 M1 + e') - e'))
    as [Hm2 He2]; [done|].
  set (n2 := Z.max 0 (fexp prec emax (Zdigits2 M1 + e') - e')) in *.
  assert (Hn2 : (0 <= n2 <= 47)%Z).
  { unfold n2, fexp, emin, prec, emax. lia. }
  destruct (shr rec1 e' _) as [mrs'' e'']. cbn [fst snd] in Hm2, He2.
  cbn [shr_m rec1 shr_record_of_loc] in Hm2.
  pose proof (Z.pow_pos_nonneg 2 n2 ltac:(lia) ltac:(lia)) as Hp2.
  assert (Hfloor : (shr_m mrs'' * 2 ^ n2 <= M1)%Z).
  { rewrite Hm2, Z.mul_comm. apply Z.mul_div_le. lia. }
  assert (Hm2' : (0 <= shr_m mrs'')%Z).
  { rewrite Hm2. apply Z.div_pos; lia. }
  pose proof (Z.pow_pos_nonneg 2 (ez + n + 1074) ltac:(lia) ltac:(lia)) as Hp1.
  destruct (shr_m mrs'') as [|m|m] eqn:Em; [| |lia].
  - exists 0%Z. split; [done|]. split; [done|]. fold B. nia.
  - assert ((e'' <=? emax - prec)%Z = true) as ->.
    { apply Z.leb_le. unfold emax, prec. lia. }
    exists (Z.pos m * 2 ^ (e'' + 1074))%Z. split; [done|].
    split; [lia|]. fold B.
    rewrite He2, He1.
    replace (ez + n + n2 + 1074)%Z with (n2 + (ez + n + 1074))%Z by lia.
    rewrite Z.pow_add_r by lia. nia.
Qed.


Lemma iter_xO_value (m d : positive) :
  Z.pos (Pos.iter xO m d) = (Z.pos m * 2 ^ Z.pos d)%Z /\
  Z.pos (digits2_pos (Pos.iter xO m d)) = (Z.pos (digits2_pos m) + Z.pos d)%Z.
Proof.
  induction d as [|d IH] using Pos.peano_ind.
  - cbn [Pos.iter digits2_pos]. rewrite Pos2Z.inj_succ. lia.
  - rewrite Pos.iter_succ. cbn [digits2_pos].
    rewrite (Pos2Z.inj_xO (Pos.iter xO m d)), !Pos2Z.inj_succ.
    destruct IH as [-> ->]. rewrite Z.pow_succ_r by lia. lia.
Qed.

(** [binary_round] first aligns the mantissa to the exponent of the result,
    then rounds. *)
Lemma binary_round_upper (d : positive) (e K : Z) :
  (Z.pos d + 1 < 2 ^ K)%Z -> (K <= 100)%Z -> (-1074 <= e <= 0)%Z ->
  let n := Z.max 0 (fexp prec emax (Z.pos (digits2_pos d) + e) - e) in
  exists v : Z,
    sf_units (binary_round prec emax false d e) = Some v /\
    (0 <= v)%Z /\
    (v <= (if decide (n = 0%Z) then Z.pos d else Z.pos d / 2 ^ n + 1)
          * 2 ^ (e + n + 1074))%Z.
Proof.
  intros HK HK100 He n. unfold binary_round, shl_align.
  pose proof (binary_round_aux_upper d e K HK HK100 He) as Haux. cbv zeta in Haux.
  set (f := fexp prec emax (Z.pos (digits2_pos d) + e)) in *.
  assert (Hf : (-1074 <= f)%Z) by (unfold f, fexp, emin, prec, emax; lia).
  assert (Hn : n = Z.max 0 (f - e)) by reflexivity.
  rewrite <- Hn in Haux. clearbody n.
  destruct (f - e)%Z as [|k|k] eqn:Ek.
  - exact Haux.
  - exact Haux.
  - destruct (iter_xO_value d k) as [Hval Hdig].
    assert (Hd53 : (Z.pos (digits2_pos d) + Z.pos k <= 53)%Z).
    { unfold f, fexp, emin, prec, emax in *. lia. }
    assert (Hmz : (Z.pos (Pos.iter xO d k) < 2 ^ 53)%Z).
    { pose proof (digits2_pos_bounds (Pos.iter xO d k)) as [_ Hhi].
      eapply Z.lt_le_trans; [exact Hhi|]. apply Z.pow_le_mono_r; lia. }
    destruct (binary_round_aux_upper (Pos.iter xO d k) f 54)
      as (v & Hv & Hv0 & Hvb); [change (2 ^ 54)%Z with (2 * 2 ^ 53)%Z; lia | lia | lia |].
    exists v. split; [exact Hv|]. split; [exact Hv0|].
    assert (En : n = 0%Z) by lia.
    assert (En' : Z.max 0 (fexp prec emax (Z.pos (digits2_pos (Pos.iter xO d k)) + f) - f)
                  = 0%Z).
    { rewrite Hdig. replace (Z.pos (digits2_pos d) + Z.pos k + f)%Z
        with (Z.pos (digits2_pos d) + e)%Z by lia.
      fold f. lia. }
    rewrite En' in Hvb. rewrite En.
    destruct (decide (0 = 0)%Z); [|done].
    rewrite Hval in Hvb.
    replace (e + 0 + 1074)%Z with (Z.pos k + (f + 0 + 1074))%Z by lia.
    rewrite Z.pow_add_r by lia. lia.
Qed.


Lemma digits2_pos_eq (d : positive) (k : Z) :
  (2 ^ (k - 1) <= Z.pos d < 2 ^ k)%Z -> (1 <= k)%Z -> Z.pos (digits2_pos d) = k.
Proof.
  intros [Hlo Hhi] Hk. pose proof (digits2_pos_bounds d) as [Hlo' Hhi'].
  assert (H1 : (2 ^ (Z.pos (digits2_pos d) - 1) < 2 ^ k)%Z) by lia.
  assert (H2 : (2 ^ (k - 1) < 2 ^ Z.pos (digits2_pos d))%Z) by lia.
  apply Z.pow_lt_mono_r_iff in H1; [|lia..].
  apply Z.pow_lt_mono_r_iff in H2; [|lia..]. lia.
Qed.

Lemma SFsub_one (m : positive) (e : Z) :
  (-100 <= e <= -52)%Z ->
  SFsub prec emax (S754_finite false 4503599627370496 (-52)) (S754_finite false m e)
  = binary_normalize prec emax (2 ^ (- e) - Z.pos m) e false.
Proof.
  intros He. unfold SFsub. cbv zeta. rewrite Z.min_r by lia. cbn [cond_Zopp].
  assert (shl_align m e e = (m, e)) as -> by (unfold shl_align; by rewrite Z.sub_diag).
  cbn [fst]. f_equal. f_equal.
  unfold shl_align. destruct (e - -52)%Z as [|k|k] eqn:Ek; [|lia|]; cbn [fst].
  - replace e with (-52)%Z by lia. reflexivity.
  - destruct (iter_xO_value 4503599627370496 k) as [-> _].
    change (Z.pos 4503599627370496) with (2 ^ 52)%Z.
    rewrite <- Z.pow_add_r by lia. f_equal. lia.
Qed.

(** [1.0 - x] for a float [x] between 0.1 and 1: the difference is between
    0 and 0.9, the float nearest to 9/10. *)
Lemma sub_from_one_units (m : positive) (e : Z) :
  bounded prec emax m e = true ->
  (7205759403792794 * 2 ^ 1018 <= Z.pos m * 2 ^ (e + 1074) <= 2 ^ 1074)%Z ->
  exists v : Z,
    sf_units (SFsub prec emax (S754_finite false 4503599627370496 (-52))
                (S754_finite false m e)) = Some v /\
    (0 <= v <= 8106479329266893 * 2 ^ 1021)%Z.
Proof.
  intros (He & Hm & Hn)%bounded_inv [Hlo Hhi].
  change (2 ^ 53)%Z with 9007199254740992%Z in Hm.
  change (2 ^ 52)%Z with 4503599627370496%Z in Hn.
  assert (HP : (0 < 2 ^ 1018)%Z) by (by apply Z.pow_pos_nonneg).
  assert (He56 : (-56 <= e)%Z).
  { destruct (decide (-56 <= e)%Z) as [|Hlt]; [done|]. exfalso.
    assert (Hpow : (2 ^ (e + 1074) <= 2 ^ 1017)%Z) by (apply Z.pow_le_mono_r; lia).
    pose proof (Z.pow_pos_nonneg 2 (e + 1074) ltac:(lia) ltac:(lia)).
    change (2 ^ 1018)%Z with (2 * 2 ^ 1017)%Z in Hlo, HP. nia. }
  assert (He52 : (e <= -52)%Z).
  { destruct (decide (e <= -52)%Z) as [|Hgt]; [done|]. exfalso.
    destruct Hn as [Hn|Hn]; [|lia].
    assert (Hpow : (2 ^ 1023 <= 2 ^ (e + 1074))%Z) by (apply Z.pow_le_mono_r; lia).
    change (2 ^ 1074)%Z with (2 ^ 51 * 2 ^ 1023)%Z in Hhi.
    pose proof (Z.pow_pos_nonneg 2 1023 ltac:(lia) ltac:(lia)).
    change (2 ^ 51)%Z with 2251799813685248%Z in Hhi. nia. }
  destruct Hn as [Hn|Hn]; [|lia].
  replace (e + 1074)%Z with ((e + 56) + 1018)%Z in Hlo, Hhi by lia.
  rewrite Z.pow_add_r in Hlo, Hhi by lia.
  change (2 ^ 1074)%Z with (2 ^ 56 * 2 ^ 1018)%Z in Hhi.
  rewrite Z.mul_assoc in Hlo, Hhi.
  apply Z.mul_le_mono_pos_r in Hlo; [|done].
  apply Z.mul_le_mono_pos_r in Hhi; [|done].
  change (2 ^ 56)%Z with 72057594037927936%Z in Hhi.
  rewrite SFsub_one by lia.
  assert (Hfin : forall d : positive,
            (Z.pos d <= 72057594037927936)%Z ->
            forall B : Z,
            (let n := Z.max 0 (fexp prec emax (Z.pos (digits2_pos d) + e) - e) in
             (0 <= e + n + 53)%Z /\
             ((if decide (n = 0%Z) then Z.pos d else Z.pos d / 2 ^ n + 1)
              * 2 ^ (e + n + 53) <= 8106479329266893)%Z) ->
            exists v : Z,
              sf_units (binary_round prec emax false d e) = Some v /\
              (0 <= v <= 8106479329266893 * 2 ^ 1021)%Z).
  { intros d Hd _ [Hn53 Hb].
    destruct (binary_round_upper d e 57) as (v & Hv & Hv0 & Hvb);
      [change (2 ^ 57)%Z with 144115188075855872%Z; lia | lia | lia |].
    exists v. split; [exact Hv|]. split; [exact Hv0|].
    eapply Z.le_trans; [exact Hvb|].
    set (n := Z.max 0 _) in *.
    replace (e + n + 1074)%Z with ((e + n + 53) + 1021)%Z by lia.
    rewrite Z.pow_add_r, Z.mul_assoc by lia.
    apply Z.mul_le_mono_nonneg_r; [by apply Z.pow_nonneg | exact Hb]. }
  destruct (2 ^ (- e) - Z.pos m)%Z as [|d|d] eqn:ED; cbn [binary_normalize].
  - exists 0%Z. split; [done|]. split; [done|]. by apply Z.mul_nonneg_nonneg; [|apply Z.pow_nonneg].
  - apply (Hfin d); [|exact 0%Z|].
    + assert (2 ^ (- e) <= 2 ^ 56)%Z by (apply Z.pow_le_mono_r; lia).
      change (2 ^ 56)%Z with 72057594037927936%Z in *. lia.
    + assert (Hcases : e = (-56)%Z \/ e = (-55)%Z \/ e = (-54)%Z \/ e = (-53)%Z
                       \/ e = (-52)%Z) by lia.
      unfold fexp, emin, prec, emax.
      destruct Hcases as [->|[->|[->|[->| ->]]]].
      * change (2 ^ (- -56))%Z with 72057594037927936%Z in ED.
        change (2 ^ (-56 + 56))%Z with 1%Z in Hlo, Hhi.
        rewrite (digits2_pos_eq d 56)
          by (change (2 ^ (56 - 1))%Z with 36028797018963968%Z;
              change (2 ^ 56)%Z with 72057594037927936%Z; lia).
        replace (Z.max 0 (Z.max (56 + -56 - 53) (3 - 1024 - 53) - -56)) with 3%Z by lia.
        change (2 ^ (-56 + 3 + 53))%Z with 1%Z. change (2 ^ 3)%Z with 8%Z.
        split; [lia|]. destruct (decide (3 = 0)%Z); [lia|]. rewrite Z.mul_1_r.
        assert (Z.pos d / 8 <= 64851834634135142 / 8)%Z as H8
          by (apply Z.div_le_mono; lia).
        change (64851834634135142 / 8)%Z with 8106479329266892%Z in H8. lia.
      * change (2 ^ (- -55))%Z with 36028797018963968%Z in ED.
        change (2 ^ (-55 + 56))%Z with 2%Z in Hlo, Hhi.
        rewrite (digits2_pos_eq d 55)
          by (change (2 ^ (55 - 1))%Z with 18014398509481984%Z;
              change (2 ^ 55)%Z with 36028797018963968%Z; lia).
        replace (Z.max 0 (Z.max (55 + -55 - 53) (3 - 1024 - 53) - -55)) with 2%Z by lia.
        change (2 ^ (-55 + 2 + 53))%Z with 1%Z. change (2 ^ 2)%Z with 4%Z.
        split; [lia|]. destruct (decide (2 = 0)%Z); [lia|]. rewrite Z.mul_1_r.
        assert (Z.pos d / 4 <= 31525197391593472 / 4)%Z as H4
          by (apply Z.div_le_mono; lia).
        change (31525197391593472 / 4)%Z with 7881299347898368%Z in H4. lia.
      * change (2 ^ (- -54))%Z with 18014398509481984%Z in ED.
        change (2 ^ (-54 + 56))%Z with 4%Z in Hlo, Hhi.
        rewrite (digits2_pos_eq d 54)
          by (change (2 ^ (54 - 1))%Z with 9007199254740992%Z;
              change (2 ^ 54)%Z with 18014398509481984%Z; lia).
        replace (Z.max 0 (Z.max (54 + -54 - 53) (3 - 1024 - 53) - -54)) with 1%Z by lia.
        change (2 ^ (-54 + 1 + 53))%Z with 1%Z. change (2 ^ 1)%Z with 2%Z.
        split; [lia|]. destruct (decide (1 = 0)%Z); [lia|]. rewrite Z.mul_1_r.
        assert (Z.pos d / 2 <= 13510798882111488 / 2)%Z as H2
          by (apply Z.div_le_mono; lia).
        change (13510798882111488 / 2)%Z with 6755399441055744%Z in H2. lia.
      * change (2 ^ (- -53))%Z with 9007199254740992%Z in ED.
        pose proof (Zdigits2_le (Z.pos d) 53
                      ltac:(change (2 ^ 53)%Z with 9007199254740992%Z; lia)
                      ltac:(lia)) as Hd.
        cbn [Zdigits2] in Hd.
        replace (Z.max 0 (Z.max (Z.pos (digits2_pos d) + -53 - 53) (3 - 1024 - 53) - -53))
          with 0%Z by lia.
        change (2 ^ (-53 + 0 + 53))%Z with 1%Z.
        split; [lia|]. destruct (decide (0 = 0)%Z); [|done]. lia.
      * change (2 ^ (- -52))%Z with 4503599627370496%Z in ED.
        change (2 ^ (-52 + 56))%Z with 16%Z in Hlo, Hhi. exfalso. lia.
  - exfalso.
    assert (Hme : (Z.pos m * 2 ^ (e + 56) <= 2 ^ (- e) * 2 ^ (e + 56))%Z).
    { rewrite <- Z.pow_add_r by lia. by replace (- e + (e + 56))%Z with 56%Z by lia. }
    apply Z.mul_le_mono_pos_r in Hme; [lia | apply Z.pow_pos_nonneg; lia].
Qed.


(** In binary64, a density between 0.1 and 1 has a complement [1.0 - pins]
    between 0 and 0.9. *)
Lemma sub_from_one (pins : float) :
  (0.1 <=? pins)%float = true -> (pins <=? 1)%float = true ->
  (0 <=? 1 - pins)%float = true /\ (1 - pins <=? 0.9)%float = true.
Proof.
  intros Hlo Hhi.
  pose proof (Prim2SF_valid pins) as Hvalid.
  assert (Hsub : Prim2SF (1 - pins) = SFsub prec emax (Prim2SF 1) (Prim2SF pins))
    by apply sub_spec.
  rewrite leb_spec in Hlo, Hhi.
  destruct (Prim2SF pins) as [s|s| |s m e] eqn:E.
  - by vm_compute in Hlo.
  - destruct s; [by vm_compute in Hlo | by vm_compute in Hhi].
  - by vm_compute in Hlo.
  - destruct s; [by vm_compute in Hlo|].
    assert (Hu : units pins = Some (Z.pos m * 2 ^ (e + 1074))%Z)
      by (unfold units; by rewrite E).
    rewrite <- E, <- leb_spec in Hlo, Hhi.
    rewrite (leb_units 0.1%float pins _ _ eq_refl Hu) in Hlo.
    rewrite (leb_units pins 1%float _ _ Hu eq_refl) in Hhi.
    apply Z.leb_le in Hlo, Hhi.
    destruct (sub_from_one_units m e Hvalid) as (v & Hv & Hv0 & Hv9); [done|].
    assert (Hd : units (1 - pins) = Some v).
    { unfold units. rewrite Hsub. exact Hv. }
    rewrite (leb_units 0%float (1 - pins) _ _ eq_refl Hd).
    rewrite (leb_units (1 - pins) 0.9%float _ _ Hd eq_refl).
    split; apply Z.leb_le; [exact Hv0 | exact Hv9].
Qed.

End Binary64Facts.

(** ** calculate_pins *)
Section PinsFacts.
Import Pins.

Lemma loop_app (xs ys : list Z) (st : loop_state) :
  loop (xs ++ ys) st = loop ys (loop xs st).
Proof. unfold loop. apply fold_left_app. Qed.

(** A run of counts below 1 only grows [temp]. *)
Lemma loop_zero_run (zs : list Z) (st : loop_state) :
  Forall (fun rd => (rd < 1)%Z) zs ->
  loop zs st = LoopState (non_ess_reads st) (temp st ++ zs).
Proof.
  intros Hz. revert st.
  induction Hz as [|z zs Hz _ IH]; intros [acc tmp]; cbn.
  - by rewrite app_nil_r.
  - unfold body at 2. cbn.
    destruct (Z.leb_spec 1 z) as [Hge|_]; [lia|].
    change (fold_left body zs ?s) with (loop zs s).
    rewrite IH. cbn. by rewrite <- app_assoc.
Qed.

(** A zero-run closed by a count [rd >= 1]: the run is pooled exactly when
    what [temp] holds by then has fewer than 10 entries. *)
Lemma loop_closed_run (zs : list Z) (rd : Z) (st : loop_state) :
  Forall (fun z => (z < 1)%Z) zs ->
  (1 <= rd)%Z ->
  loop (zs ++ [rd]) st =
  LoopState
    (non_ess_reads st
       ++ (if (length (temp st ++ zs) <? 10)%nat then temp st ++ zs else [])
       ++ [rd]) [].
Proof.
  intros Hz Hrd. rewrite loop_app, (loop_zero_run zs st Hz). cbn.
  unfold body. cbn.
  destruct (Z.leb_spec 1 rd) as [_|Hlt]; [|lia].
  destruct (_ <=? _)%nat.
  - by rewrite <- app_assoc.
  - done.
Qed.

(** Whatever precedes it, a count below 1 leaves the pooled list alone. *)
Lemma pooled_snoc_zero (reads : list Z) (z : Z) :
  (z < 1)%Z -> pooled (reads ++ [z]) = pooled reads.
Proof.
  intros Hz. unfold pooled. rewrite loop_app.
  by rewrite (loop_zero_run [z]) by (repeat constructor; done).
Qed.

(** A count [rd >= 1] always lands at the end of the pooled list. *)
Lemma pooled_snoc_hit (reads : list Z) (rd : Z) :
  (1 <= rd)%Z -> exists l, pooled (reads ++ [rd]) = l ++ [rd].
Proof.
  intros Hrd. unfold pooled. rewrite loop_app.
  rewrite (loop_closed_run [] rd) by (done || constructor).
  cbn [non_ess_reads]. eexists. by rewrite app_assoc.
Qed.

Lemma pooled_nil_iff (reads : list Z) :
  pooled reads = [] <-> Forall (fun rd => (rd < 1)%Z) reads.
Proof.
  induction reads as [|x reads IH] using rev_ind.
  - split; [constructor | done].
  - rewrite Forall_app, Forall_singleton.
    destruct (Z.lt_ge_cases x 1) as [Hlt|Hge].
    + rewrite pooled_snoc_zero by done. rewrite IH. tauto.
    + destruct (pooled_snoc_hit reads x Hge) as [l ->].
      split; [intros E; by destruct l | lia].
Qed.

Lemma fold_add_ones_shift (l : list Z) (a : Z) :
  fold_left Z.add (map (fun _ => 1%Z) l) a = (a + Z.of_nat (length l))%Z.
Proof.
  revert a. induction l as [|x l IH]; intros a; cbn [map fold_left length].
  - lia.
  - rewrite IH. lia.
Qed.

Lemma count_hits_length (l : list Z) :
  count_hits l = Z.of_nat (length (filter (fun rd => (1 <= rd)%Z) l)).
Proof. unfold count_hits. by rewrite fold_add_ones_shift. Qed.

Lemma count_hits_bounds (l : list Z) :
  (0 <= count_hits l <= Z.of_nat (length l))%Z.
Proof.
  rewrite count_hits_length.
  pose proof (length_filter (fun rd => (1 <= rd)%Z) l). lia.
Qed.

(** After a sequence that is empty or ends in a count [>= 1], [temp] is empty. *)
Lemma temp_after_hit (pre : list Z) :
  (pre = [] \/ exists x, last pre = Some x /\ (1 <= x)%Z) ->
  temp (loop pre init) = [].
Proof.
  intros [->|(x & Hlast & Hx)]; [done|].
  apply last_Some in Hlast as [pre' ->].
  rewrite loop_app, (loop_closed_run [] x) by (done || constructor). done.
Qed.

(** C10 (confirmed).  A trailing run of counts below 1, of any length, is
    never pooled: appending it changes neither the pooled list nor what
    [calculate_pins] returns, so the result depends only on the prefix that
    ends with the last count [>= 1]. *)
Theorem calculate_pins_ignores_trailing_run (reads zs : list Z) :
  Forall (fun z => (z < 1)%Z) zs ->
  pooled (reads ++ zs) = pooled reads /\
  calculate_pins (reads ++ zs) = calculate_pins reads.
Proof.
  intros Hz.
  assert (Hp : pooled (reads ++ zs) = pooled reads).
  { unfold pooled. by rewrite loop_app, (loop_zero_run zs _ Hz). }
  split; [exact Hp|]. unfold calculate_pins. by rewrite Hp.
Qed.

Lemma calculate_pins_ignores_trailing_run_witness :
  pooled ([0; 3; 0; 0] ++ [0; 0; 0])%Z = pooled [0; 3; 0; 0]%Z /\
  calculate_pins ([0; 3; 0; 0] ++ [0; 0; 0])%Z = calculate_pins [0; 3; 0; 0]%Z.
Proof.
  apply (calculate_pins_ignores_trailing_run [0; 3; 0; 0]%Z [0; 0; 0]%Z).
  repeat constructor; lia.
Defined.

(** C9 (confirmed).  [calculate_pins] raises [ZeroDivisionError] exactly when
    no count of the input is [>= 1]; on a sequence of non-negative counts,
    one nonzero count is enough for it to return a fraction in [0,1]. *)
Theorem calculate_pins_zero_division (reads : list Z) :
  (calculate_pins reads = Py.Raise Py.ZeroDivisionError <->
   Forall (fun rd => (rd < 1)%Z) reads) /\
  (Forall (fun rd => (0 <= rd)%Z) reads ->
   Exists (fun rd => rd <> 0%Z) reads ->
   exists q : Q, calculate_pins reads = Py.Ok q /\ (0 <= q)%Q /\ (q <= 1)%Q).
Proof.
  assert (Hdiv : forall l : list Z, l <> [] ->
    exists q : Q, truediv (count_hits l) (Z.of_nat (length l)) = Py.Ok q /\
                  (0 <= q)%Q /\ (q <= 1)%Q).
  { intros l Hl. unfold truediv.
    assert (0 < Z.of_nat (length l))%Z as Hlen by (destruct l; [done | cbn; lia]).
    destruct (Z.eqb_spec (Z.of_nat (length l)) 0) as [E|_]; [lia|].
    eexists; split; [reflexivity|].
    pose proof (count_hits_bounds l) as [Hlo Hhi].
    assert (0 < inject_Z (Z.of_nat (length l)))%Q as Hpos.
    { change 0%Q with (inject_Z 0). by rewrite <- Zlt_Qlt. }
    split.
    - apply Qle_shift_div_l; [exact Hpos|]. rewrite Qmult_0_l.
      change 0%Q with (inject_Z 0). by rewrite <- Zle_Qle.
    - apply Qle_shift_div_r; [exact Hpos|]. rewrite Qmult_1_l.
      by rewrite <- Zle_Qle. }
  split.
  - rewrite <- pooled_nil_iff. unfold calculate_pins. split.
    + intros E. destruct (pooled reads) as [|x l] eqn:Hp; [done|].
      destruct (Hdiv (x :: l)) as (q & Hq & _); [done|]. congruence.
    + by intros ->.
  - intros Hnonneg Hex. apply Hdiv. rewrite pooled_nil_iff.
    intros Hall. apply Exists_exists in Hex as (rd & Hin & Hrd).
    rewrite Forall_forall in Hnonneg, Hall.
    specialize (Hnonneg rd Hin). specialize (Hall rd Hin). cbn in *. lia.
Qed.

Lemma calculate_pins_zero_division_witness :
  exists q : Q, calculate_pins [0; 4; 0]%Z = Py.Ok q /\ (0 <= q)%Q /\ (q <= 1)%Q.
Proof.
  apply (calculate_pins_zero_division [0; 4; 0]%Z).
  - repeat constructor; lia.
  - apply Exists_cons_tl, Exists_cons_hd. lia.
Defined.

(** C3, as claimed: on the scenario the leading run of two zeros would be
    left out of the pool and only the rest pooled.  The run before the second
    nonzero count has 8 entries, and the code pools the whole sequence, the
    leading run included. *)
Lemma calculate_pins_scenario_counterexample :
  scenario = ([0; 0] ++ [1] ++ repeat 0 8 ++ [1])%Z /\
  pooled scenario = scenario /\
  pooled scenario <> drop 2 scenario.
Proof. split; [reflexivity|]. split; [reflexivity | discriminate]. Qed.

(** C3 (amended).  In the scenario the zero-run before the second nonzero
    count has 8 entries, the leading one 2; both are shorter than 10 and both
    are pooled, so the pool is the whole sequence and the result is 2/12.
    In general a maximal zero-run that a count [>= 1] closes is pooled when
    it has fewer than 10 entries and dropped when it has 10 or more. *)
Theorem calculate_pins_scenario_pooling :
  pooled scenario = scenario /\
  calculate_pins scenario = Py.Ok (2 # 12)%Q /\
  (forall (pre zs : list Z) (rd : Z),
     (pre = [] \/ exists x, last pre = Some x /\ (1 <= x)%Z) ->
     Forall (fun z => (z < 1)%Z) zs ->
     (1 <= rd)%Z ->
     pooled (pre ++ zs ++ [rd]) =
     pooled pre ++ (if (length zs <? 10)%nat then zs else []) ++ [rd]).
Proof.
  split; [reflexivity|]. split; [reflexivity|].
  intros pre zs rd Hpre Hz Hrd. unfold pooled.
  rewrite loop_app, (loop_closed_run zs rd _ Hz Hrd).
  by rewrite (temp_after_hit pre Hpre).
Qed.

Lemma calculate_pins_scenario_pooling_witness :
  pooled ([1] ++ repeat 0 10 ++ [1])%Z = [1; 1]%Z /\
  pooled ([1] ++ repeat 0 9 ++ [1])%Z = ([1] ++ repeat 0 9 ++ [1])%Z.
Proof.
  pose proof calculate_pins_scenario_pooling as (_ & _ & H). split.
  - apply (H [1]%Z (repeat 0%Z 10) 1%Z); [right; by exists 1%Z | | lia].
    repeat constructor; lia.
  - apply (H [1]%Z (repeat 0%Z 9) 1%Z); [right; by exists 1%Z | | lia].
    repeat constructor; lia.
Defined.

End PinsFacts.

(** ** The run length *)
Section RunLengthFacts.
Import RunLength Binary64.
#[local] Set Warnings "-inexact-float".

(** The loop over a range that is not empty ends in one of three ways: at
    the first [r] whose test holds; at the last [r] when no test holds; on
    the exception of the first test that raises.  No test before [r]
    holds. *)
Lemma for_break_seq (test : nat -> Py.result bool) (n : nat) :
  forall (a : nat) (r0 : option nat),
    n <> 0%nat ->
    exists r : nat,
      (a <= r < a + n)%nat /\
      (forall r' : nat, (a <= r' < r)%nat -> test r' = Py.Ok false) /\
      ((test r = Py.Ok true /\ for_break test (seq a n) r0 = Py.Ok (Some r)) \/
       (test r = Py.Ok false /\ r = (a + n - 1)%nat /\
        for_break test (seq a n) r0 = Py.Ok (Some r)) \/
       (exists e : Py.exn,
          test r = Py.Raise e /\ for_break test (seq a n) r0 = Py.Raise e)).
Proof.
  induction n as [|n IH]; intros a r0 Hn; [done|].
  cbn [seq for_break]. destruct (test a) as [[|]|e] eqn:Ha; cbn.
  - exists a. split; [lia|]. split; [intros; lia|]. by left.
  - destruct n as [|n].
    + exists a. split; [lia|]. split; [intros; lia|].
      right; left. split; [done|]. split; [lia | done].
    + destruct (IH (S a) (Some a)) as (r & Hrange & Hbefore & Hlast); [done|].
      exists r. split; [lia|]. split.
      * intros r' Hr'. destruct (decide (r' = a)) as [->|]; [done|].
        apply Hbefore. lia.
      * destruct Hlast as [?|[(? & -> & ?)|?]]; [by left | | by right; right].
        right; left. split; [done|]. split; [lia | done].
  - exists a. split; [lia|]. split; [intros; lia|]. right; right. by exists e.
Qed.

Lemma Qpower_le_base (a b : Q) (n : nat) :
  (0 <= a)%Q -> (a <= b)%Q -> (a ^ Z.of_nat n <= b ^ Z.of_nat n)%Q.
Proof.
  intros Ha Hab. induction n as [|n IH]; [by cbn|].
  rewrite Nat2Z.inj_succ, <- Z.add_1_l.
  rewrite !Qpower_plus' by lia. rewrite !Qpower_1_r.
  apply Qmult_le_compat_nonneg; split; try done.
  by apply Qpower_0_le.
Qed.

Lemma value_units (x : float) (X : Q) :
  value x = Some X -> exists u : Z, units x = Some u /\ X = u # unit_den.
Proof.
  unfold value. destruct (units x) as [u|]; [|done]. intros [= <-]. by exists u.
Qed.

Lemma Qlt_units (u v : Z) : (u # unit_den < v # unit_den)%Q <-> (u < v)%Z.
Proof.
  unfold Qlt. cbn [Qnum Qden]. symmetry. by apply Z.mul_lt_mono_pos_r.
Qed.

Lemma Qle_units (u v : Z) : (u # unit_den <= v # unit_den)%Q <-> (u <= v)%Z.
Proof.
  unfold Qle. cbn [Qnum Qden]. symmetry. by apply Z.mul_le_mono_pos_r.
Qed.

(** What an accurate power decides: the comparison [x ** r < 0.01] is
    settled by the exact power wherever that is not within the error bound
    of the threshold. *)
Lemma below_threshold_of_bound (pow : float -> Z -> Py.result float)
    (x : float) (r : nat) (X C : Q) :
  accurate pow x r -> value x = Some X -> value 0.01%float = Some C ->
  ((X ^ Z.of_nat r * (1 + (1 # 2 ^ 52)) + (1 # unit_den) < C)%Q ->
   below_threshold pow x r = Py.Ok true) /\
  ((C <= X ^ Z.of_nat r * (1 - (1 # 2 ^ 52)) - (1 # unit_den))%Q ->
   below_threshold pow x r = Py.Ok false).
Proof.
  intros (y & X' & Y & Hpow & HX' & HY & Hb) HX HC.
  rewrite HX in HX'. injection HX' as <-.
  apply value_units in HY as (uy & Huy & ->).
  apply value_units in HC as (uc & Huc & ->).
  unfold below_threshold. rewrite Hpow. cbn.
  rewrite (ltb_units y 0.01%float uy uc Huy Huc).
  apply Qabs_Qle_condition in Hb as [Hlo Hhi].
  set (P := (X ^ Z.of_nat r)%Q) in *.
  set (eps := (1 # 2 ^ 52)%Q) in *. set (tiny := (1 # unit_den)%Q) in *.
  split; intros H; f_equal.
  - apply Z.ltb_lt, Qlt_units. lra.
  - apply Z.ltb_ge, Qle_units. lra.
Qed.

Lemma accurate_returns (pow : float -> Z -> Py.result float) (x : float)
    (r : nat) :
  accurate pow x r -> exists b : bool, below_threshold pow x r = Py.Ok b.
Proof.
  intros (y & _ & _ & Hpow & _). unfold below_threshold. rewrite Hpow.
  by eexists.
Qed.

(** C5, as claimed: [r] would be the smallest [r] with
    [(1 - pins)^r < 0.01].  Nine counts of ten pooled ones are insertions:
    the density is 9/10, and [(1 - 9/10)^2] is 1/100, not below it, so the
    smallest such [r] is 3.  The loop stops at [r = 2]: in binary64
    [1.0 - 0.9] is a little less than 1/10 and its square compares below
    [0.01], for every power function that is accurate up to the exponent 2,
    repeated multiplication being one. *)
Lemma run_length_exact_counterexample :
  Pins.calculate_pins [1; 1; 1; 1; 1; 1; 1; 1; 0; 1]%Z = Py.Ok (9 # 10) /\
  (forall pow : float -> Z -> Py.result float,
     (forall r : nat, (r <= 2)%nat -> accurate pow (1 - 9 / 10)%float r) ->
     run_length pow (9 / 10)%float = Py.Ok (Some 2%nat)) /\
  run_length sample_pow (9 / 10)%float = Py.Ok (Some 2%nat) /\
  ~ ((1 - (9 # 10)) ^ 2 < 1 # 100)%Q /\
  ((1 - (9 # 10)) ^ 3 < 1 # 100)%Q.
Proof.
  split; [reflexivity|].
  split; [|split; [by vm_compute | split; [by vm_compute | by vm_compute]]].
  intros pow Hacc.
  assert (HX : value (1 - 9 / 10)%float
               = Some (default 0%Q (value (1 - 9 / 10)%float))) by (by vm_compute).
  assert (HC : value 0.01%float = Some (default 0%Q (value 0.01%float)))
    by (by vm_compute).
  destruct (below_threshold_of_bound pow _ 0 _ _ (Hacc 0%nat ltac:(lia)) HX HC)
    as [_ H0].
  destruct (below_threshold_of_bound pow _ 1 _ _ (Hacc 1%nat ltac:(lia)) HX HC)
    as [_ H1].
  destruct (below_threshold_of_bound pow _ 2 _ _ (Hacc 2%nat ltac:(lia)) HX HC)
    as [H2 _].
  unfold run_length.
  change (seq 0 100) with (0 :: 1 :: 2 :: seq 3 97)%nat. cbn [for_break].
  rewrite H0, bind_Ok by (apply Qle_bool_iff; by vm_compute).
  rewrite H1, bind_Ok by (apply Qle_bool_iff; by vm_compute).
  rewrite H2 by (apply Qlt_alt; by vm_compute). done.
Qed.

(** C5 (amended).  For a density [pins] between 0.1 and 1 in binary64, and
    a power function that is accurate up to the exponent 44: the loop stops
    at an [r] with [1 <= r <= 44], the smallest [r] whose binary64 power
    [(1.0 - pins) ** r] compares below [0.01].  The bound of the range is
    not reached. *)
Theorem run_length_smallest_binary64 (pow : float -> Z -> Py.result float)
    (pins : float) :
  (0.1 <=? pins)%float = true -> (pins <=? 1)%float = true ->
  (forall r : nat, (r <= 44)%nat -> accurate pow (1 - pins)%float r) ->
  exists r : nat,
    run_length pow pins = Py.Ok (Some r) /\ (1 <= r <= 44)%nat /\
    below_threshold pow (1 - pins)%float r = Py.Ok true /\
    (forall r' : nat, (r' < r)%nat ->
       below_threshold pow (1 - pins)%float r' = Py.Ok false).
Proof.
  intros Hp01 Hp1 Hacc.
  destruct (sub_from_one pins Hp01 Hp1) as [Hlo Hhi].
  set (pnon := (1 - pins)%float) in *.
  destruct (Hacc 0%nat ltac:(lia)) as (_ & X & _ & _ & HX & _).
  destruct (value_units _ _ HX) as (ux & Hux & HXu).
  assert (HC : value 0.01%float = Some (default 0%Q (value 0.01%float)))
    by (by vm_compute).
  assert (HU : units 0.9%float = Some (default 0%Z (units 0.9%float)))
    by (by vm_compute).
  set (C := default 0%Q (value 0.01%float)) in *.
  set (u09 := default 0%Z (units 0.9%float)) in *.
  assert (H44c : ((u09 # unit_den) ^ Z.of_nat 44 * (1 + (1 # 2 ^ 52))
                  + (1 # unit_den) < C)%Q) by (apply Qlt_alt; by vm_compute).
  assert (H0c : (C <= 1 * (1 - (1 # 2 ^ 52)) - (1 # unit_den))%Q)
    by (apply Qle_bool_iff; by vm_compute).
  clearbody C u09.
  assert (HX0 : (0 <= X)%Q).
  { rewrite HXu. unfold Qle. cbn [Qnum Qden]. rewrite Z.mul_1_r, Z.mul_0_l.
    apply Z.leb_le. by rewrite <- (leb_units 0%float pnon 0 ux eq_refl Hux). }
  assert (HXU : (X <= u09 # unit_den)%Q).
  { rewrite HXu. apply Qle_units, Z.leb_le.
    by rewrite <- (leb_units pnon 0.9%float ux u09 Hux HU). }
  assert (Ht44 : below_threshold pow pnon 44 = Py.Ok true).
  { apply (below_threshold_of_bound pow pnon 44 X C (Hacc 44%nat ltac:(lia)) HX HC).
    pose proof (Qpower_le_base X (u09 # unit_den) 44 HX0 HXU) as Hp.
    pose proof (Qpower_0_le X (Z.of_nat 44) HX0) as Hp0.
    set (P := (X ^ Z.of_nat 44)%Q) in *.
    set (P' := ((u09 # unit_den) ^ Z.of_nat 44)%Q) in *.
    set (tiny := (1 # unit_den)%Q) in *.
    change (2 ^ 52)%positive with 4503599627370496%positive in *.
    nra. }
  assert (Ht0 : below_threshold pow pnon 0 = Py.Ok false).
  { apply (below_threshold_of_bound pow pnon 0 X C (Hacc 0%nat ltac:(lia)) HX HC).
    exact H0c. }
  unfold run_length. fold pnon.
  destruct (for_break_seq (below_threshold pow pnon) 100 0 None)
    as (r & Hrange & Hbefore & Hlast); [done|].
  assert (Hr44 : (r <= 44)%nat).
  { destruct (decide (r <= 44)%nat) as [|Hgt]; [done|].
    rewrite (Hbefore 44%nat) in Ht44 by lia. done. }
  destruct Hlast as [[Ht Hres]|[(_ & -> & _)|(e & He & _)]].
  - exists r. split; [exact Hres|]. split.
    + split; [|done]. destruct r; [congruence | lia].
    + split; [exact Ht|]. intros r' Hr'. apply Hbefore. lia.
  - lia.
  - destruct (accurate_returns pow pnon r (Hacc r Hr44)) as [b Hb]. congruence.
Qed.

Lemma run_length_smallest_binary64_witness :
  exists r : nat,
    run_length sample_pow (1 / 2)%float = Py.Ok (Some r) /\ (1 <= r <= 44)%nat.
Proof.
  destruct (run_length_smallest_binary64 sample_pow (1 / 2)%float)
    as (r & Hr & Hrange & _).
  - reflexivity.
  - reflexivity.
  - intros r Hr.
    do 45 (destruct r as [|r];
           [eexists _, _, _; split; [reflexivity|]; split; [by vm_compute|];
            split; [by vm_compute|]; apply Qle_bool_iff; by vm_compute|]).
    lia.
  - by exists r.
Defined.

(** X3.  However the powers turn out, the loop over [range(100)] ends in one
    of three ways, at an [r] below 100 before which every power was computed
    and none compared below [0.01]: [r] is the first whose power does, and
    the run length; or none does and the run length is 99; or the power of
    [r] raises, and [Run] with it. *)
Theorem run_length_first_or_last (pow : float -> Z -> Py.result float)
    (pins : float) :
  exists r : nat,
    (r < 100)%nat /\
    (forall r' : nat, (r' < r)%nat ->
       below_threshold pow (1 - pins)%float r' = Py.Ok false) /\
    ((below_threshold pow (1 - pins)%float r = Py.Ok true /\
      run_length pow pins = Py.Ok (Some r)) \/
     (below_threshold pow (1 - pins)%float r = Py.Ok false /\ r = 99%nat /\
      run_length pow pins = Py.Ok (Some 99%nat)) \/
     (exists e : Py.exn,
        below_threshold pow (1 - pins)%float r = Py.Raise e /\
        run_length pow pins = Py.Raise e)).
Proof.
  unfold run_length.
  destruct (for_break_seq (below_threshold pow (1 - pins)%float) 100 0 None)
    as (r & Hrange & Hbefore & Hlast); [done|].
  exists r. split; [lia|]. split; [intros r' Hr'; apply Hbefore; lia|].
  destruct Hlast as [?|[(? & -> & ?)|?]]; [by left | | by right; right].
  right; left. by repeat split.
Qed.

End RunLengthFacts.

(** ** The inference passes: shapes and completion *)
Section PassShapes.
Import Hmm.

Lemma ew_ok (op : float -> float -> float) (x y : list float) :
  length x = length y -> Np.ew op x y = Py.Ok (zip_with op x y).
Proof. intros E. unfold Np.ew. by rewrite E, Nat.eqb_refl. Qed.

Lemma assign_ok {X : Type} (N : nat) (v : list X) :
  length v = N -> Np.assign N v = Py.Ok v.
Proof. intros E. unfold Np.assign. by rewrite E, Nat.eqb_refl. Qed.

Lemma argmax_scan_bound (v : list float) :
  forall (i : nat) (mp : float) (ind : nat),
    (ind < i)%nat -> (snd (Np.argmax_scan v i mp ind) < i + length v)%nat.
Proof.
  induction v as [|x v IH]; intros i mp ind Hind; cbn [Np.argmax_scan length].
  - cbn. lia.
  - destruct (PrimFloat.is_nan mp); [cbn; lia|].
    destruct (x <=? mp)%float.
    + specialize (IH (S i) mp ind). lia.
    + specialize (IH (S i) x i). lia.
Qed.

Lemma argmax_ok (v : list float) :
  v <> [] -> exists k : nat, Np.argmax v = Py.Ok k /\ (k < length v)%nat.
Proof.
  destruct v as [|x v]; [done|]. intros _. eexists. split; [reflexivity|].
  pose proof (argmax_scan_bound v 1 x 0). cbn [length]. lia.
Qed.

Lemma any_lookup_zero (C : list float) :
  Np.any C = true -> exists c : float, C !! 0%nat = Some c.
Proof. destruct C as [|c C]; [done|]. by exists c. Qed.

(** With no observation at all, each pass stops on an [IndexError]. *)
Lemma passes_raise_on_empty (log : float -> float) (A : list (list float))
    (B : list emission) (PI C : list float) :
  B <> [] ->
  viterbi log A B PI [] = Py.Raise Py.IndexError /\
  forward_procedure log A B PI [] = Py.Raise Py.IndexError /\
  backward_procedure A B PI [] C = Py.Raise Py.IndexError.
Proof. destruct B; done. Qed.

(** C8, as claimed: with strictly positive emission probabilities [alpha]
    and [beta] would be well defined.  Four states that emit with the
    smallest positive probability show otherwise: of the products [PI * b]
    one is that number again and three round to zero, [C[0]] is the
    reciprocal of their sum and overflows, so [alpha[:,0]] holds an
    infinity and three NaN, and [beta[:,0]] is infinite. *)
Lemma passes_on_one_observation_counterexample :
  Forall (fun Bi : emission => (0 <? Bi 1%Z)%float = true) faint_model /\
  (forall log : float -> float, exists lp : float,
     forward_procedure log A_uniform faint_model PI_run [1%Z]
     = Py.Ok (lp, [[infinity; nan; nan; nan]], [infinity])) /\
  backward_procedure A_uniform faint_model PI_run [1%Z] [infinity]
  = Py.Ok [replicate 4 infinity] /\
  PrimFloat.is_nan nan = true /\ PrimFloat.is_finite infinity = false.
Proof.
  split; [by repeat constructor|].
  split; [intros log; eexists; by vm_compute|]. by vm_compute.
Qed.

(** C8 (amended).  On a single observation, whatever the emission
    probabilities are, with at least one state and [PI] of shape (N,):
    [viterbi] returns a path of one state, a valid index, with [delta] and
    [Q] of shape (N,1); the forward pass returns [alpha] of shape (N,1), its
    only column [C[0] * (PI * b_o)], and [C = [1 / sum(PI * b_o)]]; the
    backward pass returns [beta] of shape (N,1).  None of them raises.
    Where the products [PI * b_o] and [C[0]] are finite, no entry of
    [alpha] or of [beta] is a NaN. *)
Theorem passes_on_one_observation (log : float -> float)
    (A : list (list float)) (B : list emission) (PI : list float) (o : Z) :
  B <> [] ->
  length PI = length B ->
  let N := length B in
  (exists (s : nat) (delta : list (list float)) (Q : list (list nat)),
     viterbi log A B PI [o] = Py.Ok ([s], delta, Q) /\
     (s < N)%nat /\ has_shape N 1 delta /\ has_shape N 1 Q) /\
  (exists (lp : float) (alpha : list (list float)),
     let v := zip_with PrimFloat.mul PI (b_at B o) in
     let c0 := (1 / Np.sum v)%float in
     forward_procedure log A B PI [o] = Py.Ok (lp, alpha, [c0]) /\
     alpha = [map (fun x => (c0 * x)%float) v] /\
     has_shape N 1 alpha) /\
  (forall C : list float,
     exists beta : list (list float),
       backward_procedure A B PI [o] C = Py.Ok beta /\
       has_shape N 1 beta) /\
  (let v := zip_with PrimFloat.mul PI (b_at B o) in
   let c0 := (1 / Np.sum v)%float in
   Forall Np.finite v -> Np.finite c0 ->
   exists col : list float,
     backward_procedure A B PI [o] [c0] = Py.Ok [col] /\
     Forall (fun x => PrimFloat.is_nan x = false)
       (map (fun x => (c0 * x)%float) v) /\
     Forall (fun x => PrimFloat.is_nan x = false) col).
Proof.
  intros HB HPI N.
  assert (Hb : length (b_at B o) = length B) by (unfold b_at; by rewrite length_map).
  split; [|split; [|split]].
  - unfold viterbi.
    rewrite ew_ok by (rewrite !length_map; lia).
    set (d0 := zip_with PrimFloat.add _ _).
    assert (Hd0 : length d0 = N).
    { unfold d0, N. rewrite length_zip_with, !length_map. lia. }
    cbn. rewrite (assign_ok (length B) d0 Hd0). cbn.
    destruct (argmax_ok d0) as (k & -> & Hk).
    { intros E. rewrite E in Hd0. destruct B; [done | discriminate]. }
    cbn. exists k, [d0], [replicate N 0%nat].
    split; [by destruct B|]. split; [lia|].
    split; (split; [done|]); repeat constructor; [done|].
    by rewrite length_replicate.
  - unfold forward_procedure.
    rewrite ew_ok by lia.
    set (v := zip_with PrimFloat.mul _ _).
    assert (Hv : length v = N).
    { unfold v, N. rewrite length_zip_with. lia. }
    cbn. rewrite (assign_ok (length B) v Hv). cbn.
    eexists _, _. split; [by destruct B|]. split; [done|].
    split; [done|]. repeat constructor. by rewrite length_map.
  - intros C. unfold backward_procedure, backward_from, scale_by.
    destruct (Np.any C) eqn:HC.
    + destruct (any_lookup_zero C HC) as [c ->]. cbn.
      eexists. split; [done|]. split; [done|]. repeat constructor.
      by rewrite length_map, length_replicate.
    + cbn. eexists. split; [done|]. split; [done|]. repeat constructor.
      by rewrite length_replicate.
  - intros v c0 Hv Hc0. unfold backward_procedure, backward_from, scale_by.
    assert (Hones : Forall (fun x => PrimFloat.is_nan x = false)
                      (replicate (length B) 1%float)).
    { apply Forall_replicate. reflexivity. }
    assert (Hscaled : Forall (fun x => PrimFloat.is_nan x = false)
                        (map (fun x => (x * c0)%float)
                           (replicate (length B) 1%float))).
    { apply Forall_map, Forall_replicate. cbn.
      by apply mul_finite_not_nan. }
    assert (Halpha : Forall (fun x => PrimFloat.is_nan x = false)
                       (map (fun x => (c0 * x)%float) v)).
    { apply Forall_map. eapply Forall_impl; [exact Hv|].
      intros x Hx. cbn. by apply mul_finite_not_nan. }
    destruct (Np.any [c0]); cbn; eexists; (split; [reflexivity|]); by split.
Qed.

End PassShapes.

(** ** Floats: what a zero emission probability does to a state vector *)
Section FloatFacts.
Import Np.

Lemma float_of_spec (x : float) (sf : spec_float) :
  Prim2SF x = sf -> x = SF2Prim sf.
Proof. intros <-. symmetry. apply SF2Prim_Prim2SF. Qed.

Lemma mul_zero_or_nan_r (x y : float) :
  zero_or_nan y -> zero_or_nan (x * y)%float.
Proof.
  intros Hy. rewrite (float_of_spec _ _ (mul_spec x y)).
  destruct Hy as [-> | [-> | ->]].
  all: destruct (Prim2SF x) as [s|s| |s m e]; try destruct s.
  all: vm_compute; tauto.
Qed.

Lemma mul_zero_or_nan_l (x y : float) :
  zero_or_nan x -> zero_or_nan (x * y)%float.
Proof.
  intros Hx. rewrite (float_of_spec _ _ (mul_spec x y)).
  destruct Hx as [-> | [-> | ->]].
  all: destruct (Prim2SF y) as [s|s| |s m e]; try destruct s.
  all: vm_compute; tauto.
Qed.

Lemma add_zero_or_nan (x y : float) :
  zero_or_nan x -> zero_or_nan y -> zero_or_nan (x + y)%float.
Proof.
  intros [-> | [-> | ->]] [-> | [-> | ->]]; vm_compute; tauto.
Qed.

Lemma add_signed_zero (x y : float) :
  signed_zero x -> signed_zero y -> signed_zero (x + y)%float.
Proof. intros [-> | ->] [-> | ->]; vm_compute; tauto. Qed.

Lemma fold_add_closed (P : float -> Prop) (v : list float) :
  (forall x y : float, P x -> P y -> P (x + y)%float) ->
  Forall P v -> forall acc : float, P acc -> P (fold_left PrimFloat.add v acc).
Proof.
  intros Hadd Hv. induction Hv as [|x v Hx _ IH]; intros acc Hacc; cbn.
  - exact Hacc.
  - apply IH, Hadd; assumption.
Qed.

Lemma sum_zero_or_nan (v : list float) :
  Forall zero_or_nan v -> zero_or_nan (sum v).
Proof.
  intros Hv. apply (fold_add_closed zero_or_nan v add_zero_or_nan Hv).
  by left.
Qed.

Lemma sum_signed_zero (v : list float) :
  Forall signed_zero v -> (sum v =? 0)%float = true.
Proof.
  intros Hv.
  assert (signed_zero (sum v)) as [-> | ->]; [|done..].
  apply (fold_add_closed signed_zero v add_signed_zero Hv). by left.
Qed.

Lemma nan_to_num_signed_zero (x : float) :
  zero_or_nan x -> signed_zero (nan_to_num x).
Proof. intros [-> | [-> | ->]]; vm_compute; tauto. Qed.

(** The scaling of the forward step, on an entry and a sum that are each a
    zero or a NaN. *)
Lemma rescaled_signed_zero (x s : float) :
  zero_or_nan x -> zero_or_nan s ->
  signed_zero (nan_to_num (x * nan_to_num (1 / s))%float).
Proof.
  intros [-> | [-> | ->]] [-> | [-> | ->]]; vm_compute; tauto.
Qed.

Lemma nan_to_num_finite (x : float) : finite (nan_to_num x).
Proof.
  unfold nan_to_num, finite.
  destruct (PrimFloat.is_nan x) eqn:Hnan; [done|].
  destruct (PrimFloat.is_infinity x) eqn:Hinf.
  - by destruct (x <? 0)%float.
  - unfold PrimFloat.is_finite. by rewrite Hnan, Hinf.
Qed.

Lemma floor_finite : finite floor.
Proof. done. Qed.

End FloatFacts.

(** ** The inference passes: completion, finiteness and the floor *)
Section PassFloor.
Import Hmm.

Lemma ew_inv (op : float -> float -> float) (x y r : list float) :
  Np.ew op x y = Py.Ok r -> length x = length y /\ r = zip_with op x y.
Proof.
  unfold Np.ew. destruct (Nat.eqb_spec (length x) (length y)); [|done].
  intros [= <-]. done.
Qed.

Lemma assign_inv {X : Type} (N : nat) (v r : list X) :
  Np.assign N v = Py.Ok r -> length v = N /\ r = v.
Proof.
  unfold Np.assign. destruct (Nat.eqb_spec (length v) N); [|done].
  intros [= <-]. done.
Qed.

Lemma length_b_at (B : list emission) (o : Z) : length (b_at B o) = length B.
Proof. unfold b_at. by rewrite length_map. Qed.

Lemma b_at_silent (B : list emission) (o : Z) :
  silent B o -> Forall (fun x => x = 0%float) (b_at B o).
Proof. unfold silent, b_at. intros H. by apply Forall_map. Qed.

Lemma zip_mul_zero_r (d bo : list float) :
  Forall (fun x => x = 0%float) bo ->
  Forall Np.zero_or_nan (zip_with PrimFloat.mul d bo).
Proof.
  intros Hbo. revert d.
  induction Hbo as [|b bo -> _ IH]; intros [|x d]; cbn; constructor.
  - apply mul_zero_or_nan_r. by left.
  - apply IH.
Qed.

Lemma zip_mul_zero_l (bo next : list float) :
  Forall (fun x => x = 0%float) bo ->
  Forall Np.zero_or_nan (zip_with PrimFloat.mul bo next).
Proof.
  intros Hbo. revert next.
  induction Hbo as [|b bo -> _ IH]; intros [|x next]; cbn; constructor.
  - apply mul_zero_or_nan_l. by left.
  - apply IH.
Qed.

Lemma zip_mul_zero_or_nan_r (row w : list float) :
  Forall Np.zero_or_nan w ->
  Forall Np.zero_or_nan (zip_with PrimFloat.mul row w).
Proof.
  intros Hw. revert row.
  induction Hw as [|y w Hy _ IH]; intros [|x row]; cbn; constructor.
  - by apply mul_zero_or_nan_r.
  - apply IH.
Qed.

Lemma ncols_square (N : nat) (A : list (list float)) :
  has_shape N N A -> Np.ncols A = Some N.
Proof.
  intros [Hlen Hrows]. destruct A as [|row rows]; [by subst|].
  apply Forall_cons in Hrows as [Hrow Hrows]. cbn [Np.ncols].
  replace (forallb _ rows) with true; [by rewrite Hrow|].
  symmetry. apply forallb_forall. intros r Hr.
  rewrite Forall_forall in Hrows. apply list_elem_of_In in Hr.
  rewrite (Hrows r Hr), Hrow. apply Nat.eqb_refl.
Qed.

Lemma dot_vm_square (N : nat) (A : list (list float)) (v : list float) :
  has_shape N N A -> length v = N ->
  exists d : list float, Np.dot_vm v A = Py.Ok d /\ length d = N.
Proof.
  intros HA Hv. unfold Np.dot_vm. rewrite (ncols_square N A HA).
  destruct HA as [-> _]. rewrite Hv, Nat.eqb_refl.
  eexists. split; [done|]. by rewrite length_map, length_seq.
Qed.

Lemma dot_mv_square (N : nat) (A : list (list float)) (w : list float) :
  has_shape N N A -> length w = N ->
  Np.dot_mv A w =
  Py.Ok (map (fun row => Np.sum (zip_with PrimFloat.mul row w)) A).
Proof.
  intros [_ Hrows] Hw. unfold Np.dot_mv.
  replace (forallb _ A) with true; [done|].
  symmetry. apply forallb_forall. intros r Hr.
  rewrite Forall_forall in Hrows. apply list_elem_of_In in Hr.
  rewrite (Hrows r Hr), Hw. apply Nat.eqb_refl.
Qed.

(** One forward step on well-shaped operands: it returns, what it returns is
    finite, and on a silent observation the column is the floor. *)
Lemma forward_step_spec (N : nat) (A : list (list float)) (B : list emission)
    (prev : list float) (o : Z) :
  has_shape N N A -> length B = N -> length prev = N ->
  exists (col : list float) (c : float),
    forward_step A B prev o = Py.Ok (col, c) /\
    length col = N /\
    Forall Np.finite col /\ Np.finite c /\
    (silent B o -> col = replicate N Np.floor).
Proof.
  intros HA HB Hprev. unfold forward_step.
  destruct (dot_vm_square N A prev HA Hprev) as (d & -> & Hd). cbn.
  rewrite ew_ok by (rewrite length_b_at; lia). cbn.
  set (raw := zip_with PrimFloat.mul d (b_at B o)).
  assert (Hraw : length raw = N).
  { unfold raw. rewrite length_zip_with, length_b_at. lia. }
  rewrite assign_ok by lia. cbn.
  set (c := Np.nan_to_num (1 / Np.sum raw)%float).
  set (scaled := map (fun x => Np.nan_to_num (x * c)%float) raw).
  assert (Hfloor : silent B o -> (Np.sum scaled =? 0)%float = true).
  { intros Hsil. apply sum_signed_zero.
    pose proof (zip_mul_zero_r d _ (b_at_silent B o Hsil)) as Hzn.
    fold raw in Hzn. unfold scaled. apply Forall_map.
    eapply Forall_impl; [exact Hzn|]. intros x Hx. cbn.
    apply rescaled_signed_zero; [exact Hx|]. by apply sum_zero_or_nan. }
  destruct (Np.sum scaled =? 0)%float eqn:Hsum.
  - exists (replicate N Np.floor), c. rewrite HB.
    split; [done|]. split; [by rewrite length_replicate|].
    split; [|split; [apply nan_to_num_finite | done]].
    apply Forall_replicate, floor_finite.
  - exists scaled, c. split; [done|].
    split; [unfold scaled; by rewrite length_map|].
    split; [|split; [apply nan_to_num_finite|]].
    + unfold scaled. apply Forall_map, Forall_true.
      intros x. apply nan_to_num_finite.
    + intros Hsil. specialize (Hfloor Hsil). congruence.
Qed.

Lemma forward_loop_spec (N : nat) (A : list (list float)) (B : list emission) :
  has_shape N N A -> length B = N ->
  forall (Os : list Z) (prev : list float),
    length prev = N ->
    exists (cols : list (list float)) (cs : list float),
      forward_loop A B prev Os = Py.Ok (cols, cs) /\
      has_shape N (length Os) cols /\ length cs = length Os /\
      Forall (Forall Np.finite) cols /\ Forall Np.finite cs /\
      (forall (t : nat) (o : Z),
         Os !! t = Some o -> silent B o ->
         cols !! t = Some (replicate N Np.floor)).
Proof.
  intros HA HB. induction Os as [|o Os IH]; intros prev Hprev.
  - exists [], []. repeat split; try done; constructor.
  - destruct (forward_step_spec N A B prev o HA HB Hprev)
      as (col & c & Hstep & Hcol & Hfin & Hc & Hsil).
    destruct (IH col Hcol)
      as (cols & cs & Hloop & [Hlen Hshape] & Hcs & Hfins & Hfcs & Hfloor).
    exists (col :: cols), (c :: cs).
    cbn [forward_loop]. rewrite Hstep. cbn. rewrite Hloop. cbn.
    split; [done|]. split; [split; [cbn; lia | by constructor]|].
    split; [cbn; lia|]. split; [by constructor|]. split; [by constructor|].
    intros [|t] o' Ho' Hs; cbn in *.
    + injection Ho' as <-. by rewrite (Hsil Hs).
    + by apply (Hfloor t o').
Qed.

Lemma scale_by_ok (C : list float) (t : nat) (col : list float) :
  (Np.any C = true -> (t < length C)%nat) ->
  exists col' : list float,
    scale_by C t col = Py.Ok col' /\ length col' = length col.
Proof.
  intros Ht. unfold scale_by. destruct (Np.any C).
  - destruct (lookup_lt_is_Some_2 C t (Ht eq_refl)) as [c ->].
    eexists. split; [done|]. by rewrite length_map.
  - by exists col.
Qed.

(** One backward step on well-shaped operands: it returns, and on a silent
    observation the column is the floor, scaled by [C[t]] when [C] is used. *)
Lemma backward_step_spec (N : nat) (A : list (list float)) (B : list emission)
    (C : list float) (t : nat) (o : Z) (next : list float) :
  has_shape N N A -> length B = N -> length next = N ->
  (Np.any C = true -> (t < length C)%nat) ->
  exists col : list float,
    backward_step A B C t o next = Py.Ok col /\
    length col = N /\
    (silent B o -> scale_by C t (replicate N Np.floor) = Py.Ok col).
Proof.
  intros HA HB Hnext Ht. unfold backward_step.
  rewrite ew_ok by (rewrite length_b_at; lia). cbn.
  set (w := zip_with PrimFloat.mul (b_at B o) next).
  assert (Hw : length w = N).
  { unfold w. rewrite length_zip_with, length_b_at. lia. }
  rewrite (dot_mv_square N A w HA Hw). cbn.
  set (d := map Np.nan_to_num _).
  assert (Hd : length d = N).
  { unfold d. rewrite !length_map. by destruct HA. }
  rewrite assign_ok by lia. cbn. rewrite HB.
  assert (Hfloor : silent B o -> (Np.sum d =? 0)%float = true).
  { intros Hsil. apply sum_signed_zero. unfold d.
    apply Forall_map, Forall_map, Forall_true. intros row. cbn.
    apply nan_to_num_signed_zero, sum_zero_or_nan, zip_mul_zero_or_nan_r.
    apply zip_mul_zero_l, b_at_silent, Hsil. }
  destruct (Np.sum d =? 0)%float eqn:Hsum.
  - destruct (scale_by_ok C t (replicate N Np.floor) Ht) as (col & Hcol & Hlen).
    exists col. rewrite length_replicate in Hlen. done.
  - destruct (scale_by_ok C t d Ht) as (col & Hcol & Hlen).
    exists col. split; [done|]. split; [lia|].
    intros Hsil. specialize (Hfloor Hsil). congruence.
Qed.

Lemma backward_from_spec (N : nat) (A : list (list float)) (B : list emission)
    (C : list float) :
  has_shape N N A -> length B = N ->
  forall (Os : list Z) (t : nat),
    Os <> [] ->
    (Np.any C = true -> (t + length Os <= length C)%nat) ->
    exists cols : list (list float),
      backward_from A B C t Os = Py.Ok cols /\
      has_shape N (length Os) cols /\
      (forall (k : nat) (o : Z),
         (S k < length Os)%nat -> Os !! k = Some o -> silent B o ->
         exists col : list float,
           cols !! k = Some col /\
           scale_by C (t + k) (replicate N Np.floor) = Py.Ok col).
Proof.
  intros HA HB. induction Os as [|o Os IH]; intros t Hne HC; [done|].
  destruct Os as [|o' Os].
  - destruct (scale_by_ok C t (replicate (length B) 1%float)) as (col & Hcol & Hlen).
    { intros H. specialize (HC H). cbn in HC. lia. }
    exists [col]. cbn [backward_from]. rewrite Hcol. cbn.
    split; [done|]. split.
    + split; [done|]. repeat constructor.
      by rewrite Hlen, length_replicate.
    + intros k o0 Hk. cbn in Hk. lia.
  - destruct (IH (S t)) as (cols & Hcols & [Hlen Hshape] & Hfloor); [done| |].
    { intros H. specialize (HC H). cbn in *. lia. }
    destruct cols as [|next cols]; [done|].
    apply Forall_cons in Hshape as [Hnext Hshape].
    destruct (backward_step_spec N A B C t o next HA HB Hnext)
      as (col & Hcol & Hcollen & Hsil).
    { intros H. specialize (HC H). cbn in HC. lia. }
    exists (col :: next :: cols).
    change (backward_from A B C t (o :: o' :: Os)) with
      (cols ← backward_from A B C (S t) (o' :: Os);
       col ← backward_step A B C t o (default [] (head cols));
       Py.Ok (col :: cols)).
    rewrite Hcols. cbn. rewrite Hcol. cbn.
    split; [done|]. split.
    + split; [cbn in *; lia | by repeat constructor].
    + intros [|k] o0 Hk Ho0 Hs.
      * injection Ho0 as <-. exists col. rewrite Nat.add_0_r. by split; [|apply Hsil].
      * destruct (Hfloor k o0) as (c' & Hc' & Hscale); [cbn in *; lia | done | done |].
        exists c'. split; [done|]. by replace (t + S k)%nat with (S t + k)%nat by lia.
Qed.

(** C4, as claimed: every returned array would be finite.  Two runs show
    otherwise.  With emission probabilities that are all zero at the first
    observation, [alpha[:,0]] is NaN throughout and [C[0]] and [beta[:,0]]
    are infinite: position 0 gets no floor.  With emission probabilities
    that vanish at the second of two observations, [alpha[:,1]] does get
    the floor, [C[1]] is the largest finite float, and scaling the backward
    vectors by such a [C] overflows: [beta[:,0]] holds infinities. *)
Lemma passes_not_finite_counterexample :
  (exists (alpha beta : list (list float)) (C : list float),
     (forall log : float -> float, exists lp : float,
        forward_procedure log A_uniform silent_model PI_run [1%Z]
        = Py.Ok (lp, alpha, C)) /\
     backward_procedure A_uniform silent_model PI_run [1%Z] C = Py.Ok beta /\
     alpha = [replicate 4 nan] /\ C = [infinity] /\
     beta = [replicate 4 infinity]) /\
  (exists (a0 b0 b1 : list float) (c0 : float),
     (forall log : float -> float, exists lp : float,
        forward_procedure log A_sticky fading_model PI_run [1%Z; 2%Z]
        = Py.Ok (lp, [a0; replicate 4 Np.floor], [c0; Np.float_max])) /\
     backward_procedure A_sticky fading_model PI_run [1%Z; 2%Z]
       [c0; Np.float_max] = Py.Ok [b0; b1] /\
     b0 !! 1%nat = Some infinity) /\
  PrimFloat.is_finite nan = false /\ PrimFloat.is_finite infinity = false.
Proof.
  split; [|split; [|done]].
  - exists [replicate 4 nan], [replicate 4 infinity], [infinity].
    split; [intros log; eexists; by vm_compute|]. by vm_compute.
  - eexists _, _, _, _.
    split; [intros log; eexists; vm_compute; reflexivity|].
    split; by vm_compute.
Qed.

(** C4 (amended).  On at least one observation, with [A] of shape (N,N) and
    [B], [PI] of length [N], both passes run to completion and return arrays
    of shape (N,T).  At every position [t >= 1] the forward vector
    [alpha[:,t]] and the coefficient [C[t]] are finite, and where all
    emission probabilities of [O[t]] are zero [alpha[:,t]] is the floor
    1e-13 throughout.  At every position [t < T-1] where all emission
    probabilities of [O[t]] are zero, [beta[:,t]] is the floor throughout,
    scaled by [C[t]]. *)
Theorem passes_complete_and_floor (log : float -> float) (N : nat)
    (A : list (list float)) (B : list emission) (PI : list float)
    (o0 : Z) (Os : list Z) :
  has_shape N N A -> length B = N -> length PI = N ->
  exists (lp : float) (a0 : list float) (cols : list (list float))
         (c0 : float) (cs : list float) (beta : list (list float)),
    forward_procedure log A B PI (o0 :: Os)
    = Py.Ok (lp, a0 :: cols, c0 :: cs) /\
    has_shape N (S (length Os)) (a0 :: cols) /\
    length cs = length Os /\
    Forall (Forall Np.finite) cols /\ Forall Np.finite cs /\
    (forall (t : nat) (o : Z),
       Os !! t = Some o -> silent B o ->
       cols !! t = Some (replicate N Np.floor)) /\
    backward_procedure A B PI (o0 :: Os) (c0 :: cs) = Py.Ok beta /\
    has_shape N (S (length Os)) beta /\
    (forall (t : nat) (o : Z),
       (t < length Os)%nat -> (o0 :: Os) !! t = Some o -> silent B o ->
       exists col : list float,
         beta !! t = Some col /\
         scale_by (c0 :: cs) t (replicate N Np.floor) = Py.Ok col).
Proof.
  intros HA HB HPI. unfold forward_procedure.
  rewrite ew_ok by (rewrite length_b_at; lia). cbn.
  set (v := zip_with PrimFloat.mul PI (b_at B o0)).
  assert (Hv : length v = N).
  { unfold v. rewrite length_zip_with, length_b_at. lia. }
  rewrite assign_ok by lia. cbn.
  set (c0 := (1 / Np.sum v)%float).
  set (a0 := map (fun x => (c0 * x)%float) v).
  assert (Ha0 : length a0 = N) by (unfold a0; by rewrite length_map).
  destruct (forward_loop_spec N A B HA HB Os a0 Ha0)
    as (cols & cs & -> & [Hlen Hshape] & Hcs & Hfin & Hfcs & Hfloor).
  cbn.
  destruct (backward_from_spec N A B (c0 :: cs) HA HB (o0 :: Os) 0)
    as (beta & Hbeta & Hbshape & Hbfloor); [done | cbn; lia |].
  exists (- Np.sum (map log (c0 :: cs)))%float, a0, cols, c0, cs, beta.
  split; [by destruct B|]. split; [split; [cbn; lia | by constructor]|].
  do 4 (split; [done|]). split; [exact Hbeta|]. split; [exact Hbshape|].
  intros t o Ht Ho Hs. apply (Hbfloor t o); [cbn; lia | done | done].
Qed.

Lemma passes_complete_and_floor_witness :
  exists (alpha beta : list (list float)),
    alpha !! 1%nat = Some (replicate 4 Np.floor) /\
    length beta = 2%nat.
Proof.
  destruct (passes_complete_and_floor (fun x => x) 4 A_sticky fading_model
              PI_run 1%Z [2%Z])
    as (lp & a0 & cols & c0 & cs & beta & _ & _ & _ & _ & _ & Hfl & _ & [Hb _] & _).
  - split; [done | by repeat constructor].
  - done.
  - done.
  - exists (a0 :: cols), beta. split; [|exact Hb].
    apply (Hfl 0%nat 2%Z); [done|]. by repeat constructor.
Defined.

Lemma passes_on_one_observation_witness :
  (exists (s : nat) (delta : list (list float)) (Q : list (list nat)),
     viterbi (fun x => x) A_sticky fading_model PI_run [1%Z]
     = Py.Ok ([s], delta, Q) /\ (s < 4)%nat) /\
  (exists col : list float,
     backward_procedure A_sticky fading_model PI_run [1%Z]
       [(1 / Np.sum (zip_with PrimFloat.mul PI_run (b_at fading_model 1)))%float]
     = Py.Ok [col] /\
     Forall (fun x => PrimFloat.is_nan x = false) col).
Proof.
  destruct (passes_on_one_observation (fun x => x) A_sticky fading_model
              PI_run 1%Z) as ((s & delta & Q & Hv & Hs & _) & _ & _ & Hnan).
  - done.
  - done.
  - split; [exists s, delta, Q; by split|].
    destruct Hnan as (col & Hcol & _ & Hfree).
    + by repeat constructor.
    + reflexivity.
    + by exists col.
Defined.

End PassFloor.

(** ** The gene-level call *)
Section GeneFacts.
Import Genes.

Lemma get_tally_step (d : gmap Z Z) (st s : Z) :
  get (tally_step d st) s = (get d s + if decide (st = s) then 1 else 0)%Z.
Proof.
  unfold get, tally_step. destruct (decide (st = s)) as [->|Hne].
  - rewrite lookup_insert_eq. destruct (d !! s) eqn:E; cbn.
    + by rewrite E.
    + by rewrite lookup_insert_eq.
  - rewrite lookup_insert_ne by done.
    destruct (d !! st); [|rewrite lookup_insert_ne by done]; cbn; lia.
Qed.

Lemma get_fold_tally (sts : list Z) (s : Z) :
  forall d : gmap Z Z,
    get (fold_left tally_step sts d) s = (get d s + sites_in sts s)%Z.
Proof.
  unfold sites_in. induction sts as [|st sts IH]; intros d; cbn [fold_left].
  - cbn. lia.
  - rewrite IH, get_tally_step, filter_cons.
    destruct (decide (st = s)); cbn [length]; lia.
Qed.

(** The dictionary [statedist] holds, for each state, the number of the
    gene's sites in that state. *)
Lemma get_tally (sts : list Z) (s : Z) : get (tally sts) s = sites_in sts s.
Proof. unfold tally. rewrite get_fold_tally. done. Qed.

Lemma sites_in_nonneg (sts : list Z) (s : Z) : (0 <= sites_in sts s)%Z.
Proof. unfold sites_in. lia. Qed.

Lemma max_of_four (a0 a1 a2 a3 : Z) :
  exists s a : Z,
    max_tuple [(a0, 0); (a1, 1); (a2, 2); (a3, 3)]%Z = Py.Ok (a, s) /\
    ((s = 0 /\ a = a0) \/ (s = 1 /\ a = a1) \/
     (s = 2 /\ a = a2) \/ (s = 3 /\ a = a3))%Z /\
    (a0 <= a /\ a1 <= a /\ a2 <= a /\ a3 <= a)%Z /\
    ((a1 = a -> 1 <= s) /\ (a2 = a -> 2 <= s) /\ (a3 = a -> 3 <= s))%Z.
Proof.
  cbn [max_tuple max_scan]. unfold tuple_gt.
  repeat (cbn; match goal with
    | |- context [(?x <? ?y)%Z] =>
        is_var x; is_var y; destruct (Z.ltb_spec x y)
    | |- context [(?x =? ?y)%Z] =>
        is_var x; is_var y; destruct (Z.eqb_spec x y)
    end).
  all: eexists _, _; split; [reflexivity|]; lia.
Qed.

(** The vote: the label of a state of largest tally among 0..3, the one of
    highest index when several share that tally. *)
Lemma majority_spec (d : gmap Z Z) :
  exists (s : Z) (l : string),
    majority d = Py.Ok l /\ num2label !! s = Some l /\ (0 <= s <= 3)%Z /\
    (forall s' : Z, (0 <= s' <= 3)%Z ->
       (get d s' <= get d s)%Z /\ (get d s' = get d s -> (s' <= s)%Z)).
Proof.
  destruct (max_of_four (get d 0) (get d 1) (get d 2) (get d 3))
    as (s & a & Hmax & Hcase & Hge & Htie).
  assert (exists l : string, num2label !! s = Some l) as [l Hl].
  { destruct Hcase as [[-> _] | [[-> _] | [[-> _] | [-> _]]]]; by eexists. }
  exists s, l. split.
  { unfold majority. cbn [map]. rewrite Hmax.
    unfold mbind, Py.result_bind. cbn [snd]. by rewrite Hl. }
  split; [done|]. split; [lia|].
  intros s' Hs'.
  assert (s' = 0 \/ s' = 1 \/ s' = 2 \/ s' = 3)%Z
    as [-> | [-> | [-> | ->]]] by lia.
  all: destruct Hcase as [[-> ->] | [[-> ->] | [[-> ->] | [-> ->]]]]; lia.
Qed.

Lemma int_of_float_le (x : float) (k z : Z) :
  int_of_float x = Py.Ok k -> (0 <= z)%Z -> float_le_Z x z -> (k <= z)%Z.
Proof.
  unfold int_of_float, float_le_Z.
  destruct (Prim2SF x) as [s|s| |s m e]; try done.
  - intros [= <-]. done.
  - intros [= <-] Hz.
    destruct (Z.leb_spec 0 e) as [He|He].
    + destruct s; [|done]. intros _.
      pose proof (Z.pow_nonneg 2 e). nia.
    + assert (0 < 2 ^ (- e))%Z as Hpow by (apply Z.pow_pos_nonneg; lia).
      destruct s.
      * intros _.
        pose proof (Z.div_pos (Z.pos m) (2 ^ (- e)) ltac:(lia) Hpow). lia.
      * intros Hle. apply Z.div_le_upper_bound; [done | lia].
Qed.

Lemma call_unfold (ER VR : Z -> float -> float) (theta : float)
    (pos2state : gmap Z Z) (g : gene) (sts : list Z) (k : Z) :
  genestates pos2state g = Py.Ok sts ->
  (0 < n g)%Z -> sites_in sts 0 <> n g ->
  threshold (ER (n g) (1 - theta)%float) (VR (n g) (1 - theta)%float)
  = Py.Ok k ->
  gene_call ER VR theta pos2state g =
  if (k <=? sites_in sts 0)%Z then Py.Ok "ES" else majority (tally sts).
Proof.
  intros Hsts Hn Hn0 Hk. unfold gene_call. rewrite Hsts.
  change (call ER VR theta g (tally sts) =
          if (k <=? sites_in sts 0)%Z then Py.Ok "ES" else majority (tally sts)).
  unfold call. rewrite get_tally.
  destruct (Z.ltb_spec 0 (n g)); [|lia].
  destruct (Z.eqb_spec (sites_in sts 0) (n g)); [congruence|].
  rewrite Hk. done.
Qed.

(** C1, as claimed: a tie would go to the lowest state index.  A gene with
    one site in GD (index 1) and one in NE (index 2), below the run-length
    threshold, is called NE. *)
Lemma gene_call_tie_counterexample :
  genestates tie_states tie_gene = Py.Ok [1; 2]%Z /\
  sites_in [1; 2]%Z 1 = sites_in [1; 2]%Z 2 /\
  threshold 5 0 = Py.Ok 5%Z /\
  num2label !! 1%Z = Some "GD" /\
  gene_call (fun _ _ => 5%float) (fun _ _ => 0%float) 0.5 tie_states tie_gene
  = Py.Ok "NE".
Proof. repeat split; by vm_compute. Qed.

(** C1 (amended).  For a gene with [n > 0] sites that are not all in ES and
    whose ES tally is below the run-length threshold, the call is the label
    of a state of largest tally among 0..3; when several states share the
    largest tally it is the one of highest index. *)
Theorem gene_call_majority (ER VR : Z -> float -> float) (theta : float)
    (pos2state : gmap Z Z) (g : gene) (sts : list Z) (k : Z) :
  genestates pos2state g = Py.Ok sts ->
  (0 < n g)%Z -> sites_in sts 0 <> n g ->
  threshold (ER (n g) (1 - theta)%float) (VR (n g) (1 - theta)%float)
  = Py.Ok k ->
  (sites_in sts 0 < k)%Z ->
  exists (s : Z) (l : string),
    gene_call ER VR theta pos2state g = Py.Ok l /\
    num2label !! s = Some l /\ (0 <= s <= 3)%Z /\
    (forall s' : Z, (0 <= s' <= 3)%Z ->
       (sites_in sts s' <= sites_in sts s)%Z /\
       (sites_in sts s' = sites_in sts s -> (s' <= s)%Z)).
Proof.
  intros Hsts Hn Hn0 Hk Hlt.
  rewrite (call_unfold ER VR theta pos2state g sts k Hsts Hn Hn0 Hk).
  destruct (Z.leb_spec k (sites_in sts 0)); [lia|].
  destruct (majority_spec (tally sts)) as (s & l & Hm & Hl & Hs & Hbest).
  exists s, l. split; [done|]. split; [done|]. split; [done|].
  intros s' Hs'. rewrite <- !get_tally. by apply Hbest.
Qed.

Lemma gene_call_majority_witness :
  exists (s : Z) (l : string),
    gene_call (fun _ _ => 5%float) (fun _ _ => 0%float) 0.5 tie_states tie_gene
    = Py.Ok l /\ num2label !! s = Some l /\ (0 <= s <= 3)%Z.
Proof.
  destruct (gene_call_majority (fun _ _ => 5%float) (fun _ _ => 0%float) 0.5
              tie_states tie_gene [1; 2]%Z 5)
    as (s & l & Hc & Hl & Hs & _).
  - by vm_compute.
  - done.
  - by vm_compute.
  - by vm_compute.
  - by vm_compute.
  - by exists s, l.
Defined.

(** C2, as claimed: below [E + 3*sqrt(V)] there would be no override.  With
    [E = 3] and [V = 0.25] the threshold is 4.5 and [int] makes it 4: a gene
    of 10 sites, 4 in ES and 6 in NE, has [n0 = 4 < 4.5] and is called ES
    all the same, against its majority. *)
Lemma gene_call_override_counterexample :
  genestates mixed_states mixed_gene
  = Py.Ok [0; 0; 0; 0; 2; 2; 2; 2; 2; 2]%Z /\
  sites_in [0; 0; 0; 0; 2; 2; 2; 2; 2; 2]%Z 0 = 4%Z /\
  (3 + 3 * PrimFloat.sqrt 0.25)%float = 4.5%float /\
  (4 <? 4.5)%float = true /\
  threshold 3 0.25 = Py.Ok 4%Z /\
  majority (tally [0; 0; 0; 0; 2; 2; 2; 2; 2; 2]%Z) = Py.Ok "NE" /\
  gene_call (fun _ _ => 3%float) (fun _ _ => 0.25%float) 0.5
    mixed_states mixed_gene = Py.Ok "ES".
Proof. repeat split; by vm_compute. Qed.

(** C2 (amended).  For a gene with [n > 0] sites that are not all in ES,
    let [k = int(E + 3*sqrt(V))], the threshold truncated toward zero.  If
    [n0 >= k] the call is ES whatever the majority is; this is so in
    particular whenever [n0 >= E + 3*sqrt(V)].  If [n0 < k] there is no
    override: the call is the majority vote. *)
Theorem gene_call_override (ER VR : Z -> float -> float) (theta : float)
    (pos2state : gmap Z Z) (g : gene) (sts : list Z) (k : Z) :
  let E := ER (n g) (1 - theta)%float in
  let V := VR (n g) (1 - theta)%float in
  let n0 := sites_in sts 0 in
  genestates pos2state g = Py.Ok sts ->
  (0 < n g)%Z -> n0 <> n g ->
  threshold E V = Py.Ok k ->
  ((k <= n0)%Z -> gene_call ER VR theta pos2state g = Py.Ok "ES") /\
  (float_le_Z (E + 3 * PrimFloat.sqrt V)%float n0 ->
   gene_call ER VR theta pos2state g = Py.Ok "ES") /\
  ((n0 < k)%Z -> gene_call ER VR theta pos2state g = majority (tally sts)).
Proof.
  intros E V n0 Hsts Hn Hn0 Hk.
  rewrite (call_unfold ER VR theta pos2state g sts k Hsts Hn Hn0 Hk).
  fold n0.
  assert (Hle : float_le_Z (E + 3 * PrimFloat.sqrt V)%float n0 -> (k <= n0)%Z).
  { intros Hx. unfold threshold, math_sqrt in Hk.
    destruct (V <? 0)%float; [done|]. cbn in Hk.
    apply (int_of_float_le _ k n0 Hk); [apply sites_in_nonneg | exact Hx]. }
  split; [|split].
  - intros H. by destruct (Z.leb_spec k n0); [|lia].
  - intros H%Hle. by destruct (Z.leb_spec k n0); [|lia].
  - intros H. by destruct (Z.leb_spec k n0); [lia|].
Qed.

Lemma gene_call_override_witness :
  gene_call (fun _ _ => 3%float) (fun _ _ => 0.25%float) 0.5
    mixed_states mixed_gene = Py.Ok "ES".
Proof.
  refine (proj1 (gene_call_override (fun _ _ => 3%float) (fun _ _ => 0.25%float)
                   0.5 mixed_states mixed_gene
                   [0; 0; 0; 0; 2; 2; 2; 2; 2; 2]%Z 4 _ _ _ _) _).
  - by vm_compute.
  - done.
  - by vm_compute.
  - by vm_compute.
  - by vm_compute.
Defined.

End GeneFacts.

(** ** Construction of the method object *)
Section MethodFacts.
Import Method.

(** With a readable first control file the budget is four times the number
    of its data lines, plus one. *)
Lemma init_readable (self : obj) (fs : gmap string (list string))
    (ctrldata : list string) (path : string) (lines : list string) :
  ctrldata !! 0%nat = Some path -> fs !! path = Some lines ->
  init self fs ctrldata =
  Py.Ok (<["count" := Int 1]>
           (<["maxiterations" := Int (count_data_lines lines * 4 + 1)]> self)).
Proof.
  intros Hpath Hlines.
  unfold init, init_try, first_path, readlines.
  by rewrite Hpath, bind_Ok, Hlines.
Qed.

(** When the [try] block fails, the handler evaluates [self.self]: on an
    instance without an attribute of that name the construction ends in an
    [AttributeError]. *)
Lemma init_unreadable (self : obj) (fs : gmap string (list string))
    (ctrldata : list string) :
  self !! "self" = None ->
  Py.is_ok (init_try self fs ctrldata) = false ->
  init self fs ctrldata = Py.Raise Py.AttributeError.
Proof.
  intros Hself Hfail. unfold init.
  destruct (init_try self fs ctrldata); [done|].
  unfold Py.try_except, init_except, getattr. by rewrite Hself.
Qed.

(** C7 (the code departs from the claim).  With a first control file that
    cannot be read, the construction does not fall back to a budget of 100:
    it raises [AttributeError], from the handler's [self.self]. *)
Theorem init_fallback_raises :
  init ∅ ∅ ["missing.wig"] = Py.Raise Py.AttributeError /\
  init ∅ {["ctrl.wig" := ["# header"; "1 0"; "2 5"]]} ["ctrl.wig"]
  = Py.Ok {["count" := Int 1; "maxiterations" := Int 9]}.
Proof. split; by vm_compute. Qed.

End MethodFacts.

(** ** More on calculate_pins: what the pool keeps *)
Section PoolFacts.
Import Pins.

Lemma pooled_snoc_hit_eq (reads : list Z) (rd : Z) :
  (1 <= rd)%Z ->
  pooled (reads ++ [rd]) =
  pooled reads
    ++ (if (length (temp (loop reads init)) <? 10)%nat
        then temp (loop reads init) else [])
    ++ [rd].
Proof.
  intros Hrd. unfold pooled. rewrite loop_app.
  rewrite (loop_closed_run [] rd) by (done || constructor).
  cbn [non_ess_reads]. by rewrite app_nil_r.
Qed.

Lemma temp_snoc_zero (reads : list Z) (z : Z) :
  (z < 1)%Z -> temp (loop (reads ++ [z]) init) = temp (loop reads init) ++ [z].
Proof.
  intros Hz. rewrite loop_app.
  by rewrite (loop_zero_run [z]) by (repeat constructor; done).
Qed.

Lemma temp_snoc_hit (reads : list Z) (rd : Z) :
  (1 <= rd)%Z -> temp (loop (reads ++ [rd]) init) = [].
Proof.
  intros Hrd. rewrite loop_app.
  by rewrite (loop_closed_run [] rd) by (done || constructor).
Qed.

(** The loop invariant: the input splits into a part already decided and
    the pending zero-run [temp]; the pool is a subsequence of the decided
    part with the same counts [>= 1], and holds at most nine zeros for each
    of them. *)
Lemma loop_invariant (reads : list Z) :
  exists pre : list Z,
    reads = pre ++ temp (loop reads init) /\
    Forall (fun z => (z < 1)%Z) (temp (loop reads init)) /\
    pooled reads `sublist_of` pre /\
    filter (fun rd => (1 <= rd)%Z) (pooled reads)
    = filter (fun rd => (1 <= rd)%Z) pre /\
    (Z.of_nat (length (pooled reads)) <= 10 * count_hits (pooled reads))%Z.
Proof.
  induction reads as [|x reads IH] using rev_ind.
  - exists []. repeat split; done.
  - destruct IH as (pre & Hsplit & Hzero & Hsub & Hfilter & Hlen).
    destruct (Z.lt_ge_cases x 1) as [Hlt|Hge].
    + exists pre. rewrite temp_snoc_zero, pooled_snoc_zero by done.
      split; [by rewrite app_assoc, <- Hsplit|].
      split; [apply Forall_app; split; [done | by repeat constructor]|].
      done.
    + exists (reads ++ [x]). rewrite temp_snoc_hit, pooled_snoc_hit_eq by done.
      set (tmp := temp (loop reads init)) in *.
      set (kept := if (length tmp <? 10)%nat then tmp else []).
      assert (Hkept : kept `sublist_of` tmp /\ (length kept <= 9)%nat /\
                      Forall (fun z => (z < 1)%Z) kept).
      { unfold kept. destruct (Nat.ltb_spec (length tmp) 10).
        - split; [done|]. split; [lia | done].
        - split; [apply sublist_nil_l|]. split; [cbn; lia | constructor]. }
      destruct Hkept as (Hksub & Hklen & Hkzero).
      assert (Hnohit : forall l : list Z, Forall (fun z => (z < 1)%Z) l ->
                filter (fun rd => (1 <= rd)%Z) l = []).
      { intros l Hl. induction Hl as [|z l Hz _ IHl]; [done|].
        rewrite filter_cons. destruct (decide (1 <= z)%Z); [lia | done]. }
      split; [by rewrite app_nil_r|]. split; [constructor|].
      split; [|split].
      * rewrite Hsplit at 2. rewrite <- app_assoc.
        apply sublist_app; [done|]. by apply sublist_app.
      * rewrite Hsplit at 2. rewrite !filter_app, Hfilter.
        rewrite (Hnohit kept), (Hnohit tmp) by done. by rewrite app_nil_r.
      * rewrite !count_hits_length in *. rewrite !filter_app, !length_app.
        rewrite (Hnohit kept Hkzero), filter_cons.
        destruct (decide (1 <= x)%Z); [|lia]. cbn [length]. lia.
Qed.

Lemma filter_hits_zero_run (pre zs : list Z) :
  Forall (fun z => (z < 1)%Z) zs ->
  filter (fun rd => (1 <= rd)%Z) (pre ++ zs) = filter (fun rd => (1 <= rd)%Z) pre.
Proof.
  intros Hz. rewrite filter_app.
  replace (filter _ zs) with (@nil Z); [by rewrite app_nil_r|].
  induction Hz as [|z zs Hzlt _ IH]; [done|].
  rewrite filter_cons. destruct (decide (1 <= z)%Z); [lia | done].
Qed.

Lemma pooled_keeps_hits_aux (reads : list Z) :
  pooled reads `sublist_of` reads /\
  filter (fun rd => (1 <= rd)%Z) (pooled reads)
  = filter (fun rd => (1 <= rd)%Z) reads.
Proof.
  destruct (loop_invariant reads) as (pre & Hsplit & Hzero & Hsub & Hfilter & _).
  split.
  - rewrite Hsplit at 2. by apply sublist_inserts_r.
  - rewrite Hsplit at 2. by rewrite filter_hits_zero_run.
Qed.

(** X1.  The pool is a subsequence of the input that keeps every count
    [>= 1], in order: only zero counts are ever left out. *)
Theorem pooled_keeps_hits (reads : list Z) :
  pooled reads `sublist_of` reads /\
  filter (fun rd => (1 <= rd)%Z) (pooled reads)
  = filter (fun rd => (1 <= rd)%Z) reads /\
  count_hits (pooled reads) = count_hits reads.
Proof.
  destruct (pooled_keeps_hits_aux reads) as [Hsub Hf].
  split; [exact Hsub|]. split; [exact Hf|].
  by rewrite !count_hits_length, Hf.
Qed.

Lemma truediv_bounds (hits len : Z) (q : Q) :
  (len <= 10 * hits)%Z -> (0 <= hits <= len)%Z ->
  truediv hits len = Py.Ok q ->
  (0 < len)%Z /\ (1 # 10 <= q)%Q /\ (q <= 1)%Q.
Proof.
  intros Hten Hhits. unfold truediv.
  destruct (Z.eqb_spec len 0) as [|Hne]; [done|]. intros [= <-].
  assert (0 < len)%Z as Hpos by lia.
  assert (0 < inject_Z len)%Q as HposQ.
  { change 0%Q with (inject_Z 0). by rewrite <- Zlt_Qlt. }
  split; [done|]. split.
  - apply Qle_shift_div_l; [exact HposQ|].
    unfold Qle, Qmult, inject_Z. cbn. lia.
  - apply Qle_shift_div_r; [exact HposQ|]. rewrite Qmult_1_l.
    rewrite <- Zle_Qle. lia.
Qed.

(** X2.  Whenever [calculate_pins] returns, the density it returns is
    between 1/10 and 1: every pooled zero-run has fewer than 10 entries and
    is closed by a count [>= 1]. *)
Theorem calculate_pins_at_least_tenth (reads : list Z) (q : Q) :
  calculate_pins reads = Py.Ok q -> (1 # 10 <= q)%Q /\ (q <= 1)%Q.
Proof.
  intros Hq.
  destruct (loop_invariant reads) as (_ & _ & _ & _ & _ & Hlen).
  pose proof (count_hits_bounds (pooled reads)) as Hhits.
  by destruct (truediv_bounds _ _ q Hlen Hhits Hq) as (_ & Hlo & Hhi).
Qed.

Lemma calculate_pins_at_least_tenth_witness :
  (1 # 10 <= 2 # 12)%Q /\ (2 # 12 <= 1)%Q.
Proof.
  apply (calculate_pins_at_least_tenth scenario (2 # 12)). reflexivity.
Defined.

Lemma length_filter_reads_of (O : list Z) :
  length (filter (fun rd => (1 <= rd)%Z) (RunParams.reads_of O))
  = length (filter (fun rd => (2 <= rd)%Z) O).
Proof.
  unfold RunParams.reads_of. induction O as [|o O IH]; [done|].
  cbn [map]. rewrite !filter_cons.
  destruct (decide (1 <= o - 1)%Z), (decide (2 <= o)%Z); cbn [length]; lia.
Qed.

(** X4.  In [Run] the estimated density is never below the observed one:
    whenever [calculate_pins] returns on the counts [O-1], [pins_obs] is
    defined too and [pins_obs <= pins]. *)
Theorem pins_obs_le_pins (O : list Z) (q : Q) :
  RunParams.pins O = Py.Ok q ->
  exists q' : Q, RunParams.pins_obs O = Py.Ok q' /\ (q' <= q)%Q.
Proof.
  unfold RunParams.pins, RunParams.pins_obs, calculate_pins. intros Hq.
  destruct (pooled_keeps_hits_aux (RunParams.reads_of O)) as (Hsub & Hfilter).
  apply sublist_length in Hsub.
  destruct (loop_invariant (RunParams.reads_of O)) as (_ & _ & _ & _ & _ & Hlen).
  pose proof (count_hits_bounds (pooled (RunParams.reads_of O))) as Hhits.
  destruct (truediv_bounds _ _ q Hlen Hhits Hq) as (Hpos & _ & _).
  rewrite fold_add_ones_shift, Z.add_0_l, <- length_filter_reads_of, <- Hfilter.
  rewrite <- count_hits_length.
  assert (Hlo : length (RunParams.reads_of O) = length O) by apply length_map.
  revert Hq. unfold truediv.
  set (hits := count_hits _) in *.
  destruct (Z.eqb_spec (Z.of_nat (length (pooled (RunParams.reads_of O)))) 0)
    as [|_]; [lia|].
  destruct (Z.eqb_spec (Z.of_nat (length O)) 0) as [|_]; [lia|].
  intros [= <-]. eexists. split; [reflexivity|].
  destruct (Z.of_nat (length O)) as [|lo|lo] eqn:En; try lia.
  destruct (Z.of_nat (length (pooled (RunParams.reads_of O)))) as [|lp|lp] eqn:Em;
    try lia.
  unfold Qle, Qdiv, Qmult, Qinv, inject_Z. cbn. nia.
Qed.

Lemma pins_obs_le_pins_witness :
  exists q' : Q, RunParams.pins_obs [1; 4; 1; 1]%Z = Py.Ok q' /\ (q' <= 1 # 2)%Q.
Proof.
  apply (pins_obs_le_pins [1; 4; 1; 1]%Z (1 # 2)). reflexivity.
Defined.

End PoolFacts.

(** ** Viterbi decoding on any number of observations *)
Section ViterbiFacts.
Import Hmm.

Lemma mapM_ok {X Y : Type} (f : X -> Py.result Y) (g : X -> Y) (l : list X) :
  Forall (fun x => f x = Py.Ok (g x)) l -> Np.mapM f l = Py.Ok (map g l).
Proof.
  induction 1 as [|x l Hx _ IH]; [done|].
  cbn [Np.mapM map]. by rewrite Hx, bind_Ok, IH, bind_Ok.
Qed.

Lemma mapM_inv {X Y : Type} (f : X -> Py.result Y) (l : list X) (r : list Y) :
  Np.mapM f l = Py.Ok r -> Forall2 (fun x y => f x = Py.Ok y) l r.
Proof.
  revert r. induction l as [|x l IH]; intros r; cbn [Np.mapM].
  - intros [= <-]. constructor.
  - destruct (f x) as [y|e] eqn:Hx; [|done]. rewrite bind_Ok.
    destruct (Np.mapM f l) as [ys|e]; [|done]. rewrite bind_Ok.
    intros [= <-]. constructor; [done | by apply IH].
Qed.

Lemma max_ok (v : list float) :
  v <> [] -> exists m : float, Np.max v = Py.Ok m.
Proof. destruct v; [done|]. intros _. by eexists. Qed.

Lemma mapM_max_ok (N : nat) (rows : list (list float)) :
  (1 <= N)%nat -> Forall (fun row => length row = N) rows ->
  exists mx : list float,
    Np.mapM Np.max rows = Py.Ok mx /\ length mx = length rows.
Proof.
  intros HN. induction 1 as [|row rows Hrow _ IH].
  - by exists [].
  - destruct IH as (mx & Hmx & Hlen).
    destruct (max_ok row) as [m Hm]; [by destruct row; [cbn in *; lia|]|].
    exists (m :: mx). cbn [Np.mapM]. rewrite Hm, bind_Ok, Hmx, bind_Ok.
    split; [done | cbn; lia].
Qed.

Lemma mapM_argmax_ok (N : nat) (rows : list (list float)) :
  (1 <= N)%nat -> Forall (fun row => length row = N) rows ->
  exists q : list nat,
    Np.mapM Np.argmax rows = Py.Ok q /\ length q = length rows /\
    Forall (fun s => (s < N)%nat) q.
Proof.
  intros HN. induction 1 as [|row rows Hrow _ IH].
  - by exists [].
  - destruct IH as (q & Hq & Hlen & Hval).
    destruct (argmax_ok row) as (k & Hk & Hlt);
      [by destruct row; [cbn in *; lia|]|].
    exists (k :: q). cbn [Np.mapM]. rewrite Hk, bind_Ok, Hq, bind_Ok.
    split; [done|]. split; [cbn; lia|]. constructor; [lia | done].
Qed.

(** One step of the loop on well-shaped operands. *)
Lemma viterbi_step_spec (log : float -> float) (N : nat)
    (A : list (list float)) (B : list emission) (prev : list float) (o : Z) :
  (1 <= N)%nat -> has_shape N N A -> length B = N -> length prev = N ->
  exists (d : list float) (q : list nat),
    viterbi_step log A B prev o = Py.Ok (d, q) /\
    length d = N /\ length q = N /\ Forall (fun s => (s < N)%nat) q.
Proof.
  intros HN [HlenA Hrows] HB Hprev. unfold viterbi_step.
  rewrite (mapM_ok _ (zip_with PrimFloat.add prev) A).
  2:{ eapply Forall_impl; [exact Hrows|]. intros row Hrow. cbn in *.
      apply ew_ok. lia. }
  rewrite bind_Ok.
  set (nus := map (zip_with PrimFloat.add prev) A).
  assert (Hnus : Forall (fun row => length row = N) nus).
  { unfold nus. apply Forall_map. eapply Forall_impl; [exact Hrows|].
    intros row Hrow. cbn in *. rewrite length_zip_with. lia. }
  assert (Hlen : length nus = N) by (unfold nus; by rewrite length_map).
  destruct (mapM_max_ok N nus HN Hnus) as (mx & Hmax & Hmx).
  rewrite Hlen in Hmx. rewrite Hmax. clear Hmax.
  rewrite bind_Ok.
  rewrite ew_ok by (rewrite length_map, length_b_at; lia). rewrite bind_Ok.
  rewrite assign_ok by (rewrite length_zip_with, length_map, length_b_at; lia).
  rewrite bind_Ok.
  destruct (mapM_argmax_ok N nus HN Hnus) as (q & Harg & Hq & Hval).
  rewrite Hlen in Hq. rewrite Harg. clear Harg.
  rewrite bind_Ok.
  rewrite assign_ok by lia. rewrite bind_Ok.
  eexists _, q. split; [reflexivity|].
  split; [|done]. rewrite length_zip_with, length_map, length_b_at. lia.
Qed.

Lemma viterbi_loop_spec (log : float -> float) (N : nat)
    (A : list (list float)) (B : list emission) :
  (1 <= N)%nat -> has_shape N N A -> length B = N ->
  forall (Os : list Z) (prev : list float),
    length prev = N ->
    exists (ds : list (list float)) (qs : list (list nat)),
      viterbi_loop log A B prev Os = Py.Ok (ds, qs) /\
      has_shape N (length Os) ds /\ has_shape N (length Os) qs /\
      Forall (Forall (fun s => (s < N)%nat)) qs.
Proof.
  intros HN HA HB. induction Os as [|o Os IH]; intros prev Hprev.
  - exists [], []. repeat split; done || constructor.
  - destruct (viterbi_step_spec log N A B prev o HN HA HB Hprev)
      as (d & q & Hstep & Hd & Hq & Hval).
    destruct (IH d Hd) as (ds & qs & Hloop & [Hl1 Hs1] & [Hl2 Hs2] & Hvals).
    exists (d :: ds), (q :: qs). cbn [viterbi_loop].
    rewrite Hstep, bind_Ok. cbn beta iota. rewrite Hloop, bind_Ok.
    split; [done|].
    split; [split; [cbn; lia | by constructor]|].
    split; [split; [cbn; lia | by constructor]|].
    by constructor.
Qed.

Lemma last_Forall {X : Type} (P : X -> Prop) (l : list X) (d : X) :
  Forall P l -> P d -> P (List.last l d).
Proof.
  intros Hl Hd. induction Hl as [|x l Hx Hl IH]; [done|].
  cbn [List.last]. by destruct l.
Qed.

(** The path [backtrack] builds: one state more than there are backpointer
    columns, ending in the final state, each state the backpointer of its
    successor. *)
Lemma backtrack_inv (qs : list (list nat)) (final : nat) (path : list nat) :
  backtrack qs final = Py.Ok path ->
  length path = S (length qs) /\
  last path = Some final /\
  (forall (t s s' : nat) (col : list nat),
     path !! t = Some s -> path !! S t = Some s' -> qs !! t = Some col ->
     col !! s' = Some s).
Proof.
  revert path. induction qs as [|col qs IH]; intros path; cbn [backtrack].
  - intros [= <-]. repeat split; [done..|]. intros [|t] ? ? ? ?; done.
  - destruct (backtrack qs final) as [rest|e]; [|done]. rewrite bind_Ok.
    destruct (IH rest eq_refl) as (Hlen & Hlast & Hstep).
    destruct rest as [|s1 rest]; [done|]. cbn [head mbind option_bind].
    destruct (col !! s1) as [s0|] eqn:Hs0; [|done]. intros [= <-].
    split; [cbn in *; lia|]. split; [done|].
    intros [|t] s s' c Hs Hs' Hc.
    + cbn in Hs, Hs', Hc. by simplify_eq.
    + cbn in Hs, Hs', Hc. by apply (Hstep t s s' c).
Qed.

Lemma backtrack_ok (N : nat) (qs : list (list nat)) (final : nat) :
  has_shape N (length qs) qs ->
  Forall (Forall (fun s => (s < N)%nat)) qs -> (final < N)%nat ->
  exists path : list nat,
    backtrack qs final = Py.Ok path /\ Forall (fun s => (s < N)%nat) path.
Proof.
  intros [_ Hshape] Hvals Hfinal.
  induction qs as [|col qs IH]; cbn [backtrack].
  - exists [final]. by repeat constructor.
  - apply Forall_cons in Hshape as [Hcol Hshape].
    apply Forall_cons in Hvals as [Hval Hvals].
    destruct (IH Hshape Hvals) as (rest & Heq & Hrest).
    pose proof (backtrack_inv _ _ _ Heq) as [Hlen _].
    rewrite Heq, bind_Ok.
    destruct rest as [|s1 rest]; [done|].
    apply Forall_cons in Hrest as Hrest'. destruct Hrest' as [Hs1 _].
    cbn [head mbind option_bind].
    destruct (lookup_lt_is_Some_2 col s1) as [s0 Hs0]; [lia|].
    rewrite Hs0. exists (s0 :: s1 :: rest). split; [done|].
    constructor; [|done].
    rewrite Forall_forall in Hval. apply Hval.
    by apply list_elem_of_lookup_2 in Hs0.
Qed.

Lemma viterbi_loop_length (log : float -> float) (A : list (list float))
    (B : list emission) (Os : list Z) :
  forall (prev : list float) (ds : list (list float)) (qs : list (list nat)),
    viterbi_loop log A B prev Os = Py.Ok (ds, qs) ->
    length ds = length Os /\ length qs = length Os.
Proof.
  induction Os as [|o Os IH]; intros prev ds qs; cbn [viterbi_loop].
  - by intros [= <- <-].
  - destruct (viterbi_step log A B prev o) as [[d q]|e]; [|done].
    rewrite bind_Ok. cbn beta iota.
    destruct (viterbi_loop log A B d Os) as [[ds' qs']|e] eqn:Hloop; [|done].
    rewrite bind_Ok. intros [= <- <-].
    destruct (IH d ds' qs' Hloop). cbn. lia.
Qed.

Lemma viterbi_inv (log : float -> float) (A : list (list float))
    (B : list emission) (PI : list float) (O : list Z)
    (Q_opt : list nat) (delta : list (list float)) (Q : list (list nat)) :
  viterbi log A B PI O = Py.Ok (Q_opt, delta, Q) ->
  exists (d0 : list float) (ds : list (list float)) (qs : list (list nat))
         (final : nat),
    delta = d0 :: ds /\ Q = replicate (length B) 0%nat :: qs /\
    S (length qs) = length O /\
    Np.argmax (List.last ds d0) = Py.Ok final /\
    backtrack qs final = Py.Ok Q_opt.
Proof.
  unfold viterbi. destruct O as [|o0 Os].
  { destruct B; [|done]. by destruct (Np.ew _ _ _). }
  destruct (Np.ew _ _ _) as [d0'|e]; [|by destruct B]. rewrite bind_Ok.
  destruct (Np.assign _ _) as [d0|e]; [|by destruct B]. rewrite bind_Ok.
  destruct (viterbi_loop log A B d0 Os) as [[ds qs]|e] eqn:Hloop; [|by destruct B].
  rewrite bind_Ok. cbn beta iota.
  destruct (Np.argmax _) as [final|e] eqn:Hfinal; [|by destruct B].
  rewrite bind_Ok.
  destruct (backtrack qs final) as [path|e] eqn:Hpath; [|by destruct B].
  rewrite bind_Ok. intros Heq.
  assert (path = Q_opt /\ d0 :: ds = delta /\
          replicate (length B) 0%nat :: qs = Q) as (<- & <- & <-).
  { destruct B; by simplify_eq. }
  destruct (viterbi_loop_length log A B Os d0 ds qs Hloop) as [_ Hqs].
  exists d0, ds, qs, final. repeat split; try done. cbn. lia.
Qed.

Lemma last_cons_default {X : Type} (l : list X) (d : X) :
  last (d :: l) = Some (List.last l d).
Proof.
  revert d. induction l as [|x l IH]; intros d; [done|].
  change (last (d :: x :: l)) with (last (x :: l)). rewrite IH.
  f_equal. destruct l as [|y l]; [done|].
  change (List.last (x :: y :: l) d) with (List.last (y :: l) d).
  clear IH. revert y. induction l as [|z l IHl]; intros y; [done|].
  change (List.last (y :: z :: l) x) with (List.last (z :: l) x).
  change (List.last (y :: z :: l) d) with (List.last (z :: l) d).
  apply IHl.
Qed.

(** X5.  On any [T >= 1] observations, with at least one state, [A] of
    shape (N,N) and [PI] of length [N], [viterbi] returns: the path has one
    valid state index per observation, and [delta] and [Q] have shape
    (N,T).  The backtracking never indexes outside [Q]. *)
Theorem viterbi_path_valid (log : float -> float) (N : nat)
    (A : list (list float)) (B : list emission) (PI : list float)
    (o0 : Z) (Os : list Z) :
  (1 <= N)%nat -> has_shape N N A -> length B = N -> length PI = N ->
  exists (Q_opt : list nat) (delta : list (list float)) (Q : list (list nat)),
    viterbi log A B PI (o0 :: Os) = Py.Ok (Q_opt, delta, Q) /\
    length Q_opt = S (length Os) /\
    Forall (fun s => (s < N)%nat) Q_opt /\
    has_shape N (S (length Os)) delta /\
    has_shape N (S (length Os)) Q.
Proof.
  intros HN HA HB HPI. unfold viterbi.
  rewrite ew_ok by (rewrite !length_map, length_b_at; lia). rewrite bind_Ok.
  set (d0 := zip_with PrimFloat.add _ _).
  assert (Hd0 : length d0 = N).
  { unfold d0. rewrite length_zip_with, !length_map, length_b_at. lia. }
  rewrite assign_ok by lia. rewrite bind_Ok.
  destruct (viterbi_loop_spec log N A B HN HA HB Os d0 Hd0)
    as (ds & qs & Hloop & [Hl1 Hs1] & [Hl2 Hs2] & Hvals).
  rewrite Hloop, bind_Ok. cbn beta iota.
  destruct (argmax_ok (List.last ds d0)) as (final & Hfinal & Hlt).
  { pose proof (last_Forall _ ds d0 Hs1 Hd0) as Hlast. cbn in Hlast.
    intros E. rewrite E in Hlast. cbn in Hlast. lia. }
  rewrite (last_Forall _ ds d0 Hs1 Hd0) in Hlt.
  rewrite Hfinal, bind_Ok.
  destruct (backtrack_ok N qs final) as (path & Hpath & Hvalid);
    [by split | done | done |].
  destruct (backtrack_inv qs final path Hpath) as (Hlen & _ & _).
  rewrite Hpath, bind_Ok.
  exists path, (d0 :: ds), (replicate (length B) 0%nat :: qs).
  split; [by destruct B|]. split; [lia|]. split; [done|].
  split; (split; [cbn; lia|]); constructor; try done.
  rewrite length_replicate. done.
Qed.

Lemma viterbi_path_valid_witness :
  exists (Q_opt : list nat) (delta : list (list float)) (Q : list (list nat)),
    viterbi (fun x => x) A_sticky fading_model PI_run [1; 2; 1]%Z
    = Py.Ok (Q_opt, delta, Q) /\ length Q_opt = 3%nat.
Proof.
  destruct (viterbi_path_valid (fun x => x) 4 A_sticky fading_model PI_run
              1%Z [2; 1]%Z) as (Q_opt & delta & Q & Hv & Hlen & _).
  - lia.
  - split; [done | by repeat constructor].
  - done.
  - done.
  - by exists Q_opt, delta, Q.
Defined.

(** X6.  Whatever [viterbi] returns is consistent with its own tables: the
    path has one state per observation, its last state is the first index of
    the maximum of the last column of [delta], and every earlier state is
    the backpointer [Q[s', t+1]] of the state [s'] that follows it. *)
Theorem viterbi_path_follows_backpointers (log : float -> float)
    (A : list (list float)) (B : list emission) (PI : list float) (O : list Z)
    (Q_opt : list nat) (delta : list (list float)) (Q : list (list nat)) :
  viterbi log A B PI O = Py.Ok (Q_opt, delta, Q) ->
  length Q_opt = length O /\
  (exists (final : nat) (d_last : list float),
     last Q_opt = Some final /\ last delta = Some d_last /\
     Np.argmax d_last = Py.Ok final) /\
  (forall (t s s' : nat) (col : list nat),
     Q_opt !! t = Some s -> Q_opt !! S t = Some s' -> Q !! S t = Some col ->
     col !! s' = Some s).
Proof.
  intros Hv.
  destruct (viterbi_inv _ _ _ _ _ _ _ _ Hv)
    as (d0 & ds & qs & final & -> & -> & Hlen & Hfinal & Hpath).
  destruct (backtrack_inv qs final Q_opt Hpath) as (Hplen & Hlast & Hstep).
  split; [lia|]. split.
  - exists final, (List.last ds d0). split; [done|].
    split; [apply last_cons_default | done].
  - intros t s s' col Hs Hs' Hcol. cbn in Hcol. by apply (Hstep t s s' col).
Qed.

Lemma viterbi_path_follows_backpointers_witness :
  exists (Q_opt : list nat) (delta : list (list float)) (Q : list (list nat)),
    viterbi (fun x => x) A_sticky fading_model PI_run [1; 2; 1]%Z
    = Py.Ok (Q_opt, delta, Q) /\ length Q_opt = 3%nat.
Proof.
  eexists _, _, _. split; [vm_compute; reflexivity|].
  refine (proj1 (viterbi_path_follows_backpointers (fun x => x) A_sticky
                   fading_model PI_run [1; 2; 1]%Z _ _ _ _)).
  vm_compute. reflexivity.
Defined.

Lemma leb_not_nan (x y : float) :
  (x <=? y)%float = true -> PrimFloat.is_nan x = false.
Proof.
  rewrite FloatAxioms.leb_spec. unfold PrimFloat.is_nan.
  rewrite FloatAxioms.eqb_spec.
  destruct (Prim2SF x) as [s|s| |s m e]; try (destruct s; done).
  - done.
  - intros _. unfold SFeqb, SFcompare.
    destruct s; rewrite Z.compare_refl, Pos.compare_refl; done.
Qed.

(** Past the maximum, the scan changes nothing. *)
Lemma argmax_scan_after (v : list float) (m : float) :
  PrimFloat.is_nan m = false ->
  Forall (fun x => (x <=? m)%float = true) v ->
  forall i ind : nat, Np.argmax_scan v i m ind = (m, ind).
Proof.
  intros Hm Hv. induction Hv as [|x v Hx _ IH]; intros i ind; [done|].
  cbn [Np.argmax_scan]. by rewrite Hm, Hx.
Qed.

(** Up to the first maximum, the running maximum is an earlier entry, below
    the maximum; the maximum replaces it. *)
Lemma argmax_scan_before (v : list float) (m : float) :
  forall (k i ind : nat) (mp : float),
    v !! k = Some m ->
    Forall (fun x => (x <=? m)%float = true) v ->
    (forall (j : nat) (x : float),
       (j < k)%nat -> v !! j = Some x -> (m <=? x)%float = false) ->
    (mp <=? m)%float = true -> (m <=? mp)%float = false ->
    Np.argmax_scan v i mp ind = (m, (i + k)%nat).
Proof.
  induction v as [|x v IH]; intros k i ind mp Hk Hall Hbefore Hmp Hlt; [done|].
  apply Forall_cons in Hall as [Hx Hall].
  cbn [Np.argmax_scan]. rewrite (leb_not_nan mp m Hmp).
  destruct k as [|k].
  - injection Hk as ->. rewrite Hlt, Nat.add_0_r.
    apply argmax_scan_after; [by apply (leb_not_nan m m) | done].
  - cbn in Hk.
    assert (Hx' : (m <=? x)%float = false) by (apply (Hbefore 0%nat); [lia | done]).
    assert (Hrest : forall (j : nat) (y : float),
              (j < k)%nat -> v !! j = Some y -> (m <=? y)%float = false).
    { intros j y Hj Hy. apply (Hbefore (S j)); [lia | done]. }
    replace (i + S k)%nat with (S i + k)%nat by lia.
    destruct (x <=? mp)%float; by apply IH.
Qed.

(** X7.  [argmax] and [max] keep the first of equal maxima: when the entry
    at index [k] is at least every entry of the vector and none before it is
    as large, [argmax] returns [k] and [max] that entry. *)
Theorem argmax_first_maximum (v : list float) (k : nat) (m : float) :
  v !! k = Some m ->
  Forall (fun x => (x <=? m)%float = true) v ->
  (forall (j : nat) (x : float),
     (j < k)%nat -> v !! j = Some x -> (m <=? x)%float = false) ->
  Np.argmax v = Py.Ok k /\ Np.max v = Py.Ok m.
Proof.
  intros Hk Hall Hbefore. destruct v as [|x v]; [done|].
  apply Forall_cons in Hall as [Hx Hall]. unfold Np.argmax, Np.max.
  destruct k as [|k].
  - injection Hk as ->.
    by rewrite (argmax_scan_after v m (leb_not_nan m m Hx) Hall).
  - cbn in Hk.
    rewrite (argmax_scan_before v m k 1 0 x Hk Hall); [done| |done|].
    + intros j y Hj Hy. apply (Hbefore (S j)); [lia | done].
    + apply (Hbefore 0%nat); [lia | done].
Qed.

Lemma argmax_first_maximum_witness :
  Np.argmax [1; 3; 2; 3]%float = Py.Ok 1%nat /\
  Np.max [1; 3; 2; 3]%float = Py.Ok 3%float.
Proof.
  apply (argmax_first_maximum [1; 3; 2; 3]%float 1 3%float).
  - done.
  - by repeat constructor.
  - intros [|j] x Hj Hx; [|lia]. by injection Hx as <-.
Defined.

End ViterbiFacts.

(** ** The backward pass and its coefficients *)
Section BackwardFacts.
Import Hmm.

Lemma scale_by_unused (C : list float) (t : nat) (col : list float) :
  Np.any C = false -> scale_by C t col = Py.Ok col.
Proof. intros HC. unfold scale_by. by rewrite HC. Qed.

Lemma backward_from_unused (A : list (list float)) (B : list emission)
    (C : list float) (Os : list Z) :
  Np.any C = false ->
  forall t : nat, backward_from A B C t Os = backward_from A B [] t Os.
Proof.
  intros HC. induction Os as [|o Os IH]; intros t; [done|].
  cbn [backward_from]. destruct Os as [|o' Os].
  - by rewrite !scale_by_unused.
  - rewrite (IH (S t)). unfold backward_step.
    destruct (backward_from A B [] (S t) (o' :: Os)) as [cols|e]; [|done].
    rewrite !bind_Ok.
    destruct (Np.ew _ _ _) as [w|e]; [|done]. rewrite !bind_Ok.
    destruct (Np.dot_mv A w) as [d|e]; [|done]. rewrite !bind_Ok.
    destruct (Np.assign _ _) as [col|e]; [|done]. rewrite !bind_Ok.
    by rewrite !scale_by_unused.
Qed.

(** X8.  Coefficients that are all zero switch the scaling off: the
    backward pass then returns exactly what it returns with no coefficients
    at all, [beta[:,T-1]] being 1 throughout. *)
Theorem backward_zero_coefficients_unscaled (A : list (list float))
    (B : list emission) (PI : list float) (O : list Z) (C : list float) :
  Np.any C = false ->
  backward_procedure A B PI O C = backward_procedure A B PI O [] /\
  (forall beta : list (list float),
     backward_procedure A B PI O C = Py.Ok beta ->
     last beta = Some (replicate (length B) 1%float)).
Proof.
  intros HC. unfold backward_procedure.
  split; [by apply backward_from_unused|].
  rewrite (backward_from_unused A B C O HC). generalize 0%nat.
  induction O as [|o Os IH]; intros t beta; [done|].
  cbn [backward_from]. destruct Os as [|o' Os].
  - rewrite scale_by_unused by done. rewrite bind_Ok. by intros [= <-].
  - destruct (backward_from A B [] (S t) (o' :: Os)) as [cols|e] eqn:Hcols;
      [|done].
    rewrite bind_Ok.
    destruct (backward_step A B [] t o _) as [col|e]; [|done].
    rewrite bind_Ok. intros [= <-].
    specialize (IH (S t) cols Hcols).
    destruct cols as [|c cols]; [done|]. exact IH.
Qed.

Lemma backward_zero_coefficients_unscaled_witness :
  backward_procedure A_uniform silent_model PI_run [1; 2]%Z [0; 0]%float
  = backward_procedure A_uniform silent_model PI_run [1; 2]%Z [].
Proof.
  apply (backward_zero_coefficients_unscaled A_uniform silent_model PI_run
           [1; 2]%Z [0; 0]%float).
  reflexivity.
Defined.

Lemma backward_from_short (A : list (list float)) (B : list emission)
    (C : list float) (Os : list Z) :
  Np.any C = true ->
  forall t : nat,
    Os <> [] -> (length C < t + length Os)%nat ->
    backward_from A B C t Os = Py.Raise Py.IndexError.
Proof.
  intros HC. induction Os as [|o Os IH]; intros t Hne Hlen; [done|].
  cbn [backward_from]. destruct Os as [|o' Os].
  - unfold scale_by. rewrite HC.
    rewrite (lookup_ge_None_2 C t) by (cbn in Hlen; lia). done.
  - rewrite (IH (S t)); [done | done | cbn in *; lia].
Qed.

(** X9.  Coefficients that are in use but fewer than the observations stop
    the backward pass on an [IndexError], raised at [C[T-1]] before any
    column is computed. *)
Theorem backward_short_coefficients_raise (A : list (list float))
    (B : list emission) (PI : list float) (O : list Z) (C : list float) :
  Np.any C = true -> (length C < length O)%nat ->
  backward_procedure A B PI O C = Py.Raise Py.IndexError.
Proof.
  intros HC Hlen. unfold backward_procedure.
  apply backward_from_short; [done | | lia].
  destruct O; [cbn in Hlen; lia | done].
Qed.

Lemma backward_short_coefficients_raise_witness :
  backward_procedure A_sticky fading_model PI_run [1; 2; 1]%Z [2; 3]%float
  = Py.Raise Py.IndexError.
Proof.
  apply (backward_short_coefficients_raise A_sticky fading_model PI_run
           [1; 2; 1]%Z [2; 3]%float); [reflexivity | cbn; lia].
Defined.

End BackwardFacts.

(** ** More on the gene-level output *)
Section GeneOutputFacts.
Import Genes.

(** X10.  Whenever a gene gets a call, the call is one of the four state
    labels or the sentinel N/A. *)
Theorem gene_call_label (ER VR : Z -> float -> float) (theta : float)
    (pos2state : gmap Z Z) (g : gene) (l : string) :
  gene_call ER VR theta pos2state g = Py.Ok l ->
  l ∈ ["ES"; "GD"; "NE"; "GA"; "N/A"].
Proof.
  unfold gene_call. destruct (genestates pos2state g) as [sts|e]; [|done].
  rewrite bind_Ok. unfold call.
  assert (Hmaj : majority (tally sts) = Py.Ok l ->
                 l ∈ ["ES"; "GD"; "NE"; "GA"; "N/A"]).
  { destruct (majority_spec (tally sts)) as (s & l' & Hm & Hl & Hs & _).
    rewrite Hm. intros [= <-].
    assert (s = 0 \/ s = 1 \/ s = 2 \/ s = 3)%Z
      as [-> | [-> | [-> | ->]]] by lia.
    all: vm_compute in Hl; injection Hl as <-; (rewrite !elem_of_cons; tauto). }
  destruct (0 <? n g)%Z; [|intros [= <-]; (rewrite !elem_of_cons; tauto)].
  destruct (_ =? n g)%Z; [intros [= <-]; (rewrite !elem_of_cons; tauto)|].
  destruct (threshold _ _) as [k|e]; [|done]. rewrite bind_Ok.
  destruct (k <=? _)%Z; [intros [= <-]; (rewrite !elem_of_cons; tauto) | exact Hmaj].
Qed.

Lemma gene_call_label_witness :
  "NE" ∈ ["ES"; "GD"; "NE"; "GA"; "N/A"].
Proof.
  apply (gene_call_label (fun _ _ => 5%float) (fun _ _ => 0%float) 0.5
           tie_states tie_gene "NE").
  by vm_compute.
Defined.

Lemma fold_insert_absent (l : list (Z * Z)) (p : Z) :
  Forall (fun ps : Z * Z => ps.1 <> p) l ->
  forall m : gmap Z Z,
    fold_left (fun (m : gmap Z Z) (ps : Z * Z) => <[ps.1 := ps.2]> m) l m !! p
    = m !! p.
Proof.
  induction 1 as [|ps l Hps _ IH]; intros m; cbn [fold_left]; [done|].
  rewrite IH. by rewrite lookup_insert_ne.
Qed.

Lemma fold_insert_last (l : list (Z * Z)) (p s : Z) :
  forall (t : nat) (m : gmap Z Z),
    l !! t = Some (p, s) ->
    (forall (t' : nat) (ps : Z * Z),
       (t < t')%nat -> l !! t' = Some ps -> ps.1 <> p) ->
    fold_left (fun (m : gmap Z Z) (ps : Z * Z) => <[ps.1 := ps.2]> m) l m !! p
    = Some s.
Proof.
  induction l as [|x l IH]; intros t m Ht Hlater; [done|].
  cbn [fold_left]. destruct t as [|t].
  - injection Ht as ->. rewrite fold_insert_absent.
    + cbn. by rewrite lookup_insert_eq.
    + apply Forall_forall. intros ps Hin.
      apply list_elem_of_lookup_1 in Hin as [t' Ht'].
      apply (Hlater (S t')); [lia | done].
  - apply (IH t); [done|]. intros t' ps Hlt Hps.
    apply (Hlater (S t')); [lia | done].
Qed.

(** X11.  The position-to-state dictionary gives back, for a position, the
    state listed with its last occurrence among the first [len(states)]
    positions, and nothing for a position that does not occur there; with
    fewer positions than states it cannot be built ([IndexError]). *)
Theorem pos2state_lookup (position states : list Z) :
  ((length position < length states)%nat ->
   pos2state_of position states = Py.Raise Py.IndexError) /\
  (forall m : gmap Z Z,
     pos2state_of position states = Py.Ok m ->
     (forall (t : nat) (p s : Z),
        position !! t = Some p -> states !! t = Some s ->
        (forall t' : nat, (t < t' < length states)%nat ->
           position !! t' <> Some p) ->
        m !! p = Some s) /\
     (forall p : Z,
        (forall t : nat, (t < length states)%nat -> position !! t <> Some p) ->
        m !! p = None)).
Proof.
  unfold pos2state_of. split.
  - intros Hlt. by destruct (Nat.leb_spec (length states) (length position)); [lia|].
  - intros m. destruct (length states <=? length position)%nat eqn:Hle; [|done].
    apply Nat.leb_le in Hle. intros [= <-]. split.
    + intros t p s Hp Hs Hlater. apply (fold_insert_last _ p s t).
      * rewrite lookup_zip_with. by rewrite Hp, Hs.
      * intros t' [p' s'] Hlt Hps. cbn. intros ->.
        apply lookup_zip_with_Some in Hps as (p'' & s'' & [= -> ->] & Hp' & Hs').
        apply lookup_lt_Some in Hs'. by apply (Hlater t').
    + intros p Hnone. rewrite fold_insert_absent; [done|].
      apply Forall_forall. intros [p' s'] Hin. cbn. intros ->.
      apply list_elem_of_lookup_1 in Hin as [t Ht].
      apply lookup_zip_with_Some in Ht as (p'' & s'' & [= -> ->] & Hp' & Hs').
      apply lookup_lt_Some in Hs'. by apply (Hnone t).
Qed.

Lemma pos2state_lookup_witness :
  exists m : gmap Z Z,
    pos2state_of [10; 20; 10]%Z [0; 2; 3]%Z = Py.Ok m /\
    m !! 10%Z = Some 3%Z /\ m !! 30%Z = None.
Proof.
  eexists. split; [reflexivity|].
  pose proof (pos2state_lookup [10; 20; 10]%Z [0; 2; 3]%Z) as [_ H].
  destruct (H _ eq_refl) as [Hlast Hnone]. split.
  - apply (Hlast 2%nat 10%Z 3%Z); [done | done |]. cbn. intros t' Ht'. lia.
  - apply Hnone. intros [|[|[|t]]] Ht; cbn in *; (done || lia).
Defined.

(** X12.  The states of a gene are read position by position: the list has
    one state per position of the gene, each the dictionary's entry for that
    position, and the lookup fails with [KeyError], and only so, when some
    position of the gene has no entry. *)
Theorem genestates_lookup (pos2state : gmap Z Z) (g : gene) :
  (forall sts : list Z,
     genestates pos2state g = Py.Ok sts <->
     Forall2 (fun p st => pos2state !! p = Some st) (position g) sts) /\
  (genestates pos2state g = Py.Raise Py.KeyError <->
   exists p : Z, p ∈ position g /\ pos2state !! p = None) /\
  (forall e : Py.exn,
     genestates pos2state g = Py.Raise e -> e = Py.KeyError).
Proof.
  unfold genestates. generalize (position g) as ps. intros ps.
  induction ps as [|p ps (IHok & IHkey & IHexn)]; cbn [Np.mapM].
  - split; [|split].
    + intros sts. split; [intros [= <-]; constructor | by inversion 1].
    + split; [done | intros (p & Hp & _); by apply elem_of_nil in Hp].
    + done.
  - destruct (pos2state !! p) as [st|] eqn:Hp.
    + rewrite bind_Ok.
      destruct (Np.mapM _ ps) as [rest|e] eqn:Hrest.
      * rewrite bind_Ok. split; [|split].
        -- intros sts. split.
           ++ intros [= <-]. constructor; [done | by apply IHok].
           ++ inversion 1 as [|? st' ? rest' Hst Hrest']; subst.
              apply IHok in Hrest'. by simplify_eq.
        -- split; [done|]. intros (p' & Hin & Hnone).
           apply elem_of_cons in Hin as [->|Hin]; [congruence|].
           assert (Py.Ok rest = Py.Raise Py.KeyError); [|done].
           apply IHkey. by exists p'.
        -- done.
      * split; [|split].
        -- intros sts. split; [done|].
           inversion 1 as [|? st' ? rest' Hst Hrest']; subst.
           by apply IHok in Hrest'.
        -- pose proof (IHexn e eq_refl) as ->. split; [|done]. intros _.
           destruct (proj1 IHkey eq_refl) as (p' & Hin & Hnone).
           exists p'. split; [by apply elem_of_cons; right | done].
        -- intros e' [= <-]. by apply IHexn.
    + split; [|split].
      * intros sts. split; [done|].
        inversion 1 as [|? st' ? rest' Hst Hrest']; subst. congruence.
      * split; [|done]. intros _. exists p. split; [apply elem_of_cons; by left | done].
      * by intros e [= <-].
Qed.

Lemma sites_in_cons (st : Z) (sts : list Z) (s : Z) :
  sites_in (st :: sts) s
  = (sites_in sts s + if decide (st = s) then 1 else 0)%Z.
Proof.
  unfold sites_in. rewrite filter_cons.
  destruct (decide (st = s)); cbn [length]; lia.
Qed.

(** X13.  The four per-state counts written for a gene add up to the number
    of its sites whose state is one of 0..3; a state outside that range is
    counted in no column. *)
Theorem state_counts_add_up (sts : list Z) :
  let d := tally sts in
  (get d 0 + get d 1 + get d 2 + get d 3)%Z
  = Z.of_nat (length (filter (fun st => (0 <= st <= 3)%Z) sts)).
Proof.
  cbn zeta. rewrite !get_tally.
  induction sts as [|st sts IH]; [done|].
  rewrite !sites_in_cons, filter_cons.
  destruct (decide (0 <= st <= 3)%Z) as [Hin|Hout]; cbn [length].
  - assert (st = 0 \/ st = 1 \/ st = 2 \/ st = 3)%Z
      as [-> | [-> | [-> | ->]]] by lia.
    all: repeat (destruct (decide _); try lia).
  - repeat (destruct (decide _); try lia).
Qed.

End GeneOutputFacts.

(** ** The state distribution of [Run] *)
Section StateCountFacts.
Import RunParams.

Lemma count_loop_valid (Q_opt : list nat) :
  forall (l pre : list nat) (acc : gmap Z Z * Z),
    Q_opt = pre ++ l ->
    Forall (fun s => (s < 4)%nat) l ->
    (forall i : nat, (i < 4)%nat -> is_Some (acc.1 !! Z.of_nat i)) ->
    exists m : gmap Z Z,
      count_loop Q_opt (seq (length pre) (length l)) acc
      = Py.Ok (m, (acc.2 + Z.of_nat (length l))%Z) /\
      (forall i : nat, (i < 4)%nat -> is_Some (m !! Z.of_nat i)) /\
      (forall i : nat,
         Genes.get m (Z.of_nat i)
         = (Genes.get acc.1 (Z.of_nat i)
            + Z.of_nat (length (filter (fun s => s = i) l)))%Z).
Proof.
  induction l as [|s l IH]; intros pre [m0 tot] HQ Hvalid Hkeys.
  - exists m0. cbn. split; [f_equal; f_equal; lia|]. split; [done|].
    intros i. lia.
  - apply Forall_cons in Hvalid as [Hs Hvalid].
    assert (Hlook : Q_opt !! length pre = Some s).
    { rewrite HQ. by apply list_lookup_middle. }
    cbn [length seq count_loop]. unfold count_step.
    rewrite Hlook. cbn [fst snd].
    destruct (Hkeys s Hs) as [c Hc]. cbn in Hc. rewrite Hc, bind_Ok.
    destruct (IH (pre ++ [s]) (<[Z.of_nat s := (c + 1)%Z]> m0, (tot + 1)%Z))
      as (m & Hm & Hmkeys & Hmget).
    + by rewrite <- app_assoc.
    + done.
    + intros i Hi. cbn. destruct (decide (s = i)) as [->|Hne].
      * rewrite lookup_insert_eq. by eexists.
      * rewrite lookup_insert_ne by lia. by apply Hkeys.
    + rewrite length_app in Hm. cbn [length] in Hm.
      rewrite Nat.add_1_r in Hm.
      exists m. split; [rewrite Hm; f_equal; f_equal; cbn; lia|].
      split; [done|]. intros i. rewrite Hmget. cbn [fst].
      rewrite filter_cons. unfold Genes.get.
      destruct (decide (s = i)) as [->|Hne].
      * rewrite lookup_insert_eq, Hc. cbn [default length]. unfold Datatypes.id. lia.
      * rewrite lookup_insert_ne by lia. lia.
Qed.

Lemma count_loop_invalid (Q_opt : list nat) :
  forall (l pre : list nat) (acc : gmap Z Z * Z),
    Q_opt = pre ++ l ->
    Exists (fun s => (4 <= s)%nat) l ->
    (forall k : Z, is_Some (acc.1 !! k) <-> (0 <= k < 4)%Z) ->
    count_loop Q_opt (seq (length pre) (length l)) acc
    = Py.Raise Py.KeyError.
Proof.
  induction l as [|s l IH]; intros pre [m0 tot] HQ Hbad Hkeys.
  - by apply Exists_nil in Hbad.
  - assert (Hlook : Q_opt !! length pre = Some s).
    { rewrite HQ. by apply list_lookup_middle. }
    cbn [length seq count_loop]. unfold count_step.
    rewrite Hlook. cbn [fst snd].
    destruct (m0 !! Z.of_nat s) as [c|] eqn:Hc; [|done].
    rewrite bind_Ok.
    assert (s < 4)%nat as Hs.
    { assert (is_Some (m0 !! Z.of_nat s)) as H%Hkeys by (by eexists). lia. }
    apply Exists_cons in Hbad as [?|Hbad]; [lia|].
    specialize (IH (pre ++ [s])
                  (<[Z.of_nat s := (c + 1)%Z]> m0, (tot + 1)%Z)).
    rewrite length_app in IH. cbn [length] in IH.
    rewrite Nat.add_1_r in IH. apply IH; [by rewrite <- app_assoc | done |].
    intros k. cbn. destruct (decide (Z.of_nat s = k)) as [<-|Hne].
    + rewrite lookup_insert_eq. split; [lia | by eexists].
    + rewrite lookup_insert_ne by done. apply Hkeys.
Qed.

Lemma state2count_init_keys (k : Z) :
  is_Some (state2count_init !! k) <-> (0 <= k < 4)%Z.
Proof.
  split.
  - intros [c Hc]. destruct (decide (0 <= k < 4)%Z) as [|Hout]; [done|].
    exfalso. unfold state2count_init in Hc. cbn in Hc.
    rewrite !lookup_insert_ne in Hc by lia. done.
  - intros Hk.
    assert (k = 0 \/ k = 1 \/ k = 2 \/ k = 3)%Z
      as [-> | [-> | [-> | ->]]] by lia; by eexists.
Qed.

Lemma count_of_four (l : list nat) :
  Forall (fun s => (s < 4)%nat) l ->
  (length (filter (fun s => s = 0%nat) l) + length (filter (fun s => s = 1%nat) l)
   + length (filter (fun s => s = 2%nat) l)
   + length (filter (fun s => s = 3%nat) l))%nat = length l.
Proof.
  induction 1 as [|s l Hs _ IH]; [done|].
  rewrite !filter_cons.
  repeat destruct (decide _); cbn [length]; lia.
Qed.

(** X14.  The state distribution of a decoded path: when every state of the
    path is one of 0..3 the loop ends with [total] the length of the path
    and, for each state, the number of sites decoded into it, the four
    counts adding up to [total]; a state outside 0..3 stops it on a
    [KeyError]. *)
Theorem state_counts_spec (Q_opt : list nat) :
  (Forall (fun s => (s < 4)%nat) Q_opt ->
   exists m : gmap Z Z,
     state_counts (length Q_opt) Q_opt
     = Py.Ok (m, Z.of_nat (length Q_opt)) /\
     (forall i : nat, (i < 4)%nat ->
        m !! Z.of_nat i
        = Some (Z.of_nat (length (filter (fun s => s = i) Q_opt)))) /\
     (Genes.get m 0 + Genes.get m 1 + Genes.get m 2 + Genes.get m 3)%Z
     = Z.of_nat (length Q_opt)) /\
  (Exists (fun s => (4 <= s)%nat) Q_opt ->
   state_counts (length Q_opt) Q_opt = Py.Raise Py.KeyError).
Proof.
  unfold state_counts. split.
  - intros Hvalid.
    destruct (count_loop_valid Q_opt Q_opt [] (state2count_init, 0%Z))
      as (m & Hm & Hkeys & Hget); [done | done | |].
    { intros i Hi. apply state2count_init_keys. cbn. lia. }
    exists m. split; [exact Hm|].
    assert (Hcount : forall i : nat, (i < 4)%nat ->
              Genes.get m (Z.of_nat i)
              = Z.of_nat (length (filter (fun s => s = i) Q_opt))).
    { intros i Hi. rewrite Hget. cbn [fst].
      do 4 (destruct i as [|i]; [done|]). lia. }
    split.
    + intros i Hi. destruct (Hkeys i Hi) as [c Hc].
      specialize (Hcount i Hi). unfold Genes.get in Hcount.
      rewrite Hc in Hcount. cbn in Hcount. by rewrite Hc, Hcount.
    + change 0%Z with (Z.of_nat 0). change 1%Z with (Z.of_nat 1).
      change 2%Z with (Z.of_nat 2). change 3%Z with (Z.of_nat 3).
      rewrite !Hcount by lia. pose proof (count_of_four Q_opt Hvalid). lia.
  - intros Hbad.
    apply (count_loop_invalid Q_opt Q_opt [] (state2count_init, 0%Z));
      [done | done |].
    intros k. apply state2count_init_keys.
Qed.

Lemma state_counts_spec_witness :
  exists m : gmap Z Z,
    state_counts 4 [0; 2; 2; 3]%nat = Py.Ok (m, 4%Z) /\
    m !! 2%Z = Some 2%Z.
Proof.
  destruct (proj1 (state_counts_spec [0; 2; 2; 3]%nat)) as (m & Hm & Hc & _).
  - repeat constructor; lia.
  - exists m. split; [exact Hm|]. apply (Hc 2%nat). lia.
Defined.

End StateCountFacts.

(** ** Which constructions succeed *)
Section MethodOutcomes.
Import Method.

(** X15.  On an instance that has no attribute named [self], the
    construction succeeds exactly when [ctrldata] has a first path and that
    file can be read; [count] is then 1 and [maxiterations] is four times
    the number of lines that do not start with [#], plus one, hence at
    least 1.  It fails in every other case, and always with
    [AttributeError]: the [IndexError] or [IOError] of the [try] block is
    never what the caller sees. *)
Theorem init_outcomes (self : obj) (fs : gmap string (list string))
    (ctrldata : list string) :
  self !! "self" = None ->
  match init self fs ctrldata with
  | Py.Ok self' =>
      exists (path : string) (lines : list string),
        ctrldata !! 0%nat = Some path /\ fs !! path = Some lines /\
        self' !! "count" = Some (Int 1) /\
        self' !! "maxiterations"
        = Some (Int (count_data_lines lines * 4 + 1)) /\
        (1 <= count_data_lines lines * 4 + 1)%Z
  | Py.Raise e =>
      e = Py.AttributeError /\
      (ctrldata !! 0%nat = None \/
       exists path : string, ctrldata !! 0%nat = Some path /\ fs !! path = None)
  end.
Proof.
  intros Hself.
  destruct (ctrldata !! 0%nat) as [path|] eqn:Hpath.
  - destruct (fs !! path) as [lines|] eqn:Hlines.
    + rewrite (init_readable self fs ctrldata path lines Hpath Hlines).
      exists path, lines. split; [done|]. split; [done|].
      split; [apply lookup_insert_eq|].
      split; [|unfold count_data_lines; lia].
      etrans; [by apply lookup_insert_ne | apply lookup_insert_eq].
    + rewrite init_unreadable; [| done |].
      * split; [done|]. right. by exists path.
      * unfold init_try, first_path, readlines. by rewrite Hpath, bind_Ok, Hlines.
  - rewrite init_unreadable; [| done |].
    + split; [done|]. by left.
    + unfold init_try, first_path. by rewrite Hpath.
Qed.

Lemma init_outcomes_witness :
  exists self' : obj,
    init ∅ {["ctrl.wig" := ["# header"; "1 0"; "2 5"]]} ["ctrl.wig"]
    = Py.Ok self' /\ self' !! "maxiterations" = Some (Int 9).
Proof.
  pose proof (init_outcomes ∅ {["ctrl.wig" := ["# header"; "1 0"; "2 5"]]}
                ["ctrl.wig"] eq_refl) as H.
  destruct (init ∅ _ ["ctrl.wig"]) as [self'|e] eqn:Hinit; [|done].
  exists self'. split; [done|].
  destruct H as (path & lines & Hp & Hl & _ & Hmax & _).
  injection Hp as <-. vm_compute in Hl. injection Hl as <-. exact Hmax.
Defined.

End MethodOutcomes.

(** ** Samples and conditions *)
Section ConditionFacts.
Import Conditions.
Context {W : Type}.

Lemma filter_loop_spec (data : list W) (ignored : gset string) :
  forall (cs : list string) (ds pre : list W) (acc : list W * list string),
    data = pre ++ ds -> (length cs <= length ds)%nat ->
    filter_loop data ignored (zip (seq (length pre) (length cs)) cs) acc
    = Py.Ok
        (acc.1 ++ (filter (fun dc : W * string => dc.2 ∉ ignored) (zip ds cs)).*1,
         acc.2 ++ filter (fun c => c ∉ ignored) cs).
Proof.
  induction cs as [|c cs IH]; intros ds pre [accd accc] Hdata Hlen.
  - cbn. by rewrite zip_with_nil_r, !app_nil_r.
  - destruct ds as [|d ds]; [cbn in Hlen; lia|].
    cbn [length seq zip zip_with filter_loop]. unfold filter_step. cbn [fst snd].
    rewrite !filter_cons. cbn [fst snd].
    specialize (IH ds (pre ++ [d])).
    rewrite length_app in IH. cbn [length] in IH. rewrite Nat.add_1_r in IH.
    destruct (decide (c ∈ ignored)) as [Hin|Hout].
    + rewrite bind_Ok.
      destruct (decide (c ∉ ignored)); [done|].
      apply IH; [by rewrite <- app_assoc | cbn in Hlen; lia].
    + rewrite Hdata, list_lookup_middle by done. rewrite bind_Ok.
      destruct (decide (c ∉ ignored)); [|done].
      rewrite <- Hdata, IH; [| by rewrite <- app_assoc | cbn in Hlen; lia].
      cbn [fst snd fmap list_fmap]. by rewrite <- !app_assoc.
Qed.

(** X16.  With at least as many samples as conditions, the filter returns
    exactly the samples whose condition is not ignored, in their order,
    each with its own condition: the two lists it returns stay aligned and
    no ignored condition is left. *)
Theorem filter_by_conditions_blacklist_spec (data : list W)
    (conditions : list string) (ignored : gset string) :
  (length conditions <= length data)%nat ->
  exists (d : list W) (c : list string),
    filter_by_conditions_blacklist data conditions ignored = Py.Ok (d, c) /\
    zip d c = filter (fun dc : W * string => dc.2 ∉ ignored) (zip data conditions) /\
    c = filter (fun c => c ∉ ignored) conditions /\
    length d = length c /\
    Forall (fun c => c ∉ ignored) c.
Proof.
  intros Hlen. unfold filter_by_conditions_blacklist.
  pose proof (filter_loop_spec data ignored conditions data [] ([], [])
                eq_refl Hlen) as Hloop.
  cbn [length fst snd app] in Hloop. rewrite Hloop. clear Hloop.
  eexists _, _. split; [reflexivity|].
  assert (Hsnd : (filter (fun dc : W * string => dc.2 ∉ ignored)
                    (zip data conditions)).*2
                 = filter (fun c => c ∉ ignored) conditions).
  { revert data Hlen. induction conditions as [|c cs IH]; intros data Hlen.
    - by rewrite zip_with_nil_r.
    - destruct data as [|d data]; [cbn in Hlen; lia|].
      cbn [zip zip_with]. rewrite !filter_cons. cbn [snd].
      destruct (decide (c ∉ ignored)); cbn [fmap list_fmap snd];
        rewrite <- (IH data) by (cbn in Hlen; lia); done. }
  split; [|split; [|split]].
  - rewrite <- Hsnd. apply zip_fst_snd.
  - done.
  - rewrite <- Hsnd. by rewrite !length_fmap.
  - apply Forall_forall. intros c Hc. by apply list_elem_of_filter in Hc as [? _].
Qed.

End ConditionFacts.

Lemma filter_by_conditions_blacklist_spec_witness :
  exists (d : list nat) (c : list string),
    Conditions.filter_by_conditions_blacklist [7; 8; 9]%nat ["a"; "Unknown"; "b"]
      Conditions.zinb_default_ignored = Py.Ok (d, c) /\
    c = filter (fun c => c ∉ Conditions.zinb_default_ignored)
          ["a"; "Unknown"; "b"].
Proof.
  destruct (filter_by_conditions_blacklist_spec [7; 8; 9]%nat
              ["a"; "Unknown"; "b"] Conditions.zinb_default_ignored)
    as (d & c & Hf & _ & Hc & _).
  - cbn. lia.
  - by exists d, c.
Defined.

(** ** The samples ZINB keeps by default *)
Section ZinbFacts.
Import Conditions.
Context {W : Type}.



End ZinbFacts.


(** ** The result files: reading back what was written *)

(** A character is not in a text given in full. *)
Ltac solve_not_in :=
  let H := fresh in
  intros H; vm_compute in H;
  repeat (apply elem_of_cons in H as [H|H]; [discriminate H|]);
  by apply elem_of_nil in H.

(** Two different literals are not equal; a literal equals itself. *)
Ltac lit_absurd :=
  match goal with
  | E : Files.lit _ = Files.lit _ |- _ => by vm_compute in E
  | E : Files.lit _ <> Files.lit _ |- _ => by destruct E
  end.

Section FileFacts.
Import Files FilesWf.

Lemma split_no_sep (sep : Ascii.ascii) (f : text) :
  sep ∉ f -> split sep f = [f].
Proof.
  induction f as [|c f IH]; intros Hsep; [done|].
  apply not_elem_of_cons in Hsep as [Hne Hsep]. cbn [split].
  destruct (Ascii.eqb_spec c sep) as [->|_]; [done|]. by rewrite IH.
Qed.

Lemma split_sep_cons (sep : Ascii.ascii) (f rest : text) :
  sep ∉ f -> split sep (f ++ sep :: rest) = f :: split sep rest.
Proof.
  induction f as [|c f IH]; intros Hsep.
  - cbn [app split]. by rewrite Ascii.eqb_refl.
  - apply not_elem_of_cons in Hsep as [Hne Hsep]. cbn [app split].
    destruct (Ascii.eqb_spec c sep) as [->|_]; [done|]. by rewrite IH.
Qed.

(** Splitting what [join] glued gives the fields back, when no field
    holds the separator. *)
Lemma split_join (sep : Ascii.ascii) (fields : list text) :
  fields <> [] -> Forall (fun f => sep ∉ f) fields ->
  split sep (join [sep] fields) = fields.
Proof.
  intros Hne Hfields. induction Hfields as [|f fs Hf Hfs IH]; [done|].
  cbn [join]. destruct fs as [|f' fs]; [by apply split_no_sep|].
  cbn [app]. rewrite split_sep_cons by done. by rewrite IH.
Qed.

Lemma join_app (sep : text) (l1 l2 : list text) :
  l1 <> [] -> l2 <> [] ->
  join sep (l1 ++ l2) = join sep l1 ++ sep ++ join sep l2.
Proof.
  intros Hl1 Hl2. induction l1 as [|f l1 IH]; [done|].
  destruct l1 as [|f' l1].
  - cbn [app join]. by destruct l2.
  - change (join sep ((f :: f' :: l1) ++ l2))
      with (f ++ sep ++ join sep ((f' :: l1) ++ l2)).
    rewrite IH by done.
    change (join sep (f :: f' :: l1)) with (f ++ sep ++ join sep (f' :: l1)).
    by rewrite <- !app_assoc.
Qed.

Lemma join_head (sep : text) (f : text) (fs : list text) (c : Ascii.ascii) :
  head f = Some c -> head (join sep (f :: fs)) = Some c.
Proof. destruct f as [|c' f]; [done|]. intros [= ->]. by destruct fs. Qed.

Lemma join_last (sep : text) (fs : list text) (f : text) (c : Ascii.ascii) :
  last f = Some c -> last (join sep (fs ++ [f])) = Some c.
Proof.
  intros Hf. destruct fs as [|f0 fs]; [done|].
  rewrite join_app by done. cbn [join]. by rewrite !last_app, Hf.
Qed.

Lemma lstrip_head (l : text) (c : Ascii.ascii) :
  head l = Some c -> is_space c = false -> lstrip l = l.
Proof.
  destruct l as [|c' l]; [done|]. intros [= ->] Hc. cbn [lstrip]. by rewrite Hc.
Qed.

Lemma lstrip_spaces (ws l : text) :
  Forall (fun c => is_space c = true) ws -> lstrip (ws ++ l) = lstrip l.
Proof.
  induction 1 as [|c ws Hc _ IH]; [done|]. cbn [app lstrip]. by rewrite Hc.
Qed.

(** [strip] takes the white space off the end of a text that starts and
    ends with other characters. *)
Lemma strip_body (body ws : text) (c1 c2 : Ascii.ascii) :
  head body = Some c1 -> is_space c1 = false ->
  last body = Some c2 -> is_space c2 = false ->
  Forall (fun c => is_space c = true) ws ->
  strip (body ++ ws) = body.
Proof.
  intros Hc1 Hs1 Hc2 Hs2 Hws. unfold strip.
  rewrite (lstrip_head (body ++ ws) c1); [| by destruct body | done].
  rewrite rev_app_distr, lstrip_spaces by (by apply Forall_rev).
  rewrite (lstrip_head (rev body) c2); [apply rev_involutive | | done].
  rewrite <- Hc2. clear. induction body as [|c body IH] using rev_ind; [done|].
  by rewrite rev_unit, last_snoc.
Qed.


Lemma plain_app (a b : text) : plain a -> plain b -> plain (a ++ b).
Proof. unfold plain. intros Ha Hb. rewrite elem_of_app. tauto. Qed.

Lemma plain_join_comma (fs : list text) :
  Forall plain fs -> plain (join (lit ",") fs).
Proof.
  induction 1 as [|f fs Hf Hfs IH]; [by apply not_elem_of_nil|].
  cbn [join]. destruct fs as [|f' fs]; [done|].
  apply plain_app; [done|]. apply plain_app; [|done].
  unfold plain. solve_not_in.
Qed.

Lemma s_lab_cases (st : Z) :
  (st = 0%Z /\ s_lab st = lit "ES") \/ (st = 1%Z /\ s_lab st = lit "GD") \/
  (st = 2%Z /\ s_lab st = lit "NE") \/ (st = 3%Z /\ s_lab st = lit "GA") \/
  (~ (0 <= st <= 3)%Z /\ s_lab st = lit "Unknown State").
Proof.
  destruct (decide (0 <= st <= 3)%Z) as [Hin|Hout].
  - assert (st = 0 \/ st = 1 \/ st = 2 \/ st = 3)%Z
      as [-> | [-> | [-> | ->]]] by lia; tauto.
  - do 4 right. split; [done|]. unfold s_lab, Genes.num2label. cbn [list_to_map foldr fst snd].
    rewrite !lookup_insert_ne by lia. done.
Qed.

Lemma s_lab_shape (st : Z) :
  plain (s_lab st) /\
  exists c : Ascii.ascii, last (s_lab st) = Some c /\ is_space c = false.
Proof.
  destruct (s_lab_cases st)
    as [[_ ->] | [[_ ->] | [[_ ->] | [[_ ->] | [_ ->]]]]];
    (split; [unfold plain; solve_not_in | by eexists]).
Qed.

(** The genes text has no tab and is empty or ends with a bracket. *)
Lemma genestr_shape (name_of : text -> text) (genes : list text) :
  Forall (fun g => plain g /\ plain (name_of g)) genes ->
  plain (genestr name_of genes) /\
  (genestr name_of genes = [] \/
   exists c : Ascii.ascii,
     last (genestr name_of genes) = Some c /\ is_space c = false).
Proof.
  intros Hgenes.
  set (entry := fun g : text => g ++ lit "_(" ++ name_of g ++ lit ")").
  assert (Hplain : Forall plain (map entry genes)).
  { apply Forall_map. eapply Forall_impl; [exact Hgenes|].
    intros g [Hg Hn]. unfold entry. cbn beta.
    repeat apply plain_app; try done; unfold plain; solve_not_in. }
  assert (Hjoin : plain (join (lit ",") (map entry genes)) /\
            (join (lit ",") (map entry genes) = [] \/
             exists c : Ascii.ascii,
               last (join (lit ",") (map entry genes)) = Some c /\
               is_space c = false)).
  { split; [by apply plain_join_comma|].
    destruct genes as [|g genes _] using rev_ind; [by left|]. right.
    rewrite map_app. cbn [map]. exists (Ascii.ascii_of_nat 41).
    split; [|done]. apply join_last. unfold entry.
    change (lit ")") with [Ascii.ascii_of_nat 41].
    by rewrite !app_assoc, last_snoc. }
  unfold genestr. fold entry.
  destruct genes as [|g [|g' genes]];
    [exact Hjoin | | destruct g; exact Hjoin].
  destruct g; [|exact Hjoin]. split; [apply not_elem_of_nil | by left].
Qed.

Lemma join_snoc (sep : text) (l : list text) (f : text) :
  l <> [] -> join sep (l ++ [f]) = join sep l ++ sep ++ f.
Proof. intros Hl. by rewrite join_app. Qed.

Lemma site_fields_flat (pos cnt g0 g1 g2 g3 lab gstr : text) :
  join [tab] [pos; cnt; join [tab] [g0; g1; g2; g3]; lab; gstr]
  = join [tab] [pos; cnt; g0; g1; g2; g3; lab] ++ [tab] ++ gstr.
Proof. cbn [join app]. repeat (rewrite <- app_assoc; cbn [app]). done. Qed.

(** Reading a site line back: the line is no comment and the column the
    header looks at holds the label of the site's state. *)
Lemma site_line_label (name_of : text -> text) (r : site) :
  wf_site name_of r ->
  is_comment (site_line name_of r) = false /\
  (let tmp := split tab (strip (site_line name_of r)) in
   from_end (if (length tmp =? 7)%nat then 1 else 2) tmp
   = Py.Ok (s_lab (site_state r))).
Proof.
  intros ((c1 & Hc1 & Hsp1 & Hhash) & Hpos & Hcnt & Hlen & Hgam & Hgenes).
  destruct (s_lab_shape (site_state r)) as (Hlab & c2 & Hc2 & Hsp2).
  destruct (genestr_shape name_of (site_genes r) Hgenes) as (Hgstr & Hend).
  unfold site_line.
  destruct (site_gamma r) as [|g0 [|g1 [|g2 [|g3 [|g4 gs]]]]]; try done.
  apply Forall_cons in Hgam as [Hg0 Hgam].
  apply Forall_cons in Hgam as [Hg1 Hgam].
  apply Forall_cons in Hgam as [Hg2 Hgam].
  apply Forall_cons in Hgam as [Hg3 _].
  set (pos := site_position r) in *. set (cnt := site_count r) in *.
  set (lab := s_lab (site_state r)) in *.
  set (gstr := genestr name_of (site_genes r)) in *.
  split.
  { destruct pos as [|c pos']; [done|]. injection Hc1 as ->.
    cbn [join app is_comment]. by destruct (Ascii.eqb_spec c1 hash). }
  rewrite (site_fields_flat pos cnt g0 g1 g2 g3 lab gstr).
  destruct Hend as [Hnil | (c3 & Hc3 & Hsp3)].
  - rewrite Hnil, <- app_assoc. cbn [app].
    rewrite (strip_body _ [tab; newline] c1 c2); try done.
    + rewrite split_join by (done || by repeat constructor). by cbn.
    + by apply join_head.
    + by apply (join_last [tab] [pos; cnt; g0; g1; g2; g3] lab).
    + by repeat constructor.
  - rewrite <- (join_snoc [tab] [pos; cnt; g0; g1; g2; g3; lab] gstr) by done.
    rewrite (strip_body _ [newline] c1 c3); try done.
    + rewrite split_join by (done || by repeat constructor). by cbn.
    + by apply join_head.
    + by apply (join_last [tab] [pos; cnt; g0; g1; g2; g3; lab] gstr).
    + by repeat constructor.
Qed.


Lemma sites_step_written (name_of : text -> text) (r : site) (acc : counters) :
  wf_site name_of r ->
  sites_step acc (site_line name_of r)
  = Py.Ok (Counters (es acc + if decide (site_state r = 0%Z) then 1 else 0)
                    (gd acc + if decide (site_state r = 1%Z) then 1 else 0)
                    (ne acc + if decide (site_state r = 2%Z) then 1 else 0)
                    (ga acc + if decide (site_state r = 3%Z) then 1 else 0)
                    (T acc + 1)).
Proof.
  intros Hwf. destruct (site_line_label name_of r Hwf) as [Hcom Hlab].
  cbn zeta in Hlab. unfold sites_step. rewrite Hcom. cbn zeta.
  rewrite Hlab, bind_Ok.
  destruct (s_lab_cases (site_state r))
    as [[-> ->] | [[-> ->] | [[-> ->] | [[-> ->] | [Hout ->]]]]].
  all: destruct acc; cbn [es gd ne ga T]; repeat case_decide.
  all: try lia; try lit_absurd.
  all: f_equal; f_equal; cbn [es gd ne ga T]; lia.
Qed.

Lemma sites_loop_comments (comments rest : list text) (acc : counters) :
  Forall (fun l => is_comment l = true) comments ->
  sites_loop (comments ++ rest) acc = sites_loop rest acc.
Proof.
  induction 1 as [|l comments Hl _ IH]; [done|].
  cbn [app sites_loop]. unfold sites_step. by rewrite Hl, bind_Ok.
Qed.

Lemma sites_loop_written (name_of : text -> text) (rows : list site) :
  Forall (wf_site name_of) rows ->
  forall acc : counters,
    sites_loop (map (site_line name_of) rows) acc
    = Py.Ok (Counters (es acc + sites_with rows 0%Z) (gd acc + sites_with rows 1%Z)
                      (ne acc + sites_with rows 2%Z) (ga acc + sites_with rows 3%Z)
                      (T acc + Z.of_nat (length rows))).
Proof.
  induction 1 as [|r rows Hr _ IH]; intros acc.
  - destruct acc. cbn. unfold sites_with. cbn. by rewrite !Z.add_0_r.
  - cbn [map sites_loop]. rewrite (sites_step_written name_of r acc Hr), bind_Ok.
    rewrite IH. cbn [es gd ne ga T]. unfold sites_with. rewrite !filter_cons.
    f_equal. f_equal; repeat case_decide; cbn [length]; lia.
Qed.

(** X18.  The header of a sites file that [Run] wrote: every comment line
    is skipped, every site is counted under the label of its state, with or
    without genes at the site, so the four percentages are those of the
    states written; a file without a site ends in [ZeroDivisionError]. *)
Theorem sites_header_of_written_file (name_of : text -> text)
    (comments : list text) (rows : list site) :
  Forall (fun l => is_comment l = true) comments ->
  Forall (wf_site name_of) rows ->
  sites_getHeader (comments ++ map (site_line name_of) rows)
  = if decide (rows = []) then Py.Raise Py.ZeroDivisionError
    else
      let total := Z.of_nat (length rows) in
      Py.Ok (percent (sites_with rows 0%Z) total, percent (sites_with rows 1%Z) total,
             percent (sites_with rows 2%Z) total, percent (sites_with rows 3%Z) total).
Proof.
  intros Hcomments Hrows. unfold sites_getHeader.
  rewrite sites_loop_comments, (sites_loop_written name_of rows Hrows), bind_Ok
    by done.
  cbn [es gd ne ga T]. rewrite !Z.add_0_l. unfold Pins.truediv.
  case_decide as Hnil.
  - by rewrite Hnil.
  - destruct (Z.eqb_spec (Z.of_nat (length rows)) 0) as [E|_].
    { destruct rows; [done | cbn in E; lia]. }
    by rewrite !bind_Ok.
Qed.

Lemma call_shape (call : text) :
  call ∈ map lit ["ES"; "GD"; "NE"; "GA"; "N/A"] ->
  plain call /\
  exists c : Ascii.ascii, last call = Some c /\ is_space c = false.
Proof.
  cbn [map]. rewrite !elem_of_cons, elem_of_nil.
  intros [-> | [-> | [-> | [-> | [-> | []]]]]];
    (split; [unfold plain; solve_not_in | by eexists]).
Qed.

Lemma gene_line_call (fields : list text) (call : text) :
  wf_gene fields call ->
  is_comment (gene_line fields call) = false /\
  split tab (strip (gene_line fields call)) = fields ++ [call].
Proof.
  intros (Hlen & Hplain & (f & Hf & c1 & Hc1 & Hsp1 & Hhash) & Hcall).
  destruct (call_shape call Hcall) as (Hpc & c2 & Hc2 & Hsp2).
  destruct fields as [|f' rest]; [done|]. injection Hf as ->.
  unfold gene_line. split.
  - pose proof (join_head [tab] f (rest ++ [call]) c1 Hc1) as Hh.
    change ((f :: rest) ++ [call]) with (f :: rest ++ [call]).
    destruct (join [tab] (f :: rest ++ [call])) as [|c l]; [done|].
    injection Hh as ->. cbn [app is_comment].
    by destruct (Ascii.eqb_spec c1 hash).
  - rewrite (strip_body _ [newline] c1 c2); try done.
    + apply split_join; [done|]. apply Forall_app. by split; [|repeat constructor].
    + by apply join_head.
    + by apply join_last.
    + by repeat constructor.
Qed.

Lemma genes_step_written (fields : list text) (call : text) (acc : counters) :
  wf_gene fields call ->
  genes_step acc (gene_line fields call)
  = Counters (es acc + if decide (call = lit "ES") then 1 else 0)
             (gd acc + if decide (call = lit "GD") then 1 else 0)
             (ne acc + if decide (call = lit "NE") then 1 else 0)
             (ga acc + if decide (call = lit "GA") then 1 else 0)
             (T acc).
Proof.
  intros Hwf. destruct (gene_line_call fields call Hwf) as [Hcom Hsplit].
  destruct Hwf as (Hlen & _ & _ & Hcall).
  unfold genes_step. rewrite Hcom, Hsplit, length_app, Hlen, last_snoc.
  cbn [length Nat.add Nat.ltb Nat.leb default].
  cbn [map] in Hcall. rewrite !elem_of_cons, elem_of_nil in Hcall.
  destruct acc.
  destruct Hcall as [-> | [-> | [-> | [-> | [-> | []]]]]];
    repeat case_decide; try lit_absurd;
    cbn [es gd ne ga T]; f_equal; lia.
Qed.

Lemma genes_fold_comments (comments rest : list text) (acc : counters) :
  Forall (fun l => is_comment l = true) comments ->
  fold_left genes_step (comments ++ rest) acc = fold_left genes_step rest acc.
Proof.
  intros Hc. rewrite fold_left_app. f_equal.
  revert acc. induction Hc as [|l comments Hl _ IH]; intros acc; [done|].
  cbn [fold_left]. unfold genes_step at 2. by rewrite Hl.
Qed.

Lemma genes_fold_written (rows : list (list text * text)) :
  Forall (fun fc => wf_gene fc.1 fc.2) rows ->
  forall acc : counters,
    fold_left genes_step (map (fun fc => gene_line fc.1 fc.2) rows) acc
    = Counters (es acc + genes_with rows "ES") (gd acc + genes_with rows "GD")
               (ne acc + genes_with rows "NE") (ga acc + genes_with rows "GA")
               (T acc).
Proof.
  unfold genes_with.
  induction 1 as [|[fields call] rows Hr _ IH]; intros acc.
  - destruct acc. cbn. by rewrite !Z.add_0_r.
  - cbn [map fold_left fst snd]. rewrite (genes_step_written fields call acc Hr).
    rewrite IH. cbn [es gd ne ga T]. rewrite !filter_cons. cbn [snd].
    f_equal; repeat case_decide; cbn [length]; lia.
Qed.

(** X19.  The header of a genes file that [post_process_genes] wrote:
    every comment line is skipped and every gene is counted under its call,
    so the four counts are those of the calls ES, GD, NE and GA written; a
    gene called N/A is counted nowhere. *)
Theorem genes_header_of_written_file (comments : list text)
    (rows : list (list text * text)) :
  Forall (fun l => is_comment l = true) comments ->
  Forall (fun fc => wf_gene fc.1 fc.2) rows ->
  genes_getHeader (comments ++ map (fun fc => gene_line fc.1 fc.2) rows)
  = (genes_with rows "ES", genes_with rows "GD",
     genes_with rows "NE", genes_with rows "GA").
Proof.
  intros Hcomments Hrows. unfold genes_getHeader.
  rewrite genes_fold_comments, (genes_fold_written rows Hrows) by done.
  cbn [es gd ne ga T]. by rewrite !Z.add_0_l.
Qed.

End FileFacts.

Lemma sites_header_of_written_file_witness :
  Files.sites_getHeader
    ([Files.lit "#HMM - Sites"]
       ++ map (Files.site_line FilesWf.sample_name_of) FilesWf.sample_sites)
  = Py.Ok (FilesWf.percent 1 2, FilesWf.percent 0 2,
           FilesWf.percent 1 2, FilesWf.percent 0 2).
Proof.
  rewrite (sites_header_of_written_file FilesWf.sample_name_of
             [Files.lit "#HMM - Sites"] FilesWf.sample_sites).
  - reflexivity.
  - by repeat constructor.
  - repeat constructor; try (by eexists); try (unfold FilesWf.plain; solve_not_in).
Defined.

Lemma genes_header_of_written_file_witness :
  Files.genes_getHeader
    ([Files.lit "#HMM - Genes"]
       ++ map (fun fc => Files.gene_line fc.1 fc.2) FilesWf.sample_genes)
  = (0%Z, 0%Z, 1%Z, 0%Z).
Proof.
  rewrite (genes_header_of_written_file [Files.lit "#HMM - Genes"]
             FilesWf.sample_genes).
  - reflexivity.
  - by repeat constructor.
  - repeat constructor; try (by eexists); try (unfold FilesWf.plain; solve_not_in).
    all: eexists; split; [reflexivity|]; by eexists.
Defined.
